(** * repo-health-report: the job registry, the staged cache and the status log

    A shallow embedding of [webapp.py]: the worker-side pipeline
    [fetch_repo_data] with its nested [update_status], the helper
    [pretty_timedelta], and the request handlers
    [APIDataAvailableHandler.availablitiy] / [APIDataHandler.resp].

    Python values that travel through [json.load] / [json.dump] are modelled
    by the type [json]; the file system is a finite map from path strings to
    nodes; exceptions are an explicit error type threaded by a small
    state-and-error monad.  A path string stands for the file it names when
    it is in normal form (no empty, [.] or [..] component, see
    [normal_path]) on a disk without symbolic links and with case-sensitive
    names; the properties that relate paths to one another are stated for
    keys in normal form.  The external collaborators (PyGithub, GitPython,
    [git_analysis], the wall clock) are oracles collected in the record
    [Env]. *)

From stdpp Require Import base option list strings gmap.
From Stdlib Require Import ZArith Lia Ascii DecimalString.

Set Warnings "-register-all".

Local Open Scope string_scope.
Local Open Scope Z_scope.

(* ===================================================================== *)
(** * JSON documents and the Python operations applied to them *)
(* ===================================================================== *)

(** What [json.load] returns and [json.dump] accepts.  A Python [dict] keeps
    insertion order and has unique keys: it is an association list maintained
    by [dict_set]. *)
Inductive json : Type :=
| JNull
| JBool (b : bool)
| JNum (z : Z)
| JStr (s : string)
| JList (l : list json)
| JDict (d : list (string * json)).

(** Python exceptions raised on the paths modelled here.  [ProducerError]
    is an exception raised inside an external collaborator; it is labelled
    with the pipeline stage whose producer raised it (the information a
    Python traceback carries) and holds the collaborator's message. *)
Inductive stage : Type :=
| ResolveIdentity
| FetchMetadata
| FetchIssues
| FetchStargazers
| LocalMirror
| DerivedAnalysis.

Inductive exn : Type :=
| ProducerError (s : stage) (msg : string)
| JSONDecodeError
| FileNotFoundError (path : string)
| FileExistsError (path : string)
| IsADirectoryError (path : string)
| NotADirectoryError (path : string)
| IndexError
| KeyError (key : string)
| TypeError
| AttributeError.

Inductive result (A : Type) : Type :=
| Ok (a : A)
| Raise (e : exn).
Arguments Ok {A} a.
Arguments Raise {A} e.

#[global] Instance stage_eq_dec : EqDecision stage.
Proof. solve_decision. Defined.

(** [d[k]] on a dict. *)
Fixpoint dict_get (k : string) (d : list (string * json)) : option json :=
  match d with
  | [] => None
  | (k', v) :: d' => if decide (k' = k) then Some v else dict_get k d'
  end.

(** [d[k] = v] on a dict: an existing key keeps its position. *)
Fixpoint dict_set (k : string) (v : json) (d : list (string * json))
  : list (string * json) :=
  match d with
  | [] => [(k, v)]
  | (k', v') :: d' =>
      if decide (k' = k) then (k, v) :: d' else (k', v') :: dict_set k v d'
  end.

(** [j[k]] for a string subscript [k] on an arbitrary loaded value. *)
Definition py_getitem (j : json) (k : string) : result json :=
  match j with
  | JDict d => match dict_get k d with
               | Some v => Ok v
               | None => Raise (KeyError k)
               end
  | _ => Raise TypeError
  end.

(** [j[k] = v] for a string subscript [k] on an arbitrary loaded value. *)
Definition py_setitem (j : json) (k : string) (v : json) : result json :=
  match j with
  | JDict d => Ok (JDict (dict_set k v d))
  | _ => Raise TypeError
  end.

(** [xs[-1]['end'] = v], the in-place update of the last element of a loaded
    value: [IndexError] on an empty list or empty string, [KeyError] on a
    dict (its keys are strings, never [-1]), [TypeError] when the value or
    its last element does not support the subscript. *)
Fixpoint set_last_end (v : json) (l : list json) : result (list json) :=
  match l with
  | [] => Raise IndexError
  | [x] => match py_setitem x "end" v with
           | Ok x' => Ok [x']
           | Raise e => Raise e
           end
  | x :: l' => match set_last_end v l' with
               | Ok l'' => Ok (x :: l'')
               | Raise e => Raise e
               end
  end.

Definition py_close_last (v : json) (j : json) : result json :=
  match j with
  | JList l => match set_last_end v l with
               | Ok l' => Ok (JList l')
               | Raise e => Raise e
               end
  | JDict _ => Raise (KeyError "-1")
  | JStr "" => Raise IndexError
  | _ => Raise TypeError
  end.

(** [xs.append(x)]. *)
Definition py_append (j : json) (x : json) : result json :=
  match j with
  | JList l => Ok (JList (l ++ [x]))
  | _ => Raise AttributeError
  end.

(* ===================================================================== *)
(** * Paths: [os.path.join] and [os.path.dirname] (posixpath) *)
(* ===================================================================== *)

Definition slash : ascii := "/"%char.

Definition starts_with_slash (s : string) : bool :=
  match s with
  | String c _ => bool_decide (c = slash)
  | EmptyString => false
  end.

Fixpoint ends_with_slash (s : string) : bool :=
  match s with
  | EmptyString => false
  | String c EmptyString => bool_decide (c = slash)
  | String _ s' => ends_with_slash s'
  end.

(** [os.path.join(a, b)]: an absolute [b] discards [a]. *)
Definition os_path_join (a b : string) : string :=
  if starts_with_slash b then b
  else if bool_decide (a = "") || ends_with_slash a then a +:+ b
  else a +:+ "/" +:+ b.

Fixpoint has_slash (s : string) : bool :=
  match s with
  | EmptyString => false
  | String c s' => bool_decide (c = slash) || has_slash s'
  end.

(** [p[:p.rfind('/') + 1]] *)
Fixpoint path_head (p : string) : string :=
  match p with
  | EmptyString => EmptyString
  | String c p' =>
      if has_slash p' then String c (path_head p')
      else if bool_decide (c = slash) then String c EmptyString
      else EmptyString
  end.

(** [s.rstrip('/')] *)
Fixpoint rstrip_slash (s : string) : string :=
  match s with
  | EmptyString => EmptyString
  | String c s' =>
      match rstrip_slash s' with
      | EmptyString => if bool_decide (c = slash) then EmptyString
                       else String c EmptyString
      | r => String c r
      end
  end.

(** [os.path.dirname(p)]: a head made only of slashes is kept as it is. *)
Definition os_path_dirname (p : string) : string :=
  let head := path_head p in
  match rstrip_slash head with
  | EmptyString => head
  | r => r
  end.

(** The directories [os.makedirs(p)] has to create: every prefix of [p] that
    ends just before a separator, and [p] itself. *)
Fixpoint dir_prefixes_from (acc : string) (p : string) : list string :=
  match p with
  | EmptyString => if bool_decide (acc = "") then [] else [acc]
  | String c p' =>
      if bool_decide (c = slash) then
        (if bool_decide (acc = "") || ends_with_slash acc then []
         else [acc]) ++ dir_prefixes_from (acc +:+ String c EmptyString) p'
      else dir_prefixes_from (acc +:+ String c EmptyString) p'
  end.

Definition dir_prefixes (p : string) : list string :=
  dir_prefixes_from "" (rstrip_slash p).

(** The storage layout of [fetch_repo_data], one definition per path
    expression of the source. *)
Definition storage : string := "ephemeral_storage".

Definition status_file (uuid : string) : string :=
  os_path_join storage (uuid +:+ ".status.json").
Definition github_cache (uuid : string) : string :=
  os_path_join storage (uuid +:+ ".github.json").
Definition computed_cache (uuid : string) : string :=
  os_path_join storage (uuid +:+ "_computed.json").
Definition clone_target (uuid : string) : string :=
  os_path_join storage uuid.

(** Every path the pipeline persists state under for one key. *)
Definition persisted_paths (uuid : string) : list string :=
  [github_cache uuid; computed_cache uuid; status_file uuid;
   clone_target uuid].

(* ===================================================================== *)
(** * The world the pipeline runs in *)
(* ===================================================================== *)

(** A regular file holds text that [json.load] either parses or rejects;
    [Unparseable] is text that is not a JSON document (a corrupt or torn
    artifact). *)
Inductive content : Type :=
| Parsed (j : json)
| Unparseable (raw : string).

Inductive node : Type :=
| Dir
| File (c : content).

(** The calls made to external collaborators, with their arguments. *)
Inductive call : Type :=
| CGetRepo (token : option string) (uuid : string)
| CRawData (repo : string)
| CGetIssues (repo : string) (state : string) (since : Z)
| CGetStargazers (repo : string)
| CGitRepo (target : string)
| CFetchRemotes (target : string)
| CCloneFrom (url target : string)
| CCommits (target : string).

(** Paths are compared as strings: the model is exact for keys whose paths
    are in normal form (no [.], [..] or doubled separators).  [ticks] counts
    the readings of the clock and [trace] records the collaborator calls in
    the order they are made. *)
Record World : Type := mkWorld {
  fs : gmap string node;
  ticks : nat;
  trace : list call
}.

(** What [Github.get_repo] gives back: the handle later calls are made on. *)
Record GhRepo : Type := mkGhRepo {
  full_name : string;
  clone_url : string
}.

(** The collaborators.  Each oracle is indexed by the number of collaborator
    calls made before it, so the same request may fail once and succeed
    later; a collaborator either returns or raises with a message ([inl]).
    Times are microseconds since the epoch. *)
Record Env : Type := mkEnv {
  clock : nat -> Z;
  strftime : string -> Z -> string;
  gh_get_repo : nat -> option string -> string -> string + GhRepo;
  gh_raw_data : nat -> GhRepo -> string + json;
  gh_get_issues : nat -> GhRepo -> string -> Z -> string + list json;
  gh_get_stargazers : nat -> GhRepo -> string + list json;
  git_open : nat -> string -> string + unit;
  git_fetch_remotes : nat -> string -> string + unit;
  git_clone_from : nat -> string -> string -> string + unit;
  git_commits : nat -> string -> string + json;
  (* what lies below the working copy at a path once the call of git with
     this number, a fetch or a clone, is over, whether it returned or
     raised *)
  git_worktree : nat -> string -> gmap string node;
  (* whether the clone with this number, if it fails, leaves the target
     directory behind *)
  git_clone_remains : nat -> string -> bool
}.

(** ** The state-and-error monad *)

Definition M (S A : Type) : Type := S -> result A * S.

Definition ret {S A} (a : A) : M S A := fun s => (Ok a, s).

Definition bind {S A B} (m : M S A) (f : A -> M S B) : M S B :=
  fun s => match m s with
           | (Ok a, s') => f a s'
           | (Raise e, s') => (Raise e, s')
           end.

Definition lift {S A} (r : result A) : M S A := fun s => (r, s).

Notation "'do' x <- m ; k" := (bind m (fun x => k))
  (at level 10, x name, m at level 100, k at level 200,
   format "'[v' 'do'  x  <-  m ; '/' k ']'").
Notation "'do_' m ; k" := (bind m (fun _ => k))
  (at level 10, m at level 100, k at level 200,
   format "'[v' 'do_'  m ; '/' k ']'").

(** ** File-system primitives *)

Definition set_fs (f : gmap string node) (w : World) : World :=
  mkWorld f (ticks w) (trace w).

(** [s[len(pre):]] when [s] starts with [pre]. *)
Fixpoint path_after (pre s : string) : option string :=
  match pre, s with
  | EmptyString, _ => Some s
  | String c pre', String d s' =>
      if bool_decide (c = d) then path_after pre' s' else None
  | String _ _, EmptyString => None
  end.

(** The path [p] lies below the directory [dir]. *)
Definition inside (dir p : string) : bool :=
  match path_after (dir +:+ "/") p with
  | Some _ => true
  | None => false
  end.

(** The disk after everything below [dir] was replaced by [tree]. *)
Definition replace_below (dir : string) (tree f : gmap string node)
  : gmap string node :=
  filter (fun kv => inside dir kv.1 = false) f
  ∪ filter (fun kv => inside dir kv.1 = true) tree.

(** [os.path.exists(p)].  The string [p] is looked up as it is: this is
    the file the operating system resolves [p] to when [p] is in normal
    form. *)
Definition path_exists (p : string) : M World bool :=
  fun w => (Ok (bool_decide (is_Some (fs w !! p))), w).

(** [with open(p, 'r') as fh: json.load(fh)] *)
Definition json_load (p : string) : M World json :=
  fun w => match fs w !! p with
           | None => (Raise (FileNotFoundError p), w)
           | Some Dir => (Raise (IsADirectoryError p), w)
           | Some (File (Unparseable _)) => (Raise JSONDecodeError, w)
           | Some (File (Parsed j)) => (Ok j, w)
           end.

(** The working directory and the root always exist. *)
Definition implicit_dir (d : string) : bool :=
  bool_decide (d = "") || bool_decide (d = "/").

(** [with open(p, 'w') as fh: json.dump(j, fh)]: the file is created or
    replaced; opening fails on a directory and when the parent directory is
    missing or is a regular file.  The document is one that [json.dump]
    serialises, and the write is not cut short. *)
Definition json_dump (p : string) (j : json) : M World unit :=
  fun w => match fs w !! p with
           | Some Dir => (Raise (IsADirectoryError p), w)
           | _ =>
               match fs w !! os_path_dirname p with
               | Some Dir => (Ok tt, set_fs (<[p := File (Parsed j)]> (fs w)) w)
               | Some (File _) => (Raise (NotADirectoryError p), w)
               | None =>
                   if implicit_dir (os_path_dirname p)
                   then (Ok tt, set_fs (<[p := File (Parsed j)]> (fs w)) w)
                   else (Raise (FileNotFoundError p), w)
               end
           end.

Definition is_file (f : gmap string node) (p : string) : bool :=
  match f !! p with
  | Some (File _) => true
  | _ => false
  end.

Definition mkdirs (ps : list string) (f : gmap string node)
  : gmap string node :=
  foldr (fun p m => <[p := Dir]> m) f ps.

(** The directory [os.makedirs] cannot create: the one just below the
    first regular file on the way. *)
Fixpoint blocked_dir (f : gmap string node) (ps : list string)
  : option string :=
  match ps with
  | [] => None
  | p :: rest =>
      if is_file f p then Some (match rest with
                                | q :: _ => q
                                | [] => p
                                end)
      else blocked_dir f rest
  end.

(** [os.makedirs(d)]: creates [d] and the missing directories above it.
    It fails with [FileExistsError] when [d] exists, and when a regular
    file is on the way, with the error of the [mkdir] below that file. *)
Definition makedirs (d : string) : M World unit :=
  fun w => match fs w !! d with
           | Some _ => (Raise (FileExistsError d), w)
           | None =>
               match blocked_dir (fs w) (dir_prefixes d) with
               | Some q => (Raise (NotADirectoryError q), w)
               | None => (Ok tt, set_fs (mkdirs (dir_prefixes d) (fs w)) w)
               end
           end.

(** ** Clock and collaborators *)

(** [datetime.datetime.utcnow()] *)
Definition utcnow (env : Env) : M World Z :=
  fun w => (Ok (clock env (ticks w)),
            mkWorld (fs w) (S (ticks w)) (trace w)).

(** A call to a collaborator: recorded in the trace, answered by the
    oracle, and raising under the label of the calling stage. *)
Definition collab {A} (s : stage) (c : call) (oracle : nat -> string + A)
  : M World A :=
  fun w =>
    let w' := mkWorld (fs w) (ticks w) (trace w ++ [c]) in
    match oracle (List.length (trace w)) with
    | inl msg => (Raise (ProducerError s msg), w')
    | inr a => (Ok a, w')
    end.

(** A call to a collaborator that writes to the disk: recorded and
    answered like any other call; [leaves n f] is the disk the call with
    number [n] leaves when it started on [f], whether it returns or
    raises. *)
Definition collab_writing {A} (s : stage) (c : call)
    (oracle : nat -> string + A)
    (leaves : nat -> gmap string node -> gmap string node) : M World A :=
  fun w =>
    let n := List.length (trace w) in
    let w' := mkWorld (leaves n (fs w)) (ticks w) (trace w ++ [c]) in
    match oracle n with
    | inl msg => (Raise (ProducerError s msg), w')
    | inr a => (Ok a, w')
    end.

(** The working copy at [target] after a call of git: the directory with
    what git left below it. *)
Definition worktree_at (env : Env) (n : nat) (target : string)
    (f : gmap string node) : gmap string node :=
  replace_below target (git_worktree env n target) f.

(** [for remote in repo.remotes: remote.fetch()] on the clone at [target]:
    the fetches rewrite files below [target], also when one of them
    raises. *)
Definition fetch_remotes (env : Env) (target : string) : M World unit :=
  collab_writing LocalMirror (CFetchRemotes target)
    (fun n => git_fetch_remotes env n target)
    (fun n f => worktree_at env n target f).

(** [git.Repo.clone_from(url, target)]: a successful clone leaves the
    working copy at [target].  Nothing in the source cleans up after a
    clone that fails: whether the directory stays behind is up to git. *)
Definition clone_from (env : Env) (url target : string) : M World unit :=
  collab_writing LocalMirror (CCloneFrom url target)
    (fun n => git_clone_from env n url target)
    (fun n f =>
       match git_clone_from env n url target with
       | inl _ =>
           if git_clone_remains env n target
           then worktree_at env n target (<[target := Dir]> f)
           else f
       | inr _ => worktree_at env n target (<[target := Dir]> f)
       end).

Definition microseconds_per_day : Z := 86400 * 1000000.

(** [datetime.timedelta(days=n)] *)
Definition timedelta_days (n : Z) : Z := n * microseconds_per_day.

(* ===================================================================== *)
(** * The pipeline: [fetch_repo_data] and its status log *)
(* ===================================================================== *)

(** The format of the timestamps of the status log. *)
Definition iso_format : string := "%Y-%m-%dT%H:%M:%SZ".

(** [dict(start=..., status=message)] *)
Definition status_entry (start message : string) : json :=
  JDict [("start", JStr start); ("status", JStr message)].

(** [update_status(message=None, clear=False)], nested in
    [fetch_repo_data] and closed over [uuid]. *)
Definition update_status (env : Env) (uuid : string)
    (message : option string) (clear : bool) : M World unit :=
  do ex <- path_exists (status_file uuid);
  do existing_status <-
    (if negb ex || clear then ret (JList [])
     else
       do loaded <- json_load (status_file uuid);
       (* Log the last status item as complete. *)
       do now <- utcnow env;
       lift (py_close_last (JStr (strftime env iso_format now)) loaded));
  do existing_status <-
    match message with
    | Some m =>
        do now <- utcnow env;
        lift (py_append existing_status (status_entry (strftime env iso_format now) m))
    | None => ret existing_status
    end;
  json_dump (status_file uuid) existing_status.

(** One element of the stargazer comprehension:
    [{'starred_at': s.raw_data['starred_at'],
      'login': s.raw_data['user']['login']}] *)
Definition stargazer_entry (raw : json) : result json :=
  match py_getitem raw "starred_at" with
  | Raise e => Raise e
  | Ok starred_at =>
      match py_getitem raw "user" with
      | Raise e => Raise e
      | Ok user =>
          match py_getitem user "login" with
          | Raise e => Raise e
          | Ok login =>
              Ok (JDict [("starred_at", starred_at); ("login", login)])
          end
      end
  end.

Fixpoint map_result {A B} (f : A -> result B) (l : list A)
  : result (list B) :=
  match l with
  | [] => Ok []
  | x :: l' =>
      match f x with
      | Raise e => Raise e
      | Ok y => match map_result f l' with
                | Raise e => Raise e
                | Ok ys => Ok (y :: ys)
                end
      end
  end.

(** [limit = 5] *)
Definition limit : nat := 5.

(** The [else] branch of the first cache test: the three remote fetches and
    the write of the [.github.json] artifact. *)
Definition produce_report (env : Env) (uuid : string) (repo : GhRepo)
  : M World json :=
  let report := [] in
  do_ update_status env uuid (Some "Fetching GitHub API data") false;
  do raw_data <- collab FetchMetadata (CRawData (full_name repo))
                   (fun n => gh_raw_data env n repo);
  let report := dict_set "repo" raw_data report in
  do_ update_status env uuid (Some "Fetching GitHub issues data") false;
  do now <- utcnow env;
  let since := now - timedelta_days 30 in
  do issues <- collab FetchIssues (CGetIssues (full_name repo) "all" since)
                 (fun n => gh_get_issues env n repo "all" since);
  let issues_raw := take limit issues in
  let report := dict_set "issues" (JList issues_raw) report in
  do_ update_status env uuid (Some "Fetching GitHub stargazer data") false;
  do stargazers <- collab FetchStargazers (CGetStargazers (full_name repo))
                     (fun n => gh_get_stargazers env n repo);
  do stargazer_data <- lift (map_result stargazer_entry stargazers);
  let report := dict_set "stargazers" (JList stargazer_data) report in
  do_ json_dump (github_cache uuid) (JDict report);
  ret (JDict report).

(** The [if os.path.exists(target)] statement: fetch the remotes of a
    cached clone, or clone. *)
Definition obtain_mirror (env : Env) (uuid : string) (repo : GhRepo)
    (mirror : bool) : M World unit :=
  let target := clone_target uuid in
  if mirror then
    do_ update_status env uuid
          (Some "Fetching remotes from cached clone") false;
    do_ collab LocalMirror (CGitRepo target)
          (fun n => git_open env n target);
    fetch_remotes env target
  else
    do_ update_status env uuid (Some "Cloning repo") false;
    clone_from env (clone_url repo) target.

(** The branch taken when the [_computed.json] artifact is missing: obtain
    or update the local mirror, analyse it, write the artifact. *)
Definition produce_repo_data (env : Env) (uuid : string) (repo : GhRepo)
  : M World json :=
  let target := clone_target uuid in
  do mirror <- path_exists target;
  do_ obtain_mirror env uuid repo mirror;
  do_ update_status env uuid (Some "Analysing commits") false;
  do repo_data <- collab DerivedAnalysis (CCommits target)
                    (fun n => git_commits env n target);
  do_ json_dump (computed_cache uuid) repo_data;
  ret repo_data.

(** [fetch_repo_data(uuid, token)] *)
Definition fetch_repo_data (env : Env) (uuid : string)
    (token : option string) : M World json :=
  let cache := github_cache uuid in
  let dirname := os_path_dirname cache in
  (* Ensure the storage location exists. *)
  do dir_exists <- path_exists dirname;
  do_ (if negb dir_exists then makedirs dirname else ret tt);
  do_ update_status env uuid (Some "Initial validation of repo") true;
  do repo <- collab ResolveIdentity (CGetRepo token uuid)
               (fun n => gh_get_repo env n token uuid);
  do cached <- path_exists cache;
  do report <-
    (if cached then
       do_ update_status env uuid
             (Some "Load GitHub API data from ephemeral cache") false;
       json_load cache
     else produce_report env uuid repo);
  let cache := computed_cache uuid in
  do cached <- path_exists cache;
  do repo_data <-
    (if negb cached then produce_repo_data env uuid repo
     else
       do_ update_status env uuid
             (Some "Load commit from ephemeral cache") false;
       json_load cache);
  (* Round off the status so that the last task has an end time. *)
  do_ update_status env uuid None false;
  do repo_data <- lift (py_setitem repo_data "github" report);
  ret repo_data.

(* ===================================================================== *)
(** * The request side: job registry, worker pool and API handlers *)
(* ===================================================================== *)

(** [pretty_timedelta(datetime, from_date)].  [diff.days] and
    [diff.seconds] are the normalised fields of a [timedelta]: the day
    count rounds towards minus infinity and the seconds lie in
    [0 .. 86399]. *)
Definition timedelta_days_field (diff : Z) : Z :=
  diff / microseconds_per_day.
Definition timedelta_seconds_field (diff : Z) : Z :=
  (diff mod microseconds_per_day) / 1000000.

Definition format_int (z : Z) : string := NilZero.string_of_int (Z.to_int z).

Definition pretty_timedelta (env : Env) (datetime from_date : Z) : string :=
  let diff := from_date - datetime in
  let days := timedelta_days_field diff in
  let s := timedelta_seconds_field diff in
  if bool_decide (days > 7) || bool_decide (days < 0) then
    strftime env "%d %b %y" datetime
  else if bool_decide (days = 1) then "1 day ago"
  else if bool_decide (days > 1) then format_int days +:+ " days ago"
  else if bool_decide (s <= 1) then "just now"
  else if bool_decide (s < 120) then format_int s +:+ " seconds ago"
  else if bool_decide (s < 3600) then format_int (s / 60) +:+ " minutes ago"
  else if bool_decide (s < 7200) then "1 hour ago"
  else format_int (s / 3600) +:+ " hours ago".

(** A future of the process pool, as the handlers see it: the arguments of
    the submitted call, the [_start_time] attribute the handler attaches,
    and the outcome once the worker has finished ([None] while it runs). *)
Record Future : Type := mkFuture {
  fut_uuid : string;
  fut_token : option string;
  start_time : Z;
  outcome : option (result json)
}.

(** [future.done()] *)
Definition done (f : Future) : bool :=
  match outcome f with
  | Some _ => true
  | None => false
  end.

(** The response under construction for the current request:
    [set_status], [set_header] and [finish] act on it.  [body] is the
    document handed to [finish] before encoding, [None] as long as nothing
    was written. *)
Record Response : Type := mkResponse {
  status_code : Z;
  headers : list (string * string);
  body : option json
}.

Definition fresh_response : Response := mkResponse 200 [] None.

(** The application: the world shared with the workers, the [datastore]
    dictionary of the settings, the calls [executor.submit] has received,
    and the response of the request being handled. *)
Record App : Type := mkApp {
  world : World;
  datastore : gmap string Future;
  submissions : list (string * option string);
  response : Response
}.

Definition liftW {A} (m : M World A) : M App A :=
  fun a => let '(r, w) := m (world a) in
           (r, mkApp w (datastore a) (submissions a) (response a)).

Definition set_response (r : Response) : M App unit :=
  fun a => (Ok tt, mkApp (world a) (datastore a) (submissions a) r).

Definition get_response : M App Response :=
  fun a => (Ok (response a), a).

(** [self.set_status(code)] *)
Definition set_status (code : Z) : M App unit :=
  do r <- get_response;
  set_response (mkResponse code (headers r) (body r)).

(** [self.set_header(name, value)] *)
Definition set_header (name value : string) : M App unit :=
  do r <- get_response;
  set_response (mkResponse (status_code r) ((name, value) :: headers r)
                  (body r)).

(** [self.finish(json_encode(doc))] *)
Definition finish (doc : json) : M App unit :=
  do r <- get_response;
  set_response (mkResponse (status_code r) (headers r) (Some doc)).

(** [executor.submit(fetch_repo_data, uuid, token)] followed by
    [future._start_time = utcnow()] and [datastore[uuid] = future]. *)
Definition submit_job (env : Env) (uuid : string) (token : option string)
  : M App unit :=
  do_ (fun a => (Ok tt, mkApp (world a) (datastore a)
                          (submissions a ++ [(uuid, token)]) (response a)));
  do now <- liftW (utcnow env);
  fun a => (Ok tt, mkApp (world a)
                     (<[uuid := mkFuture uuid token now None]> (datastore a))
                     (submissions a) (response a)).

(** The status payload [{'status': ..., 'message': ..., 'status_info': ...}]
    returned by [availablitiy]. *)
Record Availability : Type := mkAvailability {
  av_status : Z;
  av_message : string;
  av_status_info : json
}.

Definition encode_availability (r : Availability) : json :=
  JDict [("status", JNum (av_status r)); ("message", JStr (av_message r));
         ("status_info", av_status_info r)].

(** [APIDataAvailableHandler.availablitiy(self, uuid, token)]; the block
    under [if False:] never runs. *)
Definition availablitiy (env : Env) (uuid : string) (token : option string)
  : M App Availability :=
  do known <- (fun a => (Ok (datastore a !! uuid), a));
  match known with
  | None =>
      do_ submit_job env uuid token;
      (* The status code should be set to "Submitted, and processing" *)
      do_ set_status 202;
      ret (mkAvailability 202 "Job submitted and is processing." (JList []))
  | Some future =>
      do logged <- liftW (path_exists (status_file uuid));
      do status <- (if negb logged then ret (JDict [])
                    else liftW (json_load (status_file uuid)));
      if done future then ret (mkAvailability 200 "ready" status)
      else
        do now <- liftW (utcnow env);
        ret (mkAvailability 202
               ("Job is still running and started "
                  +:+ pretty_timedelta env (start_time future) now +:+ ".")
               status)
  end.

(** [APIDataAvailableHandler.post(self, uuid)] with the [token] argument
    of the request. *)
Definition APIDataAvailableHandler_post (env : Env) (uuid : string)
    (token : option string) : M App unit :=
  do_ set_header "Content-Type" "application/json";
  do response <- availablitiy env uuid token;
  do_ set_status (av_status response);
  finish (encode_availability response).

(** What the [except Exception as err] branch of [resp] builds from the
    error of the job: [str(err)] and [traceback.format_exc()] are taken
    from the interpreter. *)
Record Interp : Type := mkInterp {
  py_str : exn -> string;
  format_exc : exn -> string
}.

Definition error_response (py : Interp) (err : exn) : json :=
  JDict [("status", JNum 500); ("message", JStr (py_str py err));
         ("traceback", JStr (format_exc py err))].

(** [APIDataHandler.resp(self, uuid, token)].  The value is what the
    method returns: [None] on the paths that end in [self.finish], the
    error dictionary on the [except] path. *)
Definition resp (env : Env) (py : Interp) (uuid : string)
    (token : option string) : M App (option json) :=
  do_ set_header "Content-Type" "application/json";
  do response <- availablitiy env uuid token;
  if negb (bool_decide (av_status response = 200)) then
    do_ set_status (av_status response);
    do_ finish (encode_availability response);
    ret None
  else
    do future <- (fun a => (Ok (datastore a !! uuid), a));
    (* Just because we have the result, doesn't mean it wasn't an
       exception... *)
    match future ≫= outcome with
    | Some (Ok content) =>
        do_ finish (JDict [("status", JNum 200); ("content", content)]);
        ret None
    | Some (Raise err) => ret (Some (error_response py err))
    | None => ret None   (* not reached: 200 is only answered for a
                            finished future, see [resp_finished_future] *)
    end.

(** [APIDataHandler.post(self, uuid)]: the value of [resp] is dropped. *)
Definition APIDataHandler_post (env : Env) (py : Interp) (uuid : string)
    (token : option string) : M App unit :=
  do_ resp env py uuid token;
  ret tt.

(** [APIDataHandler.get(self, uuid)] for a logged-in user. *)
Definition APIDataHandler_get (env : Env) (py : Interp) (uuid : string)
    (access_token : string) : M App unit :=
  do_ resp env py uuid (Some access_token);
  ret tt.

(** A worker of the pool finishes the job stored for [uuid]: it runs
    [fetch_repo_data] on the submitted arguments and the future keeps the
    value or the exception. *)
Definition worker_run (env : Env) (uuid : string) (a : App) : App :=
  match datastore a !! uuid with
  | Some f =>
      if done f then a
      else
        let '(r, w) := fetch_repo_data env (fut_uuid f) (fut_token f)
                         (world a) in
        mkApp w
          (<[uuid := mkFuture (fut_uuid f) (fut_token f) (start_time f)
                       (Some r)]> (datastore a))
          (submissions a) (response a)
  | None => a
  end.

(** What happens to the application over its lifetime: requests to the two
    API endpoints, each starting from a fresh response, and workers
    finishing jobs. *)
Inductive event : Type :=
| RequestAvailable (uuid : string) (token : option string)
| RequestData (uuid : string) (token : option string)
| WorkerFinishes (uuid : string).

Definition new_request (a : App) : App :=
  mkApp (world a) (datastore a) (submissions a) fresh_response.

(** What the server sends when a handler raises: tornado catches the
    exception, drops the response built so far and answers with status 500;
    the application being started with [debug=True], the body is the
    traceback as plain text (held as a [JStr]). *)
Definition server_error (py : Interp) (e : exn) : Response :=
  mkResponse 500 [("Content-Type", "text/plain")]
    (Some (JStr (format_exc py e))).

(** One request: the handler runs on a fresh response; what it did to the
    registry and the disk before it raised stays. *)
Definition serve (py : Interp) (handler : M App unit) (a : App) : App :=
  match handler (new_request a) with
  | (Ok _, a') => a'
  | (Raise e, a') =>
      mkApp (world a') (datastore a') (submissions a') (server_error py e)
  end.

Definition step (env : Env) (py : Interp) (a : App) (ev : event) : App :=
  match ev with
  | RequestAvailable uuid token =>
      serve py (APIDataAvailableHandler_post env uuid token) a
  | RequestData uuid token =>
      serve py (APIDataHandler_post env py uuid token) a
  | WorkerFinishes uuid => worker_run env uuid a
  end.

Definition run (env : Env) (py : Interp) (a : App) (evs : list event) : App :=
  fold_left (step env py) evs a.

(** The application as [__main__] starts it: [datastore = {}], a fresh
    pool. *)
Definition initial_app (w : World) : App := mkApp w ∅ [] fresh_response.

(* ===================================================================== *)
(** * A concrete environment for worked examples *)
(* ===================================================================== *)

Module Demo.

Definition widgets : GhRepo :=
  mkGhRepo "acme/widgets" "https://github.com/acme/widgets.git".

Definition issue (n : Z) : json := JDict [("number", JNum n)].

Definition stargazer (login at_ : string) : json :=
  JDict [("starred_at", JStr at_);
         ("user", JDict [("login", JStr login)])].

(** Every collaborator answers; the repository has seven recent issues
    and two stargazers; the clock advances one second per reading. *)
Definition env : Env := {|
  clock := fun n => (1000 + Z.of_nat n) * 1000000;
  strftime := fun fmt t =>
    fmt +:+ "@" +:+ NilZero.string_of_int (Z.to_int (t / 1000000));
  gh_get_repo := fun _ _ _ => inr widgets;
  gh_raw_data := fun _ _ => inr (JDict [("id", JNum 7)]);
  gh_get_issues := fun _ _ _ _ =>
    inr [issue 1; issue 2; issue 3; issue 4; issue 5; issue 6; issue 7];
  gh_get_stargazers := fun _ _ =>
    inr [stargazer "ann" "2017-01-01"; stargazer "bob" "2017-01-02"];
  git_open := fun _ _ => inr tt;
  git_fetch_remotes := fun _ _ => inr tt;
  git_clone_from := fun _ _ _ => inr tt;
  git_commits := fun _ _ => inr (JDict [("commits", JNum 42)]);
  git_worktree := fun _ target => {[ target +:+ "/.git" := Dir ]};
  git_clone_remains := fun _ _ => false
|}.

(** The same collaborators, except that GitHub does not know the
    repository. *)
Definition env_not_found : Env := {|
  clock := clock env;
  strftime := strftime env;
  gh_get_repo := fun _ _ _ => inl "404 Not Found";
  gh_raw_data := gh_raw_data env;
  gh_get_issues := gh_get_issues env;
  gh_get_stargazers := gh_get_stargazers env;
  git_open := git_open env;
  git_fetch_remotes := git_fetch_remotes env;
  git_clone_from := git_clone_from env;
  git_commits := git_commits env;
  git_worktree := git_worktree env;
  git_clone_remains := git_clone_remains env
|}.

(** The same collaborators, except that the analysis of the commits
    breaks. *)
Definition env_analysis_fails : Env := {|
  clock := clock env;
  strftime := strftime env;
  gh_get_repo := gh_get_repo env;
  gh_raw_data := gh_raw_data env;
  gh_get_issues := gh_get_issues env;
  gh_get_stargazers := gh_get_stargazers env;
  git_open := git_open env;
  git_fetch_remotes := git_fetch_remotes env;
  git_clone_from := git_clone_from env;
  git_commits := fun _ _ => inl "no commits";
  git_worktree := git_worktree env;
  git_clone_remains := git_clone_remains env
|}.

Definition py : Interp := {|
  py_str := fun e => match e with
                     | ProducerError _ msg => msg
                     | _ => "error"
                     end;
  format_exc := fun e => "Traceback (most recent call last): ..."
|}.

Definition empty_world : World := mkWorld ∅ 0 [].

(** The world a first complete run for "acme/widgets" leaves behind. *)
Definition cached_world : World :=
  (fetch_repo_data env "acme/widgets" (Some "token") empty_world).2.

(** A world in which the [.github.json] artifact of "acme/widgets" was
    damaged. *)
Definition corrupt_world : World :=
  mkWorld (<[github_cache "acme/widgets" := File (Unparseable "{")]>
             (fs cached_world)) 0 [].

(** The storage directory of the owner exists, nothing else does. *)
Definition storage_world : World :=
  mkWorld (mkdirs (dir_prefixes "ephemeral_storage/acme") ∅) 0 [].

End Demo.
(* ===================================================================== *)
(** * Vocabulary of the properties *)
(* ===================================================================== *)

(** ** The status log *)

(** The log persisted for a key, when the status file holds a JSON list. *)
Definition status_log (uuid : string) (w : World) : option (list json) :=
  match fs w !! status_file uuid with
  | Some (File (Parsed (JList l))) => Some l
  | _ => None
  end.

(** An entry is closed once it carries an ['end'] timestamp. *)
Definition has_end (e : json) : bool :=
  match e with
  | JDict d => bool_decide (is_Some (dict_get "end" d))
  | _ => false
  end.

(** Only the last entry may be open ... *)
Definition log_invariant (l : list json) : Prop :=
  forall i e, l !! i = Some e -> has_end e = false -> S i = length l.

(** ... hence at most one entry is. *)
Definition open_entries (l : list json) : list json :=
  List.filter (fun e => negb (has_end e)) l.

(** The status file is absent or holds a log that satisfies the
    invariant. *)
Definition status_log_ok (uuid : string) (w : World) : Prop :=
  match fs w !! status_file uuid with
  | None => True
  | Some n => exists l, n = File (Parsed (JList l)) /\ log_invariant l
  end.

(** The message of a log entry. *)
Definition entry_message (e : json) : option string :=
  match e with
  | JDict d => match dict_get "status" d with
               | Some (JStr m) => Some m
               | _ => None
               end
  | _ => None
  end.

(** [logged uuid w ms]: the status log of the key holds exactly one entry
    per message of [ms], in this order. *)
Definition logged (uuid : string) (w : World) (ms : list string) : Prop :=
  exists l, status_log uuid w = Some l /\
            Forall2 (fun e m => entry_message e = Some m) l ms.

(** ** Errors *)

(** The errors of [open]. *)
Definition os_error (e : exn) : Prop :=
  match e with
  | FileNotFoundError _ | IsADirectoryError _ | NotADirectoryError _ => True
  | _ => False
  end.

(** ** The pipeline *)

Definition hit (w : World) (p : string) : bool :=
  bool_decide (is_Some (fs w !! p)).

(** The stages a run logs, given which artifacts it finds on disk: up to
    the report, and from there on. *)
Definition report_log (hit_github : bool) : list string :=
  ["Initial validation of repo"]
  ++ (if hit_github then ["Load GitHub API data from ephemeral cache"]
      else ["Fetching GitHub API data"; "Fetching GitHub issues data";
            "Fetching GitHub stargazer data"]).

Definition repo_data_log (hit_computed mirror : bool) : list string :=
  if hit_computed then ["Load commit from ephemeral cache"]
  else [if mirror then "Fetching remotes from cached clone"
        else "Cloning repo";
        "Analysing commits"].

Definition expected_log (hit_github hit_computed mirror : bool)
  : list string :=
  report_log hit_github ++ repo_data_log hit_computed mirror.

Definition report_calls (repo : GhRepo) (since : Z) : list call :=
  [CRawData (full_name repo); CGetIssues (full_name repo) "all" since;
   CGetStargazers (full_name repo)].

Definition mirror_calls (uuid : string) (repo : GhRepo) (mirror : bool)
  : list call :=
  (if mirror then [CGitRepo (clone_target uuid);
                   CFetchRemotes (clone_target uuid)]
   else [CCloneFrom (clone_url repo) (clone_target uuid)])
  ++ [CCommits (clone_target uuid)].

(** The collaborator calls a run makes, given which artifacts it finds. *)
Definition expected_calls (uuid : string) (token : option string)
    (repo : GhRepo) (since : Z) (hit_github hit_computed mirror : bool)
  : list call :=
  [CGetRepo token uuid]
  ++ (if hit_github then [] else report_calls repo since)
  ++ (if hit_computed then [] else mirror_calls uuid repo mirror).

(** The stage a collaborator call belongs to. *)
Definition stage_of_call (c : call) : stage :=
  match c with
  | CGetRepo _ _ => ResolveIdentity
  | CRawData _ => FetchMetadata
  | CGetIssues _ _ _ => FetchIssues
  | CGetStargazers _ => FetchStargazers
  | CGitRepo _ | CFetchRemotes _ | CCloneFrom _ _ => LocalMirror
  | CCommits _ => DerivedAnalysis
  end.

(** The artifact written by [produce_report]: the three sections, with at
    most [limit] issues. *)
Definition report_sections (report : json) : Prop :=
  exists raw issues stargazers,
    report = JDict [("repo", raw); ("issues", JList issues);
                    ("stargazers", JList stargazers)]
    /\ (length issues <= limit)%nat.

(** The report [produce_report] builds from what the collaborators
    answered: the raw metadata, the raw data of the first [limit] issues
    and one entry per stargazer. *)
Definition report_produced (env : Env) (repo : GhRepo) (report : json)
  : Prop :=
  exists raw issues stargazers entries n1 n2 n3 since,
    gh_raw_data env n1 repo = inr raw /\
    gh_get_issues env n2 repo "all" since = inr issues /\
    gh_get_stargazers env n3 repo = inr stargazers /\
    map_result stargazer_entry stargazers = Ok entries /\
    report = JDict [("repo", raw); ("issues", JList (take limit issues));
                    ("stargazers", JList entries)].


(** ** The storage layout a per-key root would give *)

(** [under root p]: the path [p] lies inside the directory [root]. *)
Definition under (root p : string) : Prop :=
  exists rest, p = root +:+ "/" +:+ rest.

(** Every key has a storage root that contains all its persisted paths,
    and the roots of two keys are neither equal nor nested. *)
Definition per_key_roots (root : string -> string) : Prop :=
  (forall k p, p ∈ persisted_paths k -> under (root k) p) /\
  (forall k1 k2, k1 <> k2 ->
     root k1 <> root k2 /\ ~ under (root k1) (root k2)).

(** [p.split('/')] *)
Fixpoint path_components_from (acc : string) (p : string) : list string :=
  match p with
  | EmptyString => [acc]
  | String c p' =>
      if bool_decide (c = slash) then acc :: path_components_from "" p'
      else path_components_from (acc +:+ String c EmptyString) p'
  end.

Definition path_components (p : string) : list string :=
  path_components_from "" p.

(** ** Paths in normal form *)

(** A component that names an entry of a directory: not empty, not [.],
    not [..], and free of the NUL character. *)
Fixpoint has_nul (s : string) : bool :=
  match s with
  | EmptyString => false
  | String c s' => bool_decide (c = "000"%char) || has_nul s'
  end.

Definition plain_component (c : string) : bool :=
  negb (bool_decide (c = "")) && negb (bool_decide (c = "."))
  && negb (bool_decide (c = "..")) && negb (has_nul c).

(** A relative path in normal form: plain components, one separator
    between two of them, none at either end.  On such paths, and on a disk
    without symbolic links, different strings name different files. *)
Definition normal_path (p : string) : bool :=
  forallb plain_component (path_components p).

(** ** The phases of a run

    A run of [fetch_repo_data] goes through four phases: the start (storage
    directory, fresh status log, [get_repo]), the report (loaded or
    fetched), the repository data (loaded, or mirrored and analysed) and the
    end (closing the log, merging).  For each phase, what holds of the world
    when the phase returns and when it raises. *)

Section Phases.

Context (env : Env) (uuid : string) (token : option string).

Definition start_ok (w wA : World) (repo : GhRepo) : Prop :=
  fs wA !! github_cache uuid = fs w !! github_cache uuid /\
  fs wA !! computed_cache uuid = fs w !! computed_cache uuid /\
  fs wA !! clone_target uuid = fs w !! clone_target uuid /\
  trace wA = (trace w ++ [CGetRepo token uuid])%list /\
  ticks wA = S (ticks w) /\
  logged uuid wA ["Initial validation of repo"] /\
  gh_get_repo env (length (trace w)) token uuid = inr repo.

Definition start_fails (w w' : World) (e : exn) : Prop :=
  fs w' !! github_cache uuid = fs w !! github_cache uuid /\
  fs w' !! computed_cache uuid = fs w !! computed_cache uuid /\
  fs w' !! clone_target uuid = fs w !! clone_target uuid /\
  ((trace w' = trace w /\ os_error e) \/
   (trace w' = (trace w ++ [CGetRepo token uuid])%list /\
    exists msg, e = ProducerError ResolveIdentity msg /\
                gh_get_repo env (length (trace w)) token uuid = inl msg)).

(** The time the issues query is made relative to: the sixth reading of
    the clock of a run that fetches the report. *)
Definition issues_since (ticks_at_start : nat) : Z :=
  clock env (ticks_at_start + 5) - timedelta_days 30.

Definition report_ok (w wA wB : World) (repo : GhRepo) (report : json)
  : Prop :=
  fs wB !! computed_cache uuid = fs wA !! computed_cache uuid /\
  fs wB !! clone_target uuid = fs wA !! clone_target uuid /\
  fs wB !! github_cache uuid = Some (File (Parsed report)) /\
  logged uuid wB (report_log (hit wA (github_cache uuid))) /\
  if hit wA (github_cache uuid)
  then fs wA !! github_cache uuid = Some (File (Parsed report)) /\
       trace wB = trace wA
  else report_sections report /\
       report_produced env repo report /\
       trace wB = (trace wA ++ report_calls repo (issues_since (ticks w)))%list.

Definition report_fails (w wA w' : World) (repo : GhRepo) (e : exn) : Prop :=
  fs w' !! computed_cache uuid = fs wA !! computed_cache uuid /\
  fs w' !! clone_target uuid = fs wA !! clone_target uuid /\
  fs w' !! github_cache uuid = fs wA !! github_cache uuid /\
  (exists calls,
     trace w' = (trace wA ++ calls)%list /\
     calls `prefix_of`
       (if hit wA (github_cache uuid) then []
        else report_calls repo (issues_since (ticks w)))) /\
  (hit wA (github_cache uuid) = true -> e = JSONDecodeError \/ os_error e) /\
  match e with
  | ProducerError s _ =>
      hit wA (github_cache uuid) = false /\
      s ∈ [FetchMetadata; FetchIssues; FetchStargazers]
  | JSONDecodeError =>
      exists raw,
        fs wA !! github_cache uuid = Some (File (Unparseable raw))
  | _ => True
  end.

Definition repo_data_ok (wB wC : World) (repo : GhRepo) (ms : list string)
    (repo_data : json) : Prop :=
  fs wC !! github_cache uuid = fs wB !! github_cache uuid /\
  fs wC !! computed_cache uuid = Some (File (Parsed repo_data)) /\
  logged uuid wC
    (ms ++ repo_data_log (hit wB (computed_cache uuid))
             (hit wB (clone_target uuid)))%list /\
  if hit wB (computed_cache uuid)
  then fs wB !! computed_cache uuid = Some (File (Parsed repo_data)) /\
       fs wC !! clone_target uuid = fs wB !! clone_target uuid /\
       trace wC = trace wB
  else fs wC !! clone_target uuid
       = (if hit wB (clone_target uuid) then fs wB !! clone_target uuid
          else Some Dir) /\
       trace wC = (trace wB
                   ++ mirror_calls uuid repo (hit wB (clone_target uuid)))%list /\
       exists n, git_commits env n (clone_target uuid) = inr repo_data.

Definition repo_data_fails (wB w' : World) (repo : GhRepo) (e : exn) : Prop :=
  fs w' !! github_cache uuid = fs wB !! github_cache uuid /\
  fs w' !! computed_cache uuid = fs wB !! computed_cache uuid /\
  (exists calls,
     trace w' = (trace wB ++ calls)%list /\
     calls `prefix_of`
       (if hit wB (computed_cache uuid) then []
        else mirror_calls uuid repo (hit wB (clone_target uuid)))) /\
  (hit wB (computed_cache uuid) = true ->
   e = JSONDecodeError \/ os_error e) /\
  match e with
  | ProducerError s _ =>
      hit wB (computed_cache uuid) = false /\
      ((s = LocalMirror /\
        (fs w' !! clone_target uuid = fs wB !! clone_target uuid \/
         (fs wB !! clone_target uuid = None /\
          fs w' !! clone_target uuid = Some Dir))) \/
       (s = DerivedAnalysis /\
        fs w' !! clone_target uuid
        = if hit wB (clone_target uuid) then fs wB !! clone_target uuid
          else Some Dir))
  | JSONDecodeError =>
      exists raw,
        fs wB !! computed_cache uuid = Some (File (Unparseable raw))
  | _ => True
  end.

Definition finish_ok (wC w' : World) (ms : list string)
    (report repo_data payload : json) : Prop :=
  fs w' !! github_cache uuid = fs wC !! github_cache uuid /\
  fs w' !! computed_cache uuid = fs wC !! computed_cache uuid /\
  fs w' !! clone_target uuid = fs wC !! clone_target uuid /\
  trace w' = trace wC /\
  logged uuid w' ms /\
  py_setitem repo_data "github" report = Ok payload.

Definition finish_fails (wC w' : World) (e : exn) : Prop :=
  fs w' !! github_cache uuid = fs wC !! github_cache uuid /\
  fs w' !! computed_cache uuid = fs wC !! computed_cache uuid /\
  fs w' !! clone_target uuid = fs wC !! clone_target uuid /\
  trace w' = trace wC /\
  (os_error e \/ e = TypeError).

(** The course of a run, phase by phase. *)
Definition run_course (w : World) (r : result json) (w' : World) : Prop :=
  (exists e, r = Raise e /\ start_fails w w' e) \/
  exists repo wA, start_ok w wA repo /\
  ((exists e, r = Raise e /\ report_fails w wA w' repo e) \/
   exists report wB, report_ok w wA wB repo report /\
   let ms := report_log (hit wA (github_cache uuid)) in
   ((exists e, r = Raise e /\ repo_data_fails wB w' repo e) \/
    exists repo_data wC, repo_data_ok wB wC repo ms repo_data /\
    let ms' := expected_log (hit wA (github_cache uuid))
                 (hit wB (computed_cache uuid))
                 (hit wB (clone_target uuid)) in
    ((exists e, r = Raise e /\ finish_fails wC w' e) \/
     exists payload, r = Ok payload /\
                     finish_ok wC w' ms' report repo_data payload))).

End Phases.

(** ** The job registry *)

(** How many times [executor.submit] was called for a key. *)
Definition dispatched (uuid : string) (a : App) : nat :=
  length (List.filter (fun s => bool_decide (s.1 = uuid)) (submissions a)).

(** One dispatch for every key of the datastore, none for the others. *)
Definition registry_ok (a : App) : Prop :=
  forall k, dispatched k a = match datastore a !! k with
                             | Some _ => 1%nat
                             | None => 0%nat
                             end.

(** [preserves I m]: running [m] keeps the invariant [I], whether [m]
    returns or raises. *)
Definition preserves {S A} (I : S -> Prop) (m : M S A) : Prop :=
  forall s r s', m s = (r, s') -> I s -> I s'.

(** ** Readings of the claims that the code does not meet *)

(** A status query for a key the registry does not know leaves the
    registry and the worker pool as they were. *)
Definition status_query_is_pure_read (env : Env) : Prop :=
  forall uuid token a r a',
    datastore a !! uuid = None ->
    availablitiy env uuid token a = (r, a') ->
    datastore a' = datastore a /\ submissions a' = submissions a.



(** An unparseable [.github.json] artifact is produced again, and the run
    does not end in the parse error. *)
Definition corrupt_artifact_is_reproduced (env : Env) : Prop :=
  forall uuid token w raw r w',
    fs w !! github_cache uuid = Some (File (Unparseable raw)) ->
    fetch_repo_data env uuid token w = (r, w') ->
    r <> Raise JSONDecodeError /\
    exists j, fs w' !! github_cache uuid = Some (File (Parsed j)).

(* ===================================================================== *)
(** * Vocabulary of further properties *)
(* ===================================================================== *)

(** ** Triples for the state-and-error monad

    [hoare P m Q E]: from a state that satisfies [P], the computation [m]
    either returns a value [a] in a state that satisfies [Q a], or raises
    an exception [e] in a state that satisfies [E e]. *)
Definition hoare {S A} (P : S -> Prop) (m : M S A) (Q : A -> S -> Prop)
    (E : exn -> S -> Prop) : Prop :=
  forall s, P s ->
    match m s with
    | (Ok a, s') => Q a s'
    | (Raise e, s') => E e s'
    end.

(** ** The shape of the status log *)

(** Every entry of the log has an end timestamp. *)
Definition all_closed (uuid : string) (w : World) : Prop :=
  exists l, status_log uuid w = Some l /\
            Forall (fun e => has_end e = true) l.

(** The last entry of the log is open and carries the message [m]; all
    entries before it are closed. *)
Definition open_at (uuid : string) (m : string) (w : World) : Prop :=
  exists l d,
    status_log uuid w = Some (l ++ [JDict d])%list /\
    Forall (fun e => has_end e = true) l /\
    dict_get "end" d = None /\
    dict_get "status" d = Some (JStr m).

Definition open_log (uuid : string) (w : World) : Prop :=
  exists m, open_at uuid m w.

(** The messages [fetch_repo_data] logs before it calls the producers of a
    stage. *)
Definition stage_messages (s : stage) : list string :=
  match s with
  | ResolveIdentity => ["Initial validation of repo"]
  | FetchMetadata => ["Fetching GitHub API data"]
  | FetchIssues => ["Fetching GitHub issues data"]
  | FetchStargazers => ["Fetching GitHub stargazer data"]
  | LocalMirror => ["Fetching remotes from cached clone"; "Cloning repo"]
  | DerivedAnalysis => ["Analysing commits"]
  end.

(** When a producer raised, the log ends with the open entry of its
    stage. *)
Definition failed_stage_logged (uuid : string) (e : exn) (w : World) : Prop :=
  match e with
  | ProducerError s _ => exists m, open_at uuid m w /\ m ∈ stage_messages s
  | _ => True
  end.

(** ** What a run leaves alone *)

(** The node at the path [p] is [v]. *)
Definition keeps (p : string) (v : option node) (w : World) : Prop :=
  fs w !! p = v.

(** ** The API handlers *)

(** [self.set_header('Content-Type', 'application/json')] applied to the
    response of the application. *)
Definition with_json_header (a : App) : App :=
  mkApp (world a) (datastore a) (submissions a)
    (mkResponse (status_code (response a))
       (("Content-Type", "application/json") :: headers (response a))
       (body (response a))).

(** The response after [self.set_status(code)] and
    [self.finish(json_encode(doc))]. *)
Definition answer (code : Z) (doc : json) (a : App) : App :=
  mkApp (world a) (datastore a) (submissions a)
    (mkResponse code (headers (response a)) (Some doc)).

(** What [availablitiy] reads as ['status_info'] for a known key:
    [{}] without a status file, else the loaded file. *)
Definition read_status (uuid : string) (w : World) : result json :=
  if hit w (status_file uuid) then (json_load (status_file uuid) w).1
  else Ok (JDict []).

(** The future [submit_job] stores for a new key. *)
Definition new_future (env : Env) (uuid : string) (token : option string)
    (a : App) : Future :=
  mkFuture uuid token (clock env (ticks (world a))) None.

(** ** The registry over a sequence of events *)

(** The token of the first request that names the key. *)
Fixpoint first_request (k : string) (evs : list event)
  : option (option string) :=
  match evs with
  | [] => None
  | RequestAvailable uuid token :: evs'
  | RequestData uuid token :: evs' =>
      if decide (uuid = k) then Some token else first_request k evs'
  | WorkerFinishes _ :: evs' => first_request k evs'
  end.

(** ** Elapsed time in words *)

Definition microseconds_per_second : Z := 1000000.

(** The phrase for a timestamp [datetime] that lies [diff] microseconds
    back, by the elapsed time as one number. *)
Definition elapsed_phrase (env : Env) (datetime diff : Z) : string :=
  if decide (diff < 0 \/ 8 * microseconds_per_day <= diff) then
    strftime env "%d %b %y" datetime
  else if decide (diff < 2 * microseconds_per_second) then "just now"
  else if decide (diff < 120 * microseconds_per_second) then
    format_int (diff / microseconds_per_second) +:+ " seconds ago"
  else if decide (diff < 3600 * microseconds_per_second) then
    format_int (diff / (60 * microseconds_per_second)) +:+ " minutes ago"
  else if decide (diff < 7200 * microseconds_per_second) then "1 hour ago"
  else if decide (diff < microseconds_per_day) then
    format_int (diff / (3600 * microseconds_per_second)) +:+ " hours ago"
  else if decide (diff < 2 * microseconds_per_day) then "1 day ago"
  else format_int (diff / microseconds_per_day) +:+ " days ago".

(** ** Worlds for worked examples *)

(** The status file of "acme/widgets" holds one open entry. *)
Definition logged_world : World :=
  mkWorld (<[status_file "acme/widgets" :=
               File (Parsed (JList [status_entry "2020-01-01T00:00:00Z"
                                      "Initial validation of repo"]))]>
             (fs Demo.storage_world)) 1 [].

(** The status file of "acme/widgets" is no JSON document. *)
Definition damaged_world : World :=
  mkWorld (<[status_file "acme/widgets" := File (Unparseable "[{")]>
             (fs Demo.storage_world)) 0 [].

(** The application after "acme/widgets" was requested and a worker
    finished its job. *)
Definition finished_app : App :=
  run Demo.env Demo.py (initial_app Demo.empty_world)
    [RequestAvailable "acme/widgets" (Some "token");
     WorkerFinishes "acme/widgets"].

(** The application after "acme/widgets" was requested, before a worker
    has finished. *)
Definition submitted_app : App :=
  run Demo.env Demo.py (initial_app Demo.empty_world)
    [RequestAvailable "acme/widgets" (Some "token")].

(** The same with a commit analysis that fails. *)
Definition failed_app : App :=
  run Demo.env_analysis_fails Demo.py (initial_app Demo.empty_world)
    [RequestAvailable "acme/widgets" (Some "token");
     WorkerFinishes "acme/widgets"].

(** The finished application after the status file was damaged. *)
Definition unreadable_app : App :=
  mkApp (mkWorld (<[status_file "acme/widgets" := File (Unparseable "[{")]>
                    (fs (world finished_app))) 0 [])
    (datastore finished_app) [] fresh_response.

(** The storage directory with a status file of "acme/gadgets". *)
Definition shared_world : World :=
  mkWorld (<[status_file "acme/gadgets" := File (Parsed (JList []))]>
             (fs Demo.storage_world)) 0 [].

(* ===================================================================== *)
(** * Facts about paths *)
(* ===================================================================== *)

Section Paths.

Implicit Types s t x : string.

Lemma app_cons_string c s t : String c s +:+ t = String c (s +:+ t).
Proof. reflexivity. Qed.

Lemma app_nil_string t : "" +:+ t = t.
Proof. reflexivity. Qed.

Lemma app_nil_r_string s : s +:+ "" = s.
Proof.
  induction s as [|c s IH]; [reflexivity|].
  rewrite app_cons_string. now rewrite IH.
Qed.

Lemma string_length_app s t :
  String.length (s +:+ t) = (String.length s + String.length t)%nat.
Proof.
  induction s as [|c s IH]; [reflexivity|].
  rewrite app_cons_string. simpl. now rewrite IH.
Qed.

Lemma app_inv_head_string x s t : x +:+ s = x +:+ t -> s = t.
Proof.
  induction x as [|c x IH]; [now rewrite !app_nil_string|].
  rewrite !app_cons_string. intros H. injection H as H. now apply IH.
Qed.

(** [os.path.join] keeps the key verbatim: every persisted path of a key
    is the clone target followed by a fixed suffix. *)
Lemma join_storage uuid suf :
  starts_with_slash suf = false ->
  os_path_join storage (uuid +:+ suf) = clone_target uuid +:+ suf.
Proof.
  intros Hsuf. unfold clone_target, os_path_join.
  destruct uuid as [|c u].
  - rewrite app_nil_string, Hsuf. reflexivity.
  - rewrite app_cons_string.
    change (starts_with_slash (String c (u +:+ suf)))
      with (starts_with_slash (String c u)).
    destruct (starts_with_slash (String c u)); reflexivity.
Qed.

Lemma status_file_eq uuid :
  status_file uuid = clone_target uuid +:+ ".status.json".
Proof. now apply join_storage. Qed.

Lemma github_cache_eq uuid :
  github_cache uuid = clone_target uuid +:+ ".github.json".
Proof. now apply join_storage. Qed.

Lemma computed_cache_eq uuid :
  computed_cache uuid = clone_target uuid +:+ "_computed.json".
Proof. now apply join_storage. Qed.

Lemma app_nonempty_neq x s : s <> "" -> x +:+ s <> x.
Proof.
  intros Hs H. apply (f_equal String.length) in H.
  rewrite string_length_app in H. destruct s; [congruence | simpl in H; lia].
Qed.

(** The four paths of one key are pairwise distinct. *)
Lemma status_neq_github uuid : status_file uuid <> github_cache uuid.
Proof.
  rewrite status_file_eq, github_cache_eq.
  intros H; apply app_inv_head_string in H; discriminate.
Qed.

Lemma status_neq_computed uuid : status_file uuid <> computed_cache uuid.
Proof.
  rewrite status_file_eq, computed_cache_eq.
  intros H; apply app_inv_head_string in H; discriminate.
Qed.

Lemma status_neq_target uuid : status_file uuid <> clone_target uuid.
Proof. rewrite status_file_eq. now apply app_nonempty_neq. Qed.

Lemma github_neq_computed uuid : github_cache uuid <> computed_cache uuid.
Proof.
  rewrite github_cache_eq, computed_cache_eq.
  intros H; apply app_inv_head_string in H; discriminate.
Qed.

Lemma github_neq_target uuid : github_cache uuid <> clone_target uuid.
Proof. rewrite github_cache_eq. now apply app_nonempty_neq. Qed.

Lemma computed_neq_target uuid : computed_cache uuid <> clone_target uuid.
Proof. rewrite computed_cache_eq. now apply app_nonempty_neq. Qed.

(** The directory of the cache files is strictly shorter than the clone
    target, and so is every directory [os.makedirs] creates for it. *)
Lemma has_slash_app x s : has_slash s = false ->
  has_slash (x +:+ s) = has_slash x.
Proof.
  intros Hs. induction x as [|c x IH]; [exact Hs|].
  rewrite app_cons_string. simpl. now rewrite IH.
Qed.

Lemma path_head_app x s : has_slash s = false ->
  path_head (x +:+ s) = path_head x.
Proof.
  intros Hs. induction x as [|c x IH].
  - rewrite app_nil_string.
    destruct s as [|d s]; simpl in *; [reflexivity|].
    apply orb_false_iff in Hs as [Hd Hs]. now rewrite Hs, Hd.
  - rewrite app_cons_string. simpl. now rewrite has_slash_app, IH.
Qed.

Lemma length_path_head x : (String.length (path_head x) <= String.length x)%nat.
Proof.
  induction x as [|c x IH]; simpl; [lia|].
  destruct (has_slash x); simpl; [lia|].
  destruct (bool_decide (c = slash)); simpl; lia.
Qed.

Lemma length_rstrip_slash x :
  (String.length (rstrip_slash x) <= String.length x)%nat.
Proof.
  induction x as [|c x IH]; simpl; [lia|].
  destruct (rstrip_slash x); simpl in *;
    [destruct (bool_decide (c = slash)); simpl; lia | lia].
Qed.

Lemma path_head_ends_slash x :
  path_head x = "" \/ ends_with_slash (path_head x) = true.
Proof.
  induction x as [|c x IH]; simpl; [now left|].
  destruct (has_slash x) eqn:Hx.
  - right. destruct IH as [IH|IH].
    + exfalso. clear -Hx IH. induction x as [|d x IHx]; [discriminate|].
      simpl in *. destruct (has_slash x); [discriminate|].
      destruct (bool_decide (d = slash)); [discriminate|].
      simpl in Hx. discriminate.
    + simpl. destruct (path_head x); [discriminate | exact IH].
  - destruct (bool_decide (c = slash)) eqn:Hc; [right | now left].
    simpl. exact Hc.
Qed.

Lemma rstrip_slash_shorter x : ends_with_slash x = true ->
  (String.length (rstrip_slash x) < String.length x)%nat.
Proof.
  induction x as [|c x IH]; simpl; [discriminate|].
  destruct x as [|d x].
  - intros ->. simpl. lia.
  - intros H. specialize (IH H).
    destruct (rstrip_slash (String d x)); simpl in *;
      [destruct (bool_decide (c = slash)); simpl; lia | lia].
Qed.

Lemma dir_prefixes_from_length acc x q :
  q ∈ dir_prefixes_from acc x ->
  (String.length q <= String.length acc + String.length x)%nat.
Proof.
  revert acc. induction x as [|c x IH]; intros acc; simpl.
  - destruct (bool_decide (acc = "")); [now rewrite elem_of_nil|].
    rewrite list_elem_of_singleton. intros ->. simpl. lia.
  - assert (Hrec : q ∈ dir_prefixes_from (acc +:+ String c "") x ->
                   (String.length q <= String.length acc + S (String.length x))%nat).
    { intros H. apply IH in H. rewrite string_length_app in H. simpl in H. lia. }
    destruct (bool_decide (c = slash)); [|exact Hrec].
    rewrite elem_of_app. intros [H|H]; [|now apply Hrec].
    destruct (bool_decide (acc = "") || ends_with_slash acc);
      [now rewrite elem_of_nil in H|].
    apply list_elem_of_singleton in H as ->. simpl. lia.
Qed.

Lemma dir_prefixes_shorter p q :
  q ∈ dir_prefixes (os_path_dirname p) ->
  (String.length q < String.length (path_head p))%nat.
Proof.
  unfold dir_prefixes, os_path_dirname.
  destruct (rstrip_slash (path_head p)) as [|c r] eqn:Hr.
  - rewrite Hr. simpl. now rewrite elem_of_nil.
  - intros H. apply dir_prefixes_from_length in H.
    pose proof (length_rstrip_slash (String c r)) as H1.
    destruct (path_head_ends_slash p) as [Hp|Hp].
    + rewrite Hp in Hr. discriminate.
    + apply rstrip_slash_shorter in Hp. rewrite Hr in Hp.
      change (String.length "") with 0%nat in H. lia.
Qed.

(** [os.makedirs] for the storage location of a key never creates one of
    the key's own paths. *)
Lemma dir_prefixes_fresh uuid suf q :
  has_slash suf = false ->
  q ∈ dir_prefixes (os_path_dirname (clone_target uuid +:+ ".github.json")) ->
  q <> clone_target uuid +:+ suf.
Proof.
  intros Hsuf H ->. apply dir_prefixes_shorter in H.
  rewrite path_head_app in H by reflexivity.
  pose proof (length_path_head (clone_target uuid)) as H1.
  rewrite string_length_app in H. lia.
Qed.

(** The artifacts of a key are not among the directories created for its
    storage location. *)
Lemma storage_dirs_fresh uuid q :
  q ∈ dir_prefixes (os_path_dirname (github_cache uuid)) ->
  q <> github_cache uuid /\ q <> computed_cache uuid /\ q <> clone_target uuid.
Proof.
  rewrite github_cache_eq, computed_cache_eq. intros H.
  split; [|split].
  - now apply dir_prefixes_fresh.
  - now apply dir_prefixes_fresh.
  - rewrite <- (app_nil_r_string (clone_target uuid)) at 1.
    now apply dir_prefixes_fresh.
Qed.

(** ** Keys in normal form *)

Lemma clone_target_relative uuid :
  starts_with_slash uuid = false ->
  clone_target uuid = "ephemeral_storage/" +:+ uuid.
Proof.
  intros H. unfold clone_target, os_path_join. now rewrite H.
Qed.

Lemma components_of_target uuid :
  starts_with_slash uuid = false ->
  path_components (clone_target uuid)
  = "ephemeral_storage" :: path_components uuid.
Proof.
  intros H. rewrite (clone_target_relative _ H). reflexivity.
Qed.

Lemma normal_path_relative uuid :
  normal_path uuid = true -> starts_with_slash uuid = false.
Proof.
  destruct uuid as [|c s]; [reflexivity|]. unfold normal_path. simpl.
  destruct (bool_decide_reflect (c = slash)) as [->|Hc]; [|reflexivity].
  unfold path_components. simpl. discriminate.
Qed.

(** The files of a key and its mirror directory have the same parent
    directory. *)
Lemma dirname_sibling uuid suf :
  has_slash suf = false ->
  os_path_dirname (clone_target uuid +:+ suf)
  = os_path_dirname (clone_target uuid).
Proof.
  intros H. unfold os_path_dirname. now rewrite path_head_app.
Qed.

(** For a relative key that directory is neither the working directory
    nor the root. *)
Lemma dirname_of_status uuid :
  starts_with_slash uuid = false ->
  exists d, os_path_dirname (status_file uuid) = String "e" d.
Proof.
  intros H. rewrite status_file_eq, (clone_target_relative _ H).
  unfold os_path_dirname.
  change (("ephemeral_storage/" +:+ uuid) +:+ ".status.json")
    with ("e" +:+ ("phemeral_storage/" +:+ (uuid +:+ ".status.json"))).
  remember ("phemeral_storage/" +:+ (uuid +:+ ".status.json")) as rest
    eqn:Hrest.
  assert (Hs : has_slash rest = true) by (subst rest; reflexivity).
  change ("e" +:+ rest) with (String "e" rest).
  cbn [path_head]. rewrite Hs. cbn [rstrip_slash].
  destruct (rstrip_slash (path_head rest)); eauto.
Qed.

Lemma dirname_shorter uuid :
  os_path_dirname (status_file uuid) <> status_file uuid.
Proof.
  rewrite status_file_eq. intros H.
  apply (f_equal String.length) in H. unfold os_path_dirname in H.
  rewrite path_head_app in H by reflexivity.
  pose proof (length_path_head (clone_target uuid)) as H1.
  pose proof (length_rstrip_slash (path_head (clone_target uuid))) as H2.
  rewrite string_length_app in H. simpl in H.
  destruct (rstrip_slash (path_head (clone_target uuid))); simpl in *; lia.
Qed.

(** ** Below a directory *)

Lemma path_after_app pre s : path_after pre (pre +:+ s) = Some s.
Proof.
  induction pre as [|c pre IH]; [reflexivity|].
  rewrite app_cons_string. simpl.
  now rewrite bool_decide_eq_true_2 by reflexivity.
Qed.

Lemma path_after_inv pre s rest :
  path_after pre s = Some rest -> s = pre +:+ rest.
Proof.
  revert s. induction pre as [|c pre IH]; intros s H.
  - simpl in H. destruct s; injection H as <-; reflexivity.
  - destruct s as [|d s]; [discriminate|]. simpl in H.
    destruct (bool_decide_reflect (c = d)) as [->|]; [|discriminate].
    rewrite app_cons_string. now rewrite (IH s H).
Qed.

Lemma app_assoc_string a b c : (a +:+ b) +:+ c = a +:+ (b +:+ c).
Proof.
  induction a as [|x a IH]; [reflexivity|].
  rewrite !app_cons_string. now rewrite IH.
Qed.

Lemma inside_under dir p : inside dir p = true <-> under dir p.
Proof.
  unfold inside, under. split.
  - destruct (path_after (dir +:+ "/") p) as [rest|] eqn:H; [|discriminate].
    intros _. exists rest. apply path_after_inv in H.
    now rewrite H, app_assoc_string.
  - intros [rest ->]. rewrite <- app_assoc_string, path_after_app.
    reflexivity.
Qed.

(** What follows the directory in a path below it starts with the
    separator. *)
Lemma inside_app dir suf :
  inside dir (dir +:+ suf) = starts_with_slash suf.
Proof.
  unfold inside. induction dir as [|c dir IH].
  - rewrite !app_nil_string. destruct suf as [|d suf]; [reflexivity|].
    simpl. destruct (bool_decide_reflect (d = slash)) as [->|Hd].
    + now rewrite bool_decide_eq_true_2 by reflexivity.
    + rewrite bool_decide_eq_false_2; [reflexivity|].
      intros Heq. apply Hd. now rewrite <- Heq.
  - rewrite !app_cons_string. simpl.
    rewrite bool_decide_eq_true_2 by reflexivity. exact IH.
Qed.

Lemma inside_self dir : inside dir dir = false.
Proof.
  rewrite <- (app_nil_r_string dir) at 2. now rewrite inside_app.
Qed.

(** The status file and the two artifacts of a key are siblings of its
    mirror directory: they are not below it. *)
Lemma status_not_inside uuid :
  inside (clone_target uuid) (status_file uuid) = false.
Proof. rewrite status_file_eq. now rewrite inside_app. Qed.

Lemma github_not_inside uuid :
  inside (clone_target uuid) (github_cache uuid) = false.
Proof. rewrite github_cache_eq. now rewrite inside_app. Qed.

Lemma computed_not_inside uuid :
  inside (clone_target uuid) (computed_cache uuid) = false.
Proof. rewrite computed_cache_eq. now rewrite inside_app. Qed.

Lemma replace_below_lookup dir tree f p :
  replace_below dir tree f !! p = if inside dir p then tree !! p else f !! p.
Proof.
  unfold replace_below. rewrite lookup_union, !map_lookup_filter.
  destruct (inside dir p) eqn:Hin;
    destruct (f !! p) as [x|], (tree !! p) as [y|]; simpl;
    repeat case_guard; simpl in *; try congruence; reflexivity.
Qed.

End Paths.

(* ===================================================================== *)
(** * The storage layout *)
(* ===================================================================== *)

Section Layout.

(** Two directories that contain the same path are equal or nested. *)
Lemma under_common r1 r2 p :
  under r1 p -> under r2 p -> r1 = r2 \/ under r1 r2 \/ under r2 r1.
Proof.
  intros [x1 H1] [x2 H2]. subst p. revert r2 H2.
  induction r1 as [|c r1 IH]; intros [|d r2] H.
  - now left.
  - right; left. rewrite app_nil_string, app_cons_string in H.
    injection H as <- _. exists r2; reflexivity.
  - right; right. rewrite app_nil_string, app_cons_string in H.
    injection H as -> _. exists r1; reflexivity.
  - rewrite !app_cons_string in H. injection H as <- H.
    destruct (IH r2 H) as [->|[[y ->]|[y ->]]].
    + now left.
    + right; left. exists y; reflexivity.
    + right; right. exists y; reflexivity.
Qed.

(** On a key of the usual form the separator of the key is kept: the key
    is spread over two path components. *)
Example status_file_components :
  path_components (status_file "acme/widgets")
  = ["ephemeral_storage"; "acme"; "widgets.status.json"].
Proof. reflexivity. Qed.

(** The status file of one repository is the mirror directory of
    another. *)
Example status_file_is_a_clone_target :
  status_file "acme/widgets" = clone_target "acme/widgets.status.json".
Proof. reflexivity. Qed.

(** No assignment of storage roots to keys contains the persisted paths
    of every key while keeping the roots of different keys apart: the
    status file of one key is the mirror directory of another. *)
Lemma per_key_roots_impossible root : ~ per_key_roots root.
Proof.
  intros [Hin Hsep].
  pose proof (Hin "acme/widgets" (status_file "acme/widgets")) as H1.
  pose proof (Hin "acme/widgets.status.json"
                (clone_target "acme/widgets.status.json")) as H2.
  rewrite <- status_file_is_a_clone_target in H2.
  assert (Hp1 : under (root "acme/widgets") (status_file "acme/widgets")).
  { apply H1. unfold persisted_paths. rewrite !elem_of_cons. tauto. }
  assert (Hp2 : under (root "acme/widgets.status.json")
                  (status_file "acme/widgets")).
  { apply H2. unfold persisted_paths. rewrite !elem_of_cons. tauto. }
  assert (Hk : "acme/widgets" <> "acme/widgets.status.json")
    by discriminate.
  assert (Hk' : "acme/widgets.status.json" <> "acme/widgets")
    by discriminate.
  destruct (Hsep _ _ Hk) as [Hne Hnu].
  destruct (Hsep _ _ Hk') as [_ Hnu'].
  destruct (under_common _ _ _ Hp1 Hp2) as [?|[?|?]]; tauto.
Qed.

(** The four paths of a key are pairwise distinct. *)
Lemma persisted_paths_NoDup uuid : NoDup (persisted_paths uuid).
Proof.
  unfold persisted_paths.
  pose proof (status_neq_github uuid). pose proof (status_neq_computed uuid).
  pose proof (status_neq_target uuid). pose proof (github_neq_computed uuid).
  pose proof (github_neq_target uuid). pose proof (computed_neq_target uuid).
  repeat (apply NoDup_cons; split;
          [rewrite ?elem_of_cons, elem_of_nil; intuition congruence|]).
  apply NoDup_nil_2.
Qed.

End Layout.

(* ===================================================================== *)
(** * Running monadic code *)
(* ===================================================================== *)

Section Monad.

Context {S : Type}.

Lemma bind_inv {A B} (m : M S A) (f : A -> M S B) s r s' :
  bind m f s = (r, s') ->
  (exists a s1, m s = (Ok a, s1) /\ f a s1 = (r, s'))
  \/ (exists e, m s = (Raise e, s') /\ r = Raise e).
Proof.
  unfold bind. destruct (m s) as [[a|e] s1]; intros H.
  - left. now exists a, s1.
  - right. injection H as <- <-. now exists e.
Qed.

Lemma ret_inv {A} (a : A) (s : S) r s' :
  ret a s = (r, s') -> r = Ok a /\ s' = s.
Proof. unfold ret. intros H. injection H as <- <-. now split. Qed.

Lemma lift_inv {A} (x : result A) (s : S) r s' :
  lift x s = (r, s') -> r = x /\ s' = s.
Proof. unfold lift. intros H. injection H as <- <-. now split. Qed.

End Monad.

(** [step H as a w Hm]: splits a run [H] of [do x <- m; k] into the run
    [Hm] of [m], returning [a] in the world [w], and the run of [k], which
    stays in [H]; a second goal covers the case that [m] raises.
    [step_ok] is the same for a run that is known to return. *)
Tactic Notation "step" hyp(H) "as" simple_intropattern(a) ident(w) ident(Hm) :=
  let e := fresh "e" in
  let Hr := fresh "Hr" in
  apply bind_inv in H as [(a & w & Hm & H) | (e & Hm & Hr)];
  [|first [injection Hr as <- | subst]].

Tactic Notation "step_ok" hyp(H) "as" simple_intropattern(a) ident(w) ident(Hm) :=
  let e := fresh "e" in
  let Hr := fresh "Hr" in
  apply bind_inv in H as [(a & w & Hm & H) | (e & Hm & Hr)];
  [|discriminate Hr].

(* ===================================================================== *)
(** * File-system primitives *)
(* ===================================================================== *)

Section Primitives.

Lemma path_exists_run p w : path_exists p w = (Ok (hit w p), w).
Proof. reflexivity. Qed.

Lemma hit_eq w w' p : fs w' !! p = fs w !! p -> hit w' p = hit w p.
Proof. unfold hit. now intros ->. Qed.

Lemma hit_false w p : hit w p = false -> fs w !! p = None.
Proof.
  unfold hit. intros H. apply bool_decide_eq_false_1 in H.
  destruct (fs w !! p); [exfalso; apply H; eauto | reflexivity].
Qed.

Lemma hit_some w p n : fs w !! p = Some n -> hit w p = true.
Proof. unfold hit. intros ->. apply bool_decide_eq_true_2. eauto. Qed.

Lemma json_load_inv p w r w' :
  json_load p w = (r, w') ->
  w' = w /\
  match r with
  | Ok j => fs w !! p = Some (File (Parsed j))
  | Raise e =>
      (e = JSONDecodeError /\
       exists raw, fs w !! p = Some (File (Unparseable raw)))
      \/ os_error e
  end.
Proof.
  unfold json_load. destruct (fs w !! p) as [[|[j|raw]]|];
    intros H; injection H as <- <-; split; simpl; eauto.
Qed.

Lemma json_dump_inv p j w r w' :
  json_dump p j w = (r, w') ->
  (r = Ok tt /\ w' = set_fs (<[p := File (Parsed j)]> (fs w)) w)
  \/ (exists e, r = Raise e /\ os_error e /\ w' = w).
Proof.
  unfold json_dump. intros H.
  repeat case_match; simplify_eq;
    first [left; split; reflexivity
          | right; eexists; split; [reflexivity | split; [exact I | reflexivity]]].
Qed.

Lemma collab_inv {A} s c (oracle : nat -> string + A) w r w' :
  collab s c oracle w = (r, w') ->
  w' = mkWorld (fs w) (ticks w) (trace w ++ [c]) /\
  match r with
  | Ok a => oracle (length (trace w)) = inr a
  | Raise e => exists msg, e = ProducerError s msg
                           /\ oracle (length (trace w)) = inl msg
  end.
Proof.
  unfold collab. destruct (oracle _) as [msg|a];
    intros H; injection H as <- <-; split; eauto.
Qed.

Lemma utcnow_run env w :
  utcnow env w = (Ok (clock env (ticks w)),
                  mkWorld (fs w) (S (ticks w)) (trace w)).
Proof. reflexivity. Qed.

(** [os.makedirs] keeps what is there and creates only directories on
    the way to its argument. *)
Lemma mkdirs_lookup ps f p :
  mkdirs ps f !! p = if bool_decide (p ∈ ps) then Some Dir else f !! p.
Proof.
  induction ps as [|q ps IH]; [reflexivity|].
  - change (mkdirs (q :: ps) f) with (<[q := Dir]> (mkdirs ps f)).
    destruct (decide (q = p)) as [->|Hne].
    + rewrite lookup_insert_eq, bool_decide_eq_true_2;
        [reflexivity | apply list_elem_of_here].
    + rewrite lookup_insert_ne by exact Hne. rewrite IH.
      destruct (decide (p ∈ ps)) as [Hin|Hnin].
      * rewrite !bool_decide_eq_true_2;
          [reflexivity | now apply list_elem_of_further | exact Hin].
      * rewrite !bool_decide_eq_false_2; [reflexivity | | exact Hnin].
        rewrite elem_of_cons. intros [?|?]; congruence.
Qed.

Lemma json_dump_ok p j w w' :
  json_dump p j w = (Ok tt, w') ->
  (fs w !! os_path_dirname p = Some Dir
   \/ implicit_dir (os_path_dirname p) = true) /\
  w' = set_fs (<[p := File (Parsed j)]> (fs w)) w.
Proof.
  unfold json_dump. intros H.
  destruct (fs w !! p) as [[|c]|];
    destruct (fs w !! os_path_dirname p) as [[|c']|];
    try destruct (implicit_dir (os_path_dirname p)) eqn:Himp;
    try discriminate; injection H as <-; auto.
Qed.

Lemma blocked_dir_none f ps :
  blocked_dir f ps = None -> forall p, p ∈ ps -> is_file f p = false.
Proof.
  induction ps as [|q ps IH]; intros H p Hp.
  - now apply elem_of_nil in Hp.
  - simpl in H. destruct (is_file f q) eqn:Hq; [discriminate|].
    apply elem_of_cons in Hp as [->|Hp]; [exact Hq | now apply IH].
Qed.

Lemma makedirs_inv d w r w' :
  makedirs d w = (r, w') ->
  ticks w' = ticks w /\ trace w' = trace w /\
  (forall p, p ∉ dir_prefixes d -> fs w' !! p = fs w !! p) /\
  (forall p n, fs w !! p = Some n -> fs w' !! p = Some n) /\
  match r with
  | Ok _ => True
  | Raise e => (fs w !! d = None -> os_error e) /\ w' = w
  end.
Proof.
  unfold makedirs. destruct (fs w !! d) as [n0|] eqn:Hd.
  { intros H; injection H as <- <-.
    split; [reflexivity|]. split; [reflexivity|].
    split; [reflexivity|]. split; [now intros|].
    split; [discriminate | reflexivity]. }
  destruct (blocked_dir (fs w) (dir_prefixes d)) as [q|] eqn:Hfind;
    intros H; injection H as <- <-; simpl.
  { split; [reflexivity|]. split; [reflexivity|].
    split; [reflexivity|]. split; [now intros|]. now split. }
  split; [reflexivity|]. split; [reflexivity|].
  split; [|split; [|exact I]].
  - intros p Hp. rewrite mkdirs_lookup.
    now rewrite bool_decide_eq_false_2.
  - intros p n Hn. rewrite mkdirs_lookup.
    destruct (decide (p ∈ dir_prefixes d)) as [Hin|Hnin].
    + rewrite bool_decide_eq_true_2 by exact Hin.
      pose proof (blocked_dir_none _ _ Hfind p Hin) as Hf.
      unfold is_file in Hf. rewrite Hn in Hf.
      destruct n; [reflexivity | discriminate].
    + now rewrite bool_decide_eq_false_2.
Qed.

Lemma makedirs_raise d w e w' :
  makedirs d w = (Raise e, w') -> e = FileExistsError d \/ os_error e.
Proof.
  unfold makedirs. destruct (fs w !! d).
  - intros [= <- _]. now left.
  - destruct (blocked_dir (fs w) (dir_prefixes d)); [|discriminate].
    intros [= <- _]. now right.
Qed.

Lemma collab_writing_inv {A} s c (oracle : nat -> string + A) leaves
    w r w' :
  collab_writing s c oracle leaves w = (r, w') ->
  w' = mkWorld (leaves (length (trace w)) (fs w)) (ticks w) (trace w ++ [c])
  /\
  match r with
  | Ok a => oracle (length (trace w)) = inr a
  | Raise e => exists msg, e = ProducerError s msg
                           /\ oracle (length (trace w)) = inl msg
  end.
Proof.
  unfold collab_writing.
  destruct (oracle (length (trace w))) as [msg|a] eqn:Ho;
    intros H; injection H as <- <-; (split; [reflexivity|]).
  - now exists msg.
  - reflexivity.
Qed.

End Primitives.

(* ===================================================================== *)
(** * The status log *)
(* ===================================================================== *)

Section StatusLog.

Lemma dict_get_set_eq k v d : dict_get k (dict_set k v d) = Some v.
Proof.
  induction d as [|[k' v'] d IH]; simpl.
  - now rewrite decide_True.
  - destruct (decide (k' = k)); simpl.
    + now rewrite decide_True.
    + now rewrite decide_False.
Qed.

Lemma dict_get_set_ne k k' v d :
  k <> k' -> dict_get k' (dict_set k v d) = dict_get k' d.
Proof.
  intros Hne. induction d as [|[k0 v0] d IH]; simpl.
  - now rewrite decide_False.
  - destruct (decide (k0 = k)) as [->|]; simpl.
    + now rewrite !decide_False by exact Hne.
    + destruct (decide (k0 = k')); [reflexivity | exact IH].
Qed.

Lemma set_last_end_cons v x y l :
  set_last_end v (x :: y :: l)
  = match set_last_end v (y :: l) with
    | Ok l' => Ok (x :: l')
    | Raise e => Raise e
    end.
Proof. reflexivity. Qed.

(** Closing the last entry keeps the messages ... *)
Lemma set_last_end_messages v l l' ms :
  set_last_end v l = Ok l' ->
  Forall2 (fun e m => entry_message e = Some m) l ms ->
  Forall2 (fun e m => entry_message e = Some m) l' ms.
Proof.
  revert l' ms. induction l as [|x [|y l] IH]; intros l' ms Hset Hms.
  - discriminate.
  - simpl in Hset. destruct x as [| | | | |d]; try discriminate.
    simpl in Hset. injection Hset as <-.
    inversion Hms as [|? m ? ms' Hx Htl]; subst.
    constructor; [|exact Htl].
    simpl in *. now rewrite dict_get_set_ne by discriminate.
  - rewrite set_last_end_cons in Hset.
    destruct (set_last_end v (y :: l)) as [l0|] eqn:Hl0; [|discriminate].
    injection Hset as <-.
    inversion Hms as [|? m ? ms' Hx Htl]; subst.
    constructor; [exact Hx | now apply IH].
Qed.

(** ... succeeds on a log whose entries carry messages ... *)
Lemma set_last_end_ok v l ms :
  Forall2 (fun e m => entry_message e = Some m) l ms -> ms <> [] ->
  exists l', set_last_end v l = Ok l'.
Proof.
  intros Hms Hne. induction Hms as [|x m l ms Hx Htl IH]; [congruence|].
  destruct Htl as [|y m' l ms' Hy Htl].
  - destruct x as [| | | | |d]; try discriminate. simpl. eauto.
  - rewrite set_last_end_cons.
    destruct IH as [l' ->]; [discriminate | eauto].
Qed.

(** ... and leaves every entry closed when only the last one was open. *)
Lemma set_last_end_closed v l l' :
  set_last_end v l = Ok l' -> log_invariant l ->
  Forall (fun e => has_end e = true) l'.
Proof.
  revert l'. induction l as [|x [|y l] IH]; intros l' Hset Hinv.
  - discriminate.
  - simpl in Hset. destruct x as [| | | | |d]; try discriminate.
    simpl in Hset. injection Hset as <-.
    constructor; [|constructor]. simpl.
    rewrite dict_get_set_eq. now apply bool_decide_eq_true_2.
  - rewrite set_last_end_cons in Hset.
    destruct (set_last_end v (y :: l)) as [l0|] eqn:Hl0; [|discriminate].
    injection Hset as <-. constructor.
    + destruct (has_end x) eqn:Hx; [reflexivity|].
      specialize (Hinv 0%nat x eq_refl Hx). simpl in Hinv. lia.
    + apply IH; [reflexivity|].
      intros i e Hi He. specialize (Hinv (S i) e Hi He).
      simpl in *. lia.
Qed.

Lemma closed_log_invariant l :
  Forall (fun e => has_end e = true) l -> log_invariant l.
Proof.
  intros Hall i e Hi He. rewrite Forall_forall in Hall.
  apply list_elem_of_lookup_2 in Hi. apply Hall in Hi. congruence.
Qed.

Lemma closed_log_append l x :
  Forall (fun e => has_end e = true) l -> log_invariant (l ++ [x]).
Proof.
  intros Hall i e Hi He.
  destruct (decide (i < length l)%nat) as [Hlt|Hge].
  - rewrite lookup_app_l in Hi by exact Hlt.
    rewrite Forall_forall in Hall.
    apply list_elem_of_lookup_2 in Hi. apply Hall in Hi. congruence.
  - apply lookup_lt_Some in Hi. rewrite length_app in Hi |- *. simpl in *. lia.
Qed.

(** At most one entry of a log that satisfies the invariant is open. *)
Lemma log_invariant_open_entries l :
  log_invariant l -> (length (open_entries l) <= 1)%nat.
Proof.
  unfold open_entries. induction l as [|x l IH]; intros Hinv; simpl; [lia|].
  assert (Hl : log_invariant l).
  { intros i e Hi He. specialize (Hinv (S i) e Hi He). simpl in Hinv. lia. }
  specialize (IH Hl).
  destruct (has_end x) eqn:Hx; simpl; [exact IH|].
  specialize (Hinv 0%nat x eq_refl Hx). simpl in Hinv.
  destruct l; [simpl; lia | simpl in Hinv; lia].
Qed.

(** What one call of [update_status] does: it reads the clock once to
    close the last entry of an existing log and once for a new entry,
    and touches no path but the status file. *)
Lemma update_status_inv env uuid msg clear w r w' :
  update_status env uuid msg clear w = (r, w') ->
  let fresh := negb (hit w (status_file uuid)) || clear in
  let closing := if fresh then 0%nat else 1%nat in
  trace w' = trace w /\
  (forall p, p <> status_file uuid -> fs w' !! p = fs w !! p) /\
  match r with
  | Ok _ =>
      exists old,
        (if fresh then old = []
         else exists l,
             status_log uuid w = Some l /\
             set_last_end
               (JStr (strftime env iso_format (clock env (ticks w)))) l
             = Ok old) /\
        status_log uuid w'
        = Some (old ++
                match msg with
                | Some m =>
                    [status_entry
                       (strftime env iso_format
                          (clock env (ticks w + closing))) m]
                | None => []
                end)%list /\
        ticks w' = (ticks w + closing
                    + (match msg with Some _ => 1 | None => 0 end))%nat
  | Raise e =>
      fs w' = fs w /\
      (fresh = true \/
       (exists l old, status_log uuid w = Some l /\
          set_last_end
            (JStr (strftime env iso_format (clock env (ticks w)))) l
          = Ok old) ->
       os_error e)
  end.
Proof.
  unfold update_status. intros H. cbn zeta.
  step H as ex w0 Hex; [|rewrite path_exists_run in Hex; discriminate].
  rewrite path_exists_run in Hex. injection Hex as <- <-.
  destruct (negb (hit w (status_file uuid)) || clear) eqn:Hfresh.
  - (* a fresh log *)
    step H as old w1 Hold; [|apply ret_inv in Hold as [? _]; discriminate].
    apply ret_inv in Hold as [[= ->] ->].
    destruct msg as [m|].
    + step H as new w2 Hnew.
      2:{ step Hnew as now w2 Hnow.
          - apply lift_inv in Hnew as [? _]. discriminate.
          - rewrite utcnow_run in Hnow. discriminate. }
      step_ok Hnew as now w3 Hnow.
      rewrite utcnow_run in Hnow. injection Hnow as <- <-.
      apply lift_inv in Hnew as [[= ->] ->].
      apply json_dump_inv in H as [[-> ->]|(e & -> & He & ->)]; simpl.
      * split; [reflexivity|]. split.
        { intros p Hp. now rewrite lookup_insert_ne by congruence. }
        exists []. split; [reflexivity|]. split; [|lia].
        rewrite Nat.add_0_r. unfold status_log. simpl.
        now rewrite lookup_insert_eq.
      * repeat split; auto.
    + step H as new w2 Hnew; [|apply ret_inv in Hnew as [? _]; discriminate].
      apply ret_inv in Hnew as [[= ->] ->].
      apply json_dump_inv in H as [[-> ->]|(e & -> & He & ->)]; simpl.
      * split; [reflexivity|]. split.
        { intros p Hp. now rewrite lookup_insert_ne by congruence. }
        exists []. split; [reflexivity|]. split; [|lia].
        unfold status_log. simpl. now rewrite lookup_insert_eq.
      * repeat split; auto.
  - (* an existing log: load it and close its last entry *)
    step H as closed w1 Hclosed.
    2:{ (* the load or the closing fails *)
      step Hclosed as loaded w1 Hload.
      - apply json_load_inv in Hload as [-> Hload].
        step Hclosed as now w2 Hnow;
          [|rewrite utcnow_run in Hnow; discriminate].
        rewrite utcnow_run in Hnow. injection Hnow as <- <-.
        apply lift_inv in Hclosed as [Hr ->]. simpl.
        repeat split; auto.
        intros [?|(l & old & Hl & Hold)]; [discriminate|].
        unfold status_log in Hl. rewrite Hload in Hl.
        destruct loaded as [| | | |l0|]; try discriminate.
        injection Hl as ->. simpl in Hr. rewrite Hold in Hr.
        discriminate.
      - apply json_load_inv in Hload as [-> Hload].
        repeat split; auto.
        intros [?|(l & old & Hl & Hold)]; [discriminate|].
        unfold status_log in Hl.
        destruct Hload as [[-> [raw Hraw]]|He]; [|exact He].
        rewrite Hraw in Hl. discriminate. }
    step_ok Hclosed as loaded w2 Hload.
    step_ok Hclosed as now w3 Hnow.
    rewrite utcnow_run in Hnow. injection Hnow as <- <-.
    apply json_load_inv in Hload as [-> Hload].
    apply lift_inv in Hclosed as [Hclose ->].
    destruct loaded as [| | |s|l|d]; simpl in Hclose; try discriminate;
      [destruct s; discriminate|].
    destruct (set_last_end _ l) as [old|] eqn:Hold; [|discriminate].
    injection Hclose as ->.
    assert (Hlog : status_log uuid w = Some l).
    { unfold status_log. now rewrite Hload. }
    destruct msg as [m|].
    + step H as new w2 Hnew.
      2:{ step Hnew as now w2 Hnow.
          - apply lift_inv in Hnew as [? _]. discriminate.
          - rewrite utcnow_run in Hnow. discriminate. }
      step_ok Hnew as now w3 Hnow.
      rewrite utcnow_run in Hnow. injection Hnow as <- <-.
      apply lift_inv in Hnew as [[= ->] ->].
      apply json_dump_inv in H as [[-> ->]|(e & -> & He & ->)]; simpl.
      * split; [reflexivity|]. split.
        { intros p Hp. now rewrite lookup_insert_ne by congruence. }
        exists old. split; [eauto|]. split; [|lia].
        unfold status_log. simpl. rewrite lookup_insert_eq.
        now rewrite Nat.add_1_r.
      * repeat split; auto.
    + step H as new w2 Hnew; [|apply ret_inv in Hnew as [? _]; discriminate].
      apply ret_inv in Hnew as [[= ->] ->].
      apply json_dump_inv in H as [[-> ->]|(e & -> & He & ->)]; simpl.
      * split; [reflexivity|]. split.
        { intros p Hp. now rewrite lookup_insert_ne by congruence. }
        exists old. split; [eauto|]. split; [|lia].
        unfold status_log. simpl. rewrite lookup_insert_eq.
        now rewrite app_nil_r.
      * repeat split; auto.
Qed.

Lemma logged_hit uuid w ms :
  logged uuid w ms -> hit w (status_file uuid) = true.
Proof.
  intros (l & Hl & _). unfold status_log in Hl. unfold hit.
  destruct (fs w !! status_file uuid); [|discriminate].
  now apply bool_decide_eq_true_2.
Qed.

Lemma logged_frame uuid w w' ms :
  fs w' !! status_file uuid = fs w !! status_file uuid ->
  logged uuid w ms -> logged uuid w' ms.
Proof.
  intros Heq (l & Hl & Hms). exists l. split; [|exact Hms].
  unfold status_log in *. now rewrite Heq.
Qed.

(** [update_status] leaves the artifacts of the key and the trace
    alone. *)
Lemma update_status_frame env uuid msg clear w r w' :
  update_status env uuid msg clear w = (r, w') ->
  trace w' = trace w /\
  fs w' !! github_cache uuid = fs w !! github_cache uuid /\
  fs w' !! computed_cache uuid = fs w !! computed_cache uuid /\
  fs w' !! clone_target uuid = fs w !! clone_target uuid.
Proof.
  intros H. apply update_status_inv in H as (Htr & Hfs & _).
  pose proof (status_neq_github uuid). pose proof (status_neq_computed uuid).
  pose proof (status_neq_target uuid).
  repeat split; [exact Htr | | |]; apply Hfs; congruence.
Qed.

Lemma update_status_reset_ok env uuid m w w' :
  update_status env uuid (Some m) true w = (Ok tt, w') ->
  logged uuid w' [m] /\ ticks w' = S (ticks w).
Proof.
  intros H. apply update_status_inv in H as (_ & _ & old & Hold & Hlog & Ht).
  rewrite orb_true_r in Hold, Hlog, Ht. subst old. split; [|lia].
  eexists. split; [exact Hlog|]. repeat constructor.
Qed.

Lemma update_status_next_ok env uuid m ms w w' :
  logged uuid w ms ->
  update_status env uuid (Some m) false w = (Ok tt, w') ->
  logged uuid w' (ms ++ [m]) /\ ticks w' = S (S (ticks w)).
Proof.
  intros Hms H. pose proof (logged_hit _ _ _ Hms) as Hhit.
  apply update_status_inv in H as (_ & _ & old & Hold & Hlog & Ht).
  rewrite Hhit in Hold, Hlog, Ht. simpl in Hold, Hlog, Ht.
  destruct Hold as (l & Hl & Hset). destruct Hms as (l0 & Hl0 & Hms).
  rewrite Hl in Hl0. injection Hl0 as <-. split; [|lia].
  eexists. split; [exact Hlog|].
  apply Forall2_app; [exact (set_last_end_messages _ _ _ _ Hset Hms)|].
  repeat constructor.
Qed.

Lemma update_status_close_ok env uuid ms w w' :
  logged uuid w ms ->
  update_status env uuid None false w = (Ok tt, w') ->
  logged uuid w' ms /\ ticks w' = S (ticks w).
Proof.
  intros Hms H. pose proof (logged_hit _ _ _ Hms) as Hhit.
  apply update_status_inv in H as (_ & _ & old & Hold & Hlog & Ht).
  rewrite Hhit in Hold, Ht. simpl in Hold, Hlog, Ht.
  destruct Hold as (l & Hl & Hset). destruct Hms as (l0 & Hl0 & Hms).
  rewrite Hl in Hl0. injection Hl0 as <-. split; [|lia].
  eexists. split; [exact Hlog|]. rewrite app_nil_r.
  exact (set_last_end_messages _ _ _ _ Hset Hms).
Qed.

(** Inside a run, where the log was started by the run itself, only
    writing the status file can make [update_status] fail. *)
Lemma update_status_raise env uuid msg clear w e w' :
  clear = true \/ (exists ms, logged uuid w ms /\ ms <> []) ->
  update_status env uuid msg clear w = (Raise e, w') ->
  os_error e /\ fs w' = fs w.
Proof.
  intros Hpre H. apply update_status_inv in H as (_ & _ & Hfs & He).
  split; [|exact Hfs]. apply He.
  destruct Hpre as [->|(ms & Hms & Hne)]; [left; apply orb_true_r|].
  right. destruct Hms as (l & Hl & Hms).
  destruct (set_last_end_ok
              (JStr (strftime env iso_format (clock env (ticks w))))
              l ms Hms Hne) as [old Hold].
  now exists l, old.
Qed.

(** C6: every call of the status-log update leaves a log in which at most
    one entry has no end timestamp, and such an entry is the last one.
    The log is reset by the call ([clear]), or it was absent or satisfied
    the invariant before; a call that raises leaves the file system as it
    was. *)
Theorem update_status_keeps_log_invariant env uuid msg clear w r w' :
  update_status env uuid msg clear w = (r, w') ->
  clear = true \/ status_log_ok uuid w ->
  match r with
  | Ok _ => exists l, status_log uuid w' = Some l /\ log_invariant l
                      /\ (length (open_entries l) <= 1)%nat
  | Raise _ => fs w' = fs w
  end.
Proof.
  intros H Hpre. apply update_status_inv in H as (_ & _ & H).
  destruct r as [[]|e]; [|apply H].
  destruct H as (old & Hold & Hlog & _).
  assert (Hclosed : Forall (fun e => has_end e = true) old).
  { destruct (negb (hit w (status_file uuid)) || clear) eqn:Hfresh.
    - subst old. constructor.
    - destruct Hold as (l & Hl & Hset).
      apply orb_false_iff in Hfresh as [_ ->].
      destruct Hpre as [?|Hok]; [discriminate|].
      unfold status_log_ok in Hok. unfold status_log in Hl.
      destruct (fs w !! status_file uuid) as [n|]; [|discriminate].
      destruct Hok as (l0 & -> & Hinv). injection Hl as ->.
      exact (set_last_end_closed _ _ _ Hset Hinv). }
  eexists. split; [exact Hlog|].
  assert (Hinv : log_invariant
                   (old ++ match msg with
                           | Some m =>
                               [status_entry
                                  (strftime env iso_format
                                     (clock env
                                        (ticks w +
                                         (if negb (hit w (status_file uuid))
                                             || clear
                                          then 0 else 1)%nat))) m]
                           | None => []
                           end)).
  { destruct msg as [m|].
    - now apply closed_log_append.
    - rewrite app_nil_r. now apply closed_log_invariant. }
  split; [exact Hinv | now apply log_invariant_open_entries].
Qed.

(** The second status update of a run, on the log the first one wrote. *)
Lemma update_status_keeps_log_invariant_witness :
  let w1 := (update_status Demo.env "acme/widgets"
               (Some "Initial validation of repo") true
               Demo.storage_world).2 in
  let w2 := (update_status Demo.env "acme/widgets"
               (Some "Fetching GitHub API data") false w1).2 in
  status_log_ok "acme/widgets" w1 /\
  exists l, status_log "acme/widgets" w2 = Some l /\ log_invariant l
            /\ (length (open_entries l) <= 1)%nat.
Proof.
  intros w1 w2.
  assert (Hok : status_log_ok "acme/widgets" w1).
  { unfold status_log_ok.
    replace (fs w1 !! status_file "acme/widgets")
      with (Some (File (Parsed (JList
              [status_entry "%Y-%m-%dT%H:%M:%SZ@1000"
                 "Initial validation of repo"]))))
      by (vm_compute; reflexivity).
    eexists. split; [reflexivity|].
    intros [|i] e Hi He; [reflexivity|]. destruct i; discriminate. }
  split; [exact Hok|].
  exact (update_status_keeps_log_invariant Demo.env "acme/widgets"
           (Some "Fetching GitHub API data") false w1 (Ok tt) w2
           eq_refl (or_intror Hok)).
Defined.

End StatusLog.

(* ===================================================================== *)
(** * The job registry and the API handlers *)
(* ===================================================================== *)

Section Registry.

Lemma preserves_ret {S A} (I : S -> Prop) (a : A) : preserves I (ret a).
Proof. intros s r s' H Hs. apply ret_inv in H as [_ ->]. exact Hs. Qed.

Lemma preserves_bind {S A B} (I : S -> Prop) (m : M S A) (f : A -> M S B) :
  preserves I m -> (forall a, preserves I (f a)) -> preserves I (bind m f).
Proof.
  intros Hm Hf s r s' H Hs.
  apply bind_inv in H as [(a & s1 & H1 & H2)|(e & H1 & _)].
  - exact (Hf a _ _ _ H2 (Hm _ _ _ H1 Hs)).
  - exact (Hm _ _ _ H1 Hs).
Qed.

(** An operation that only touches the response or the world keeps any
    property of the datastore and the submissions. *)
Lemma registry_ok_frame a a' :
  datastore a' = datastore a -> submissions a' = submissions a ->
  registry_ok a -> registry_ok a'.
Proof.
  intros Hd Hs Hok k. unfold dispatched. rewrite Hd, Hs. apply Hok.
Qed.

Lemma liftW_frame {A} (m : M World A) a r a' :
  liftW m a = (r, a') ->
  datastore a' = datastore a /\ submissions a' = submissions a
  /\ response a' = response a /\ m (world a) = (r, world a').
Proof.
  unfold liftW. destruct (m (world a)) as [r0 w] eqn:Hm.
  intros H. injection H as <- <-. now simpl.
Qed.

Lemma preserves_set_response r : preserves registry_ok (set_response r).
Proof.
  intros a x a' H. injection H as <- <-. now apply registry_ok_frame.
Qed.

Lemma preserves_set_status code : preserves registry_ok (set_status code).
Proof.
  apply preserves_bind; [|intros; apply preserves_set_response].
  intros a x a' H. injection H as <- <-. auto.
Qed.

Lemma preserves_set_header n v : preserves registry_ok (set_header n v).
Proof.
  apply preserves_bind; [|intros; apply preserves_set_response].
  intros a x a' H. injection H as <- <-. auto.
Qed.

Lemma preserves_finish doc : preserves registry_ok (finish doc).
Proof.
  apply preserves_bind; [|intros; apply preserves_set_response].
  intros a x a' H. injection H as <- <-. auto.
Qed.

Lemma dispatched_app k a subs u t :
  submissions a = (subs ++ [(u, t)])%list ->
  dispatched k a
  = (length (List.filter (fun s => bool_decide (s.1 = k)) subs)
     + if bool_decide (u = k) then 1 else 0)%nat.
Proof.
  intros Hs. unfold dispatched. rewrite Hs, List.filter_app, length_app.
  simpl. now destruct (bool_decide (u = k)).
Qed.

(** The first branch of [availablitiy]: an unknown key is submitted. *)
Lemma availablitiy_unknown env uuid token a :
  datastore a !! uuid = None ->
  availablitiy env uuid token a
  = (Ok (mkAvailability 202 "Job submitted and is processing." (JList [])),
     mkApp (mkWorld (fs (world a)) (S (ticks (world a))) (trace (world a)))
       (<[uuid := mkFuture uuid token (clock env (ticks (world a))) None]>
          (datastore a))
       (submissions a ++ [(uuid, token)])
       (mkResponse 202 (headers (response a)) (body (response a)))).
Proof.
  intros Hnone. unfold availablitiy, bind at 1. rewrite Hnone. reflexivity.
Qed.

(** The second branch: a known key is only looked up. *)
Lemma availablitiy_known env uuid token a f r a' :
  datastore a !! uuid = Some f ->
  availablitiy env uuid token a = (r, a') ->
  datastore a' = datastore a /\ submissions a' = submissions a /\
  response a' = response a /\ fs (world a') = fs (world a) /\
  trace (world a') = trace (world a) /\
  match r with
  | Ok av =>
      av_status av = (if done f then 200 else 202) /\
      (if hit (world a) (status_file uuid)
       then fs (world a) !! status_file uuid
            = Some (File (Parsed (av_status_info av)))
       else av_status_info av = JDict [])
  | Raise e =>
      hit (world a) (status_file uuid) = true /\
      (e = JSONDecodeError \/ os_error e)
  end.
Proof.
  intros Hsome. unfold availablitiy, bind at 1. rewrite Hsome. intros H.
  step H as logged a1 Hlogged;
    [|apply liftW_frame in Hlogged as (_ & _ & _ & Hx);
      rewrite path_exists_run in Hx; discriminate].
  apply liftW_frame in Hlogged as (Hd1 & Hs1 & Hr1 & Hx).
  rewrite path_exists_run in Hx. injection Hx as <- Hw1.
  assert (Hstatus :
    forall rs a2, (if negb (hit (world a) (status_file uuid))
                   then ret (JDict [])
                   else liftW (json_load (status_file uuid))) a1 = (rs, a2) ->
      datastore a2 = datastore a /\ submissions a2 = submissions a /\
      response a2 = response a /\ world a2 = world a /\
      match rs with
      | Ok j => if hit (world a) (status_file uuid)
                then fs (world a) !! status_file uuid
                     = Some (File (Parsed j))
                else j = JDict []
      | Raise e => hit (world a) (status_file uuid) = true /\
                   (e = JSONDecodeError \/ os_error e)
      end).
  { intros rs a2 Hrs. destruct (hit (world a) (status_file uuid)); simpl in Hrs.
    - apply liftW_frame in Hrs as (Hd2 & Hs2 & Hr2 & Hl).
      apply json_load_inv in Hl as [Hw2 Hl]. rewrite <- Hw1 in *.
      repeat split; try congruence.
      destruct rs as [j|e]; [exact Hl|].
      split; [reflexivity|]. destruct Hl as [[-> _]|Hl]; auto.
    - apply ret_inv in Hrs as [-> ->]. repeat split; congruence. }
  step H as status a2 Hst.
  2:{ apply Hstatus in Hst as (? & ? & ? & Hw & [? ?]).
      rewrite Hw. repeat split; first [assumption | reflexivity]. }
  apply Hstatus in Hst as (Hd2 & Hs2 & Hr2 & Hw2 & Hj).
  destruct (done f).
  - apply ret_inv in H as [-> ->]. rewrite Hw2.
    repeat split; first [assumption | reflexivity].
  - step H as now a3 Hnow;
      [|apply liftW_frame in Hnow as (_ & _ & _ & Hx);
        rewrite utcnow_run in Hx; discriminate].
    apply liftW_frame in Hnow as (Hd3 & Hs3 & Hr3 & Hx).
    rewrite utcnow_run in Hx. injection Hx as _ Hw3.
    apply ret_inv in H as [-> ->]. rewrite <- Hw3, Hw2. simpl.
    repeat split; first [congruence | exact Hj].
Qed.

Lemma preserves_availablitiy env uuid token :
  preserves registry_ok (availablitiy env uuid token).
Proof.
  intros a r a' H Hok. destruct (datastore a !! uuid) as [f|] eqn:Hf.
  - apply (availablitiy_known _ _ _ _ _ _ _ Hf) in H as (Hd & Hs & _).
    now apply (registry_ok_frame a).
  - rewrite (availablitiy_unknown _ _ _ _ Hf) in H. injection H as _ <-.
    intros k.
    erewrite (dispatched_app k _ (submissions a) uuid token)
      by reflexivity.
    simpl. specialize (Hok k). unfold dispatched in Hok. rewrite Hok.
    destruct (decide (uuid = k)) as [->|Hne].
    + rewrite lookup_insert_eq, Hf, bool_decide_eq_true_2; reflexivity.
    + rewrite lookup_insert_ne, bool_decide_eq_false_2 by exact Hne.
      lia.
Qed.

Lemma preserves_resp env py uuid token :
  preserves registry_ok (resp env py uuid token).
Proof.
  unfold resp.
  apply preserves_bind; [apply preserves_set_header|]. intros _.
  apply preserves_bind; [apply preserves_availablitiy|]. intros av.
  destruct (negb (bool_decide (av_status av = 200))).
  - apply preserves_bind; [apply preserves_set_status|]. intros _.
    apply preserves_bind; [apply preserves_finish|]. intros _.
    apply preserves_ret.
  - apply preserves_bind.
    { intros a x a' H. injection H as <- <-. auto. }
    intros future. destruct (future ≫= outcome) as [[content|err]|].
    + apply preserves_bind; [apply preserves_finish|]. intros _.
      apply preserves_ret.
    + apply preserves_ret.
    + apply preserves_ret.
Qed.

Lemma worker_run_registry_ok env uuid a :
  registry_ok a -> registry_ok (worker_run env uuid a).
Proof.
  intros Hok. unfold worker_run.
  destruct (datastore a !! uuid) as [f|] eqn:Hf; [|exact Hok].
  destruct (done f); [exact Hok|].
  destruct (fetch_repo_data env (fut_uuid f) (fut_token f) (world a))
    as [r w].
  intros k. unfold dispatched. simpl. specialize (Hok k).
  unfold dispatched in Hok. rewrite Hok.
  destruct (decide (uuid = k)) as [->|Hne].
  - now rewrite lookup_insert_eq, Hf.
  - now rewrite lookup_insert_ne.
Qed.

Lemma preserves_available_post env uuid token :
  preserves registry_ok (APIDataAvailableHandler_post env uuid token).
Proof.
  apply preserves_bind; [apply preserves_set_header|]. intros _.
  apply preserves_bind; [apply preserves_availablitiy|]. intros av.
  apply preserves_bind; [apply preserves_set_status|]. intros _.
  apply preserves_finish.
Qed.

Lemma preserves_data_post env py uuid token :
  preserves registry_ok (APIDataHandler_post env py uuid token).
Proof.
  apply preserves_bind; [apply preserves_resp|]. intros _.
  apply preserves_ret.
Qed.

(** A request keeps the invariant, whether its handler returns or
    raises. *)
Lemma serve_registry_ok py (handler : M App unit) a :
  preserves registry_ok handler -> registry_ok (new_request a) ->
  registry_ok (serve py handler a).
Proof.
  intros Hpre Hnew. unfold serve.
  destruct (handler (new_request a)) as [[[]|e] a'] eqn:H.
  - exact (Hpre _ _ _ H Hnew).
  - apply (registry_ok_frame a'); [reflexivity | reflexivity|].
    exact (Hpre _ _ _ H Hnew).
Qed.

Lemma step_registry_ok env py a ev :
  registry_ok a -> registry_ok (step env py a ev).
Proof.
  intros Hok.
  assert (Hnew : registry_ok (new_request a))
    by now apply (registry_ok_frame a).
  destruct ev as [uuid token|uuid token|uuid]; simpl.
  - apply serve_registry_ok; [|exact Hnew].
    apply preserves_available_post.
  - apply serve_registry_ok; [|exact Hnew].
    apply preserves_data_post.
  - now apply worker_run_registry_ok.
Qed.

(** Every state the application reaches satisfies the registry
    invariant. *)
Lemma run_registry_ok env py w evs :
  registry_ok (run env py (initial_app w) evs).
Proof.
  unfold run. rewrite <- fold_left_rev_right.
  induction (rev evs) as [|ev evs' IH]; simpl.
  - intros k. reflexivity.
  - now apply step_registry_ok.
Qed.

(** Over the lifetime of the registry no key is dispatched twice. *)
Lemma dispatched_at_most_once env py w evs k :
  (dispatched k (run env py (initial_app w) evs) <= 1)%nat.
Proof.
  rewrite (run_registry_ok env py w evs k).
  destruct (datastore _ !! k); lia.
Qed.

End Registry.

(* ===================================================================== *)
(** * The API handlers, run *)
(* ===================================================================== *)

Section HandlerRuns.

Context (env : Env) (py : Interp).

Lemma set_header_run n v a :
  set_header n v a
  = (Ok tt, mkApp (world a) (datastore a) (submissions a)
              (mkResponse (status_code (response a))
                 ((n, v) :: headers (response a)) (body (response a)))).
Proof. reflexivity. Qed.

(** The request endpoint: the answer of [availablitiy], sent with its
    status code. *)
Lemma available_post_run uuid token a :
  APIDataAvailableHandler_post env uuid token a
  = match availablitiy env uuid token (with_json_header a) with
    | (Ok av, a1) => (Ok tt, answer (av_status av) (encode_availability av) a1)
    | (Raise e, a1) => (Raise e, a1)
    end.
Proof.
  unfold APIDataAvailableHandler_post, bind. rewrite set_header_run.
  fold (with_json_header a).
  destruct (availablitiy env uuid token (with_json_header a)) as [[av|e] a1];
    reflexivity.
Qed.

(** The data endpoint. *)
Lemma data_post_run uuid token a :
  APIDataHandler_post env py uuid token a
  = match availablitiy env uuid token (with_json_header a) with
    | (Ok av, a1) =>
        if bool_decide (av_status av = 200) then
          match datastore a1 !! uuid ≫= outcome with
          | Some (Ok content) =>
              (Ok tt, answer (status_code (response a1))
                        (JDict [("status", JNum 200); ("content", content)])
                        a1)
          | _ => (Ok tt, a1)
          end
        else (Ok tt, answer (av_status av) (encode_availability av) a1)
    | (Raise e, a1) => (Raise e, a1)
    end.
Proof.
  unfold APIDataHandler_post, resp, bind. rewrite set_header_run.
  fold (with_json_header a).
  destruct (availablitiy env uuid token (with_json_header a)) as [[av|e] a1];
    [|reflexivity].
  destruct (bool_decide (av_status av = 200)); simpl; [|reflexivity].
  destruct (datastore a1 !! uuid ≫= outcome) as [[content|err]|];
    reflexivity.
Qed.

(** [availablitiy] for a finished job. *)
Lemma availablitiy_done uuid token a f :
  datastore a !! uuid = Some f -> done f = true ->
  availablitiy env uuid token a
  = (match read_status uuid (world a) with
     | Ok status => Ok (mkAvailability 200 "ready" status)
     | Raise e => Raise e
     end, a).
Proof.
  intros Hf Hdone. destruct a as [w ds subs rsp]. cbn in Hf.
  unfold availablitiy, bind at 1. cbn [datastore]. rewrite Hf.
  unfold read_status, hit, json_load, bind, liftW, path_exists, ret.
  cbn [world datastore submissions response].
  generalize (status_file uuid). intros p.
  destruct (fs w !! p) as [[|[j|raw]]|] eqn:Hp; cbn; rewrite ?Hp; cbn;
    rewrite ?Hdone; reflexivity.
Qed.

(** What a request for the key [uuid] does to the datastore and to the
    submissions. *)
Lemma availablitiy_registry uuid token a r a' :
  availablitiy env uuid token a = (r, a') ->
  match datastore a !! uuid with
  | Some _ => datastore a' = datastore a /\ submissions a' = submissions a
  | None =>
      datastore a' = <[uuid := new_future env uuid token a]> (datastore a) /\
      submissions a' = (submissions a ++ [(uuid, token)])%list
  end.
Proof.
  intros H. destruct (datastore a !! uuid) as [f|] eqn:Hf.
  - destruct (availablitiy_known _ _ _ _ _ _ _ Hf H) as (Hd & Hs & _).
    now split.
  - rewrite (availablitiy_unknown _ _ _ _ Hf) in H. injection H as _ <-.
    now split.
Qed.

Lemma request_registry ev uuid token a :
  ev = RequestAvailable uuid token \/ ev = RequestData uuid token ->
  match datastore a !! uuid with
  | Some _ => datastore (step env py a ev) = datastore a
              /\ submissions (step env py a ev) = submissions a
  | None =>
      datastore (step env py a ev)
      = <[uuid := new_future env uuid token a]> (datastore a) /\
      submissions (step env py a ev)
      = (submissions a ++ [(uuid, token)])%list
  end.
Proof.
  intros Hev.
  assert (Hreg :
    forall a1, (exists r, availablitiy env uuid token
                            (with_json_header (new_request a)) = (r, a1)) ->
      match datastore a !! uuid with
      | Some _ => datastore a1 = datastore a
                  /\ submissions a1 = submissions a
      | None =>
          datastore a1
          = <[uuid := new_future env uuid token a]> (datastore a) /\
          submissions a1 = (submissions a ++ [(uuid, token)])%list
      end).
  { intros a1 [r Hr]. now apply availablitiy_registry in Hr. }
  destruct Hev as [-> | ->]; unfold step, serve.
  - rewrite available_post_run.
    destruct (availablitiy env uuid token (with_json_header (new_request a)))
      as [[av|e] a1] eqn:H; simpl; apply Hreg; eauto.
  - rewrite data_post_run.
    destruct (availablitiy env uuid token (with_json_header (new_request a)))
      as [[av|e] a1] eqn:H; simpl; [|apply Hreg; eauto].
    specialize (Hreg a1 (ex_intro _ _ eq_refl)).
    destruct (bool_decide (av_status av = 200)); [|exact Hreg].
    destruct (datastore a1 !! uuid ≫= outcome) as [[content|err]|];
      exact Hreg.
Qed.


Lemma read_status_log uuid w l :
  status_log uuid w = Some l -> read_status uuid w = Ok (JList l).
Proof.
  unfold status_log, read_status, hit, json_load. intros H.
  destruct (fs w !! status_file uuid) as [[|[[| | | |l'|]|raw]]|];
    try discriminate.
  injection H as ->. reflexivity.
Qed.

End HandlerRuns.

Section RegistryClaims.

(** C1: in every state the application reaches, a call of [availablitiy]
    for a key that is already in the datastore answers for the existing
    future (200 once it is done, 202 while it runs, or the error of
    reading the status file), whatever token the call carries; it calls
    [executor.submit] for no key, leaves the datastore as it is, and the
    key has been dispatched exactly once over the lifetime of the
    registry. *)
Theorem known_key_is_not_dispatched_again
    env py w evs a uuid token f r a' :
  a = run env py (initial_app w) evs ->
  datastore a !! uuid = Some f ->
  availablitiy env uuid token a = (r, a') ->
  submissions a' = submissions a /\
  datastore a' = datastore a /\
  dispatched uuid a' = 1%nat /\
  (forall k, dispatched k a' <= 1)%nat /\
  match r with
  | Ok av => av_status av = (if done f then 200 else 202)
  | Raise e => e = JSONDecodeError \/ os_error e
  end.
Proof.
  intros -> Hf H.
  apply (availablitiy_known _ _ _ _ _ _ _ Hf) in H
    as (Hd & Hs & _ & _ & _ & Hr).
  pose proof (run_registry_ok env py w evs) as Hok.
  split; [exact Hs|]. split; [exact Hd|].
  assert (Hsame : forall k, dispatched k a'
                            = dispatched k (run env py (initial_app w) evs)).
  { intros k. unfold dispatched. now rewrite Hs. }
  split; [|split].
  - rewrite Hsame, (Hok uuid), Hf. reflexivity.
  - intros k. rewrite Hsame. apply dispatched_at_most_once.
  - destruct r as [av|e]; [apply Hr | apply Hr].
Qed.

(** A second request for a submitted key, with another token. *)
Lemma known_key_is_not_dispatched_again_witness :
  let a := run Demo.env Demo.py (initial_app Demo.storage_world)
             [RequestAvailable "acme/widgets" (Some "token-of-ann")] in
  let second := availablitiy Demo.env "acme/widgets"
                  (Some "token-of-bob") a in
  submissions second.2 = [("acme/widgets", Some "token-of-ann")] /\
  dispatched "acme/widgets" second.2 = 1%nat.
Proof.
  intros a second.
  destruct (known_key_is_not_dispatched_again
              Demo.env Demo.py Demo.storage_world
              [RequestAvailable "acme/widgets" (Some "token-of-ann")]
              a "acme/widgets" (Some "token-of-bob")
              (mkFuture "acme/widgets" (Some "token-of-ann")
                 1000000000 None)
              second.1 second.2 eq_refl eq_refl eq_refl)
    as (Hs & _ & Hone & _).
  split; [rewrite Hs; reflexivity | exact Hone].
Defined.

(** C4, as stated, does not hold: the status query for a key that was
    never submitted changes the registry and the worker pool. *)
Lemma status_query_of_unknown_key_is_not_pure :
  ~ status_query_is_pure_read Demo.env.
Proof.
  intros Hpure.
  destruct (Hpure "acme/widgets" None (initial_app Demo.empty_world)
              _ _ eq_refl
              (availablitiy_unknown Demo.env "acme/widgets" None
                 (initial_app Demo.empty_world) eq_refl))
    as [_ Hsubs].
  discriminate Hsubs.
Qed.

(** C4, amended: the status query for a key that was never submitted
    does not fail and answers 202 with an empty stage sequence; it is not
    a pure read: it submits one pipeline execution for the key with the
    token of the query, stores the new future under the key and sets the
    status code of the response; the file system and the collaborators
    are left alone. *)
Theorem unknown_key_status_query_submits env uuid token a :
  datastore a !! uuid = None ->
  exists a',
    availablitiy env uuid token a
    = (Ok (mkAvailability 202 "Job submitted and is processing."
             (JList [])), a') /\
    submissions a' = (submissions a ++ [(uuid, token)])%list /\
    datastore a'
    = <[uuid := mkFuture uuid token (clock env (ticks (world a))) None]>
        (datastore a) /\
    status_code (response a') = 202 /\
    fs (world a') = fs (world a) /\
    trace (world a') = trace (world a).
Proof.
  intros Hnone. eexists. split; [now apply availablitiy_unknown|].
  repeat split.
Qed.

Lemma unknown_key_status_query_submits_witness :
  exists a',
    availablitiy Demo.env "acme/widgets" None
      (initial_app Demo.empty_world)
    = (Ok (mkAvailability 202 "Job submitted and is processing."
             (JList [])), a') /\
    submissions a' = [("acme/widgets", None)].
Proof.
  destruct (unknown_key_status_query_submits Demo.env "acme/widgets" None
              (initial_app Demo.empty_world) eq_refl)
    as (a' & Hrun & Hsubs & _).
  exists a'. split; [exact Hrun | exact Hsubs].
Defined.

(** [resp] asks the future for its result only when it is finished. *)
Lemma resp_finished_future env uuid token a av a' :
  availablitiy env uuid token a = (Ok av, a') ->
  av_status av = 200 ->
  exists f x, datastore a' !! uuid = Some f /\ outcome f = Some x.
Proof.
  intros H H200. destruct (datastore a !! uuid) as [f|] eqn:Hf.
  - apply (availablitiy_known _ _ _ _ _ _ _ Hf) in H
      as (Hd & _ & _ & _ & _ & Hst & _).
    rewrite Hd, Hf. rewrite H200 in Hst. unfold done in Hst.
    destruct (outcome f) as [x|] eqn:Ho; [|discriminate].
    exists f, x. split; [reflexivity | exact Ho].
  - rewrite (availablitiy_unknown _ _ _ _ Hf) in H.
    injection H as <- _. discriminate.
Qed.

(** C5, on the code: after the job of "acme/widgets" has failed (GitHub
    does not know the repository), [resp] builds the error document with
    the message and the traceback, but only returns it to [post], which
    drops it: nothing is written to the response of the result query and
    its status code stays 200. *)
Theorem failed_job_error_is_built_but_not_sent :
  let a := run Demo.env_not_found Demo.py (initial_app Demo.empty_world)
             [RequestAvailable "acme/widgets" (Some "token");
              WorkerFinishes "acme/widgets"] in
  let err := ProducerError ResolveIdentity "404 Not Found" in
  (outcome <$> datastore a !! "acme/widgets") = Some (Some (Raise err)) /\
  (resp Demo.env_not_found Demo.py "acme/widgets" (Some "token")
     (new_request a)).1
  = Ok (Some (error_response Demo.py err)) /\
  let a' := step Demo.env_not_found Demo.py a
              (RequestData "acme/widgets" (Some "token")) in
  body (response a') = None /\ status_code (response a') = 200.
Proof. vm_compute. repeat split. Qed.

End RegistryClaims.

(* ===================================================================== *)
(** * The course of a pipeline run *)
(* ===================================================================== *)

Section Pipeline.

Context (env : Env) (uuid : string).

Lemma logged_same_fs w w' ms :
  fs w' = fs w -> logged uuid w ms -> logged uuid w' ms.
Proof. intros Hfs. apply logged_frame. now rewrite Hfs. Qed.

(** Logging the start of a stage inside a run. *)
Lemma log_stage m ms w r w' :
  logged uuid w ms -> ms <> [] ->
  update_status env uuid (Some m) false w = (r, w') ->
  trace w' = trace w /\
  fs w' !! github_cache uuid = fs w !! github_cache uuid /\
  fs w' !! computed_cache uuid = fs w !! computed_cache uuid /\
  fs w' !! clone_target uuid = fs w !! clone_target uuid /\
  match r with
  | Ok _ => logged uuid w' (ms ++ [m]) /\ ticks w' = S (S (ticks w))
  | Raise e => os_error e
  end.
Proof.
  intros Hms Hne H.
  destruct (update_status_frame _ _ _ _ _ _ _ H) as (Htr & HG & HC & HT).
  repeat (split; [assumption|]).
  destruct r as [[]|e].
  - exact (update_status_next_ok _ _ _ _ _ _ Hms H).
  - apply (update_status_raise _ _ _ _ _ _ _ (or_intror (ex_intro _ ms (conj Hms Hne))) H).
Qed.

Lemma collab_run {A} s c (oracle : nat -> string + A) w r w' :
  collab s c oracle w = (r, w') ->
  fs w' = fs w /\ ticks w' = ticks w /\ trace w' = (trace w ++ [c])%list /\
  match r with
  | Ok a => oracle (length (trace w)) = inr a
  | Raise e => exists msg, e = ProducerError s msg
                           /\ oracle (length (trace w)) = inl msg
  end.
Proof. intros H. apply collab_inv in H as [-> H]. now simpl. Qed.

Lemma stargazer_entry_raise raw e :
  stargazer_entry raw = Raise e -> e = TypeError \/ exists k, e = KeyError k.
Proof.
  unfold stargazer_entry, py_getitem. intros H.
  repeat case_match; simplify_eq; eauto.
Qed.

Lemma map_result_stargazers_raise l e :
  map_result stargazer_entry l = Raise e ->
  e = TypeError \/ exists k, e = KeyError k.
Proof.
  induction l as [|x l IH]; simpl; [discriminate|].
  destruct (stargazer_entry x) as [y|e'] eqn:Hx.
  - destruct (map_result stargazer_entry l) as [ys|e'']; [discriminate|].
    intros [= <-]. now apply IH.
  - intros [= <-]. now apply stargazer_entry_raise in Hx.
Qed.

(** An error of [open], and an error of a subscript, carry no stage label
    and are no parse error. *)
Ltac os_error_case He :=
  match type of He with
  | os_error ?e => destruct e; simpl in He; first [exact I | contradiction]
  end.

Ltac python_error_case He :=
  let k := fresh "k" in
  destruct He as [->|[k ->]]; exact I.

(** The three remote fetches and the write of the artifact. *)
Lemma produce_report_inv repo t0 w r w' :
  logged uuid w ["Initial validation of repo"] ->
  fs w !! github_cache uuid = None ->
  ticks w = S t0 ->
  produce_report env uuid repo w = (r, w') ->
  fs w' !! computed_cache uuid = fs w !! computed_cache uuid /\
  fs w' !! clone_target uuid = fs w !! clone_target uuid /\
  match r with
  | Ok report =>
      fs w' !! github_cache uuid = Some (File (Parsed report)) /\
      report_sections report /\
      report_produced env repo report /\
      trace w' = (trace w ++ report_calls repo (issues_since env t0))%list /\
      logged uuid w' (report_log false)
  | Raise e =>
      fs w' !! github_cache uuid = None /\
      (exists calls,
         trace w' = (trace w ++ calls)%list /\
         calls `prefix_of` report_calls repo (issues_since env t0)) /\
      match e with
      | ProducerError s _ => s ∈ [FetchMetadata; FetchIssues; FetchStargazers]
      | JSONDecodeError => False
      | _ => True
      end
  end.
Proof.
  intros Hlog HG Ht H. unfold produce_report in H. cbn zeta in H.
  (* Fetching GitHub API data *)
  step H as [] w1 H1.
  2:{ destruct (log_stage _ _ _ _ _ Hlog ltac:(discriminate) H1)
        as (Htr & HG1 & HC1 & HT1 & He).
      repeat split; try congruence.
      - exists []. rewrite app_nil_r. split; [exact Htr | apply prefix_nil].
      - os_error_case He. }
  destruct (log_stage _ _ _ _ _ Hlog ltac:(discriminate) H1)
    as (Htr1 & HG1 & HC1 & HT1 & Hlog1 & Ht1).
  step H as raw_data w2 H2.
  2:{ apply collab_run in H2 as (Hfs2 & _ & Htr2 & msg & -> & _).
      rewrite Hfs2. repeat split; try congruence.
      - eexists. split; [rewrite Htr2, Htr1; reflexivity|].
        now exists [CGetIssues (full_name repo) "all" (issues_since env t0);
                    CGetStargazers (full_name repo)].
      - apply list_elem_of_here. }
  apply collab_run in H2 as (Hfs2 & Htk2 & Htr2 & Hraw).
  (* Fetching GitHub issues data *)
  apply (logged_same_fs _ _ _ Hfs2) in Hlog1.
  step H as [] w3 H3.
  2:{ destruct (log_stage _ _ _ _ _ Hlog1 ltac:(discriminate) H3)
        as (Htr3 & HG3 & HC3 & HT3 & He).
      rewrite Hfs2 in *. repeat split; try congruence.
      - eexists. split; [rewrite Htr3, Htr2, Htr1; reflexivity|].
        now exists [CGetIssues (full_name repo) "all" (issues_since env t0);
                    CGetStargazers (full_name repo)].
      - os_error_case He. }
  destruct (log_stage _ _ _ _ _ Hlog1 ltac:(discriminate) H3)
    as (Htr3 & HG3 & HC3 & HT3 & Hlog3 & Ht3).
  step H as now w4 H4; [|rewrite utcnow_run in H4; discriminate].
  rewrite utcnow_run in H4. injection H4 as <- <-.
  assert (Hsince : clock env (ticks w3) - timedelta_days 30
                   = issues_since env t0).
  { unfold issues_since. do 2 f_equal. lia. }
  rewrite Hsince in H.
  step H as issues w5 H5.
  2:{ apply collab_run in H5 as (Hfs5 & _ & Htr5 & msg & -> & _).
      simpl in Hfs5, Htr5. rewrite Hfs5, Hfs2 in *.
      repeat split; try congruence.
      - eexists. split.
        + rewrite Htr5, Htr3, Htr2, Htr1, <- app_assoc. reflexivity.
        + now exists [CGetStargazers (full_name repo)].
      - apply list_elem_of_further, list_elem_of_here. }
  apply collab_run in H5 as (Hfs5 & Htk5 & Htr5 & Hissues).
  simpl in Hfs5, Htk5, Htr5.
  (* Fetching GitHub stargazer data *)
  apply (logged_same_fs _ _ _ Hfs5) in Hlog3.
  step H as [] w6 H6.
  2:{ destruct (log_stage _ _ _ _ _ Hlog3 ltac:(discriminate) H6)
        as (Htr6 & HG6 & HC6 & HT6 & He).
      rewrite Hfs5, Hfs2 in *. repeat split; try congruence.
      - eexists. split.
        + rewrite Htr6, Htr5, Htr3, Htr2, Htr1, <- app_assoc. reflexivity.
        + now exists [CGetStargazers (full_name repo)].
      - os_error_case He. }
  destruct (log_stage _ _ _ _ _ Hlog3 ltac:(discriminate) H6)
    as (Htr6 & HG6 & HC6 & HT6 & Hlog6 & Ht6).
  assert (Hcalls : forall w7, trace w7 = (trace w6 ++ [CGetStargazers (full_name repo)])%list ->
            trace w7 = (trace w ++ report_calls repo (issues_since env t0))%list).
  { intros w7 ->. rewrite Htr6, Htr5, Htr3, Htr2, Htr1, <- !app_assoc.
    reflexivity. }
  step H as stargazers w7 H7.
  2:{ apply collab_run in H7 as (Hfs7 & _ & Htr7 & msg & -> & _).
      rewrite Hfs7, Hfs5, Hfs2 in *. repeat split; try congruence.
      - eexists. split; [now apply Hcalls | reflexivity].
      - do 2 apply list_elem_of_further. apply list_elem_of_here. }
  apply collab_run in H7 as (Hfs7 & Htk7 & Htr7 & Hstars).
  apply Hcalls in Htr7.
  step H as stargazer_data w8 H8.
  2:{ apply lift_inv in H8 as [H8 ->].
      rewrite Hfs7, Hfs5, Hfs2 in *. repeat split; try congruence.
      - eexists. split; [exact Htr7 | reflexivity].
      - symmetry in H8. apply map_result_stargazers_raise in H8.
        python_error_case H8. }
  apply lift_inv in H8 as [Hentries ->].
  step H as [] w9 H9.
  2:{ apply json_dump_inv in H9 as [[? _]|(e' & [= <-] & He & ->)];
        [discriminate|].
      rewrite Hfs7, Hfs5, Hfs2 in *. repeat split; try congruence.
      - eexists. split; [exact Htr7 | reflexivity].
      - os_error_case He. }
  apply json_dump_inv in H9 as [[_ ->]|(e' & ? & _)]; [|discriminate].
  apply ret_inv in H as [-> ->]. simpl.
  pose proof (github_neq_computed uuid). pose proof (github_neq_target uuid).
  pose proof (status_neq_github uuid).
  rewrite lookup_insert_eq, !lookup_insert_ne by congruence.
  rewrite Hfs7, Hfs5, Hfs2 in *.
  split; [congruence|]. split; [congruence|]. split; [reflexivity|].
  split; [|split; [|split; [exact Htr7|]]].
  - eexists _, _, _. split; [reflexivity|]. apply firstn_le_length.
  - exists raw_data, issues, stargazers, stargazer_data.
    eexists _, _, _, _. split; [exact Hraw|]. split; [exact Hissues|].
    split; [exact Hstars|]. split; [now symmetry | reflexivity].
  - apply (logged_frame uuid w6); [|exact Hlog6].
    simpl. rewrite lookup_insert_ne by congruence.
    rewrite ?Hfs7. reflexivity.
Qed.

(** What git writes stays below the working copy. *)
Lemma worktree_at_lookup n target f p :
  inside target p = false -> worktree_at env n target f !! p = f !! p.
Proof.
  intros Hp. unfold worktree_at. now rewrite replace_below_lookup, Hp.
Qed.

Lemma fetch_remotes_inv target w r w' :
  fetch_remotes env target w = (r, w') ->
  ticks w' = ticks w /\
  trace w' = (trace w ++ [CFetchRemotes target])%list /\
  (forall p, inside target p = false -> fs w' !! p = fs w !! p) /\
  match r with
  | Ok _ => True
  | Raise e => exists msg, e = ProducerError LocalMirror msg
  end.
Proof.
  intros H. unfold fetch_remotes in H. apply collab_writing_inv in H as [-> Hr]. simpl.
  split; [reflexivity|]. split; [reflexivity|]. split.
  - intros p Hp. now apply worktree_at_lookup.
  - destruct r as [[]|e]; [exact I|]. destruct Hr as (msg & -> & _).
    now exists msg.
Qed.

Lemma clone_from_inv url target w r w' :
  clone_from env url target w = (r, w') ->
  ticks w' = ticks w /\
  trace w' = (trace w ++ [CCloneFrom url target])%list /\
  (forall p, inside target p = false -> p <> target ->
             fs w' !! p = fs w !! p) /\
  match r with
  | Ok _ => fs w' !! target = Some Dir
  | Raise e =>
      (exists msg, e = ProducerError LocalMirror msg) /\
      (fs w' !! target = fs w !! target \/ fs w' !! target = Some Dir)
  end.
Proof.
  intros H. unfold clone_from in H.
  apply collab_writing_inv in H as [-> Hr]. simpl.
  split; [reflexivity|]. split; [reflexivity|].
  assert (Hcloned : forall n p,
            inside target p = false ->
            worktree_at env n target (<[target := Dir]> (fs w)) !! p
            = if decide (p = target) then Some Dir else fs w !! p).
  { intros n p Hp. rewrite worktree_at_lookup by exact Hp.
    destruct (decide (p = target)) as [->|Hne].
    - apply lookup_insert_eq.
    - now apply lookup_insert_ne. }
  split.
  - intros p Hp Hne.
    destruct (git_clone_from env (length (trace w)) url target);
      [destruct (git_clone_remains env (length (trace w)) target)|];
      rewrite ?Hcloned by exact Hp;
      try (destruct (decide (p = target)) as [Hc|_]; [contradiction|]);
      reflexivity.
  - pose proof (Hcloned (length (trace w)) target (inside_self target))
      as Ht.
    destruct (decide (target = target)) as [_|Hc]; [|contradiction].
    destruct r as [[]|e].
    + now rewrite Hr.
    + destruct Hr as (msg & -> & ->). split; [now exists msg|].
      destruct (git_clone_remains env (length (trace w)) target);
        [now right | now left].
Qed.

(** Fetching the remotes of the cached clone, or cloning. *)
Lemma obtain_mirror_inv repo ms w r w' :
  logged uuid w ms -> ms <> [] ->
  obtain_mirror env uuid repo (hit w (clone_target uuid)) w = (r, w') ->
  fs w' !! github_cache uuid = fs w !! github_cache uuid /\
  fs w' !! computed_cache uuid = fs w !! computed_cache uuid /\
  match r with
  | Ok _ =>
      fs w' !! clone_target uuid
      = (if hit w (clone_target uuid) then fs w !! clone_target uuid
         else Some Dir) /\
      trace w' = (trace w
                  ++ if hit w (clone_target uuid)
                     then [CGitRepo (clone_target uuid);
                           CFetchRemotes (clone_target uuid)]
                     else [CCloneFrom (clone_url repo) (clone_target uuid)])%list /\
      logged uuid w'
        (ms ++ [if hit w (clone_target uuid)
                then "Fetching remotes from cached clone"
                else "Cloning repo"])
  | Raise e =>
      (fs w' !! clone_target uuid = fs w !! clone_target uuid \/
       (fs w !! clone_target uuid = None /\
        fs w' !! clone_target uuid = Some Dir)) /\
      (exists calls,
         trace w' = (trace w ++ calls)%list /\
         calls `prefix_of`
           (if hit w (clone_target uuid)
            then [CGitRepo (clone_target uuid);
                  CFetchRemotes (clone_target uuid)]
            else [CCloneFrom (clone_url repo) (clone_target uuid)])) /\
      match e with
      | ProducerError s _ => s = LocalMirror
      | JSONDecodeError => False
      | _ => True
      end
  end.
Proof.
  intros Hlog Hne H. unfold obtain_mirror in H. cbn zeta in H.
  pose proof (github_not_inside uuid) as HGin.
  pose proof (computed_not_inside uuid) as HCin.
  pose proof (status_not_inside uuid) as HSin.
  pose proof (inside_self (clone_target uuid)) as HTin.
  destruct (hit w (clone_target uuid)) eqn:Hhit.
  - (* a cached clone *)
    step H as [] w1 H1.
    2:{ destruct (log_stage _ _ _ _ _ Hlog Hne H1)
          as (Htr & HG1 & HC1 & HT1 & He).
        split; [exact HG1|]. split; [exact HC1|]. split; [now left|]. split.
        - exists []. rewrite app_nil_r. split; [exact Htr | apply prefix_nil].
        - os_error_case He. }
    destruct (log_stage _ _ _ _ _ Hlog Hne H1)
      as (Htr1 & HG1 & HC1 & HT1 & Hlog1 & Ht1).
    step H as [] w2 H2.
    2:{ apply collab_run in H2 as (Hfs2 & _ & Htr2 & msg & -> & _).
        rewrite Hfs2. split; [exact HG1|]. split; [exact HC1|].
        split; [now left|]. split; [|reflexivity].
        eexists. split; [rewrite Htr2, Htr1; reflexivity|].
        now exists [CFetchRemotes (clone_target uuid)]. }
    apply collab_run in H2 as (Hfs2 & _ & Htr2 & _).
    apply fetch_remotes_inv in H as (_ & Htr3 & Hfs3 & Hr).
    rewrite !Hfs3, Hfs2 by assumption.
    split; [exact HG1|]. split; [exact HC1|].
    assert (Htrace : trace w' = (trace w ++ [CGitRepo (clone_target uuid);
                                             CFetchRemotes (clone_target uuid)])%list)
      by (rewrite Htr3, Htr2, Htr1, <- app_assoc; reflexivity).
    destruct r as [[]|e].
    + split; [exact HT1|]. split; [exact Htrace|].
      apply (logged_frame uuid w1); [|exact Hlog1].
      rewrite Hfs3 by assumption. now rewrite Hfs2.
    + destruct Hr as [msg ->]. split; [now left|]. split; [|reflexivity].
      eexists. split; [exact Htrace | reflexivity].
  - (* no clone yet *)
    step H as [] w1 H1.
    2:{ destruct (log_stage _ _ _ _ _ Hlog Hne H1)
          as (Htr & HG1 & HC1 & HT1 & He).
        split; [exact HG1|]. split; [exact HC1|]. split; [now left|]. split.
        - exists []. rewrite app_nil_r. split; [exact Htr | apply prefix_nil].
        - os_error_case He. }
    destruct (log_stage _ _ _ _ _ Hlog Hne H1)
      as (Htr1 & HG1 & HC1 & HT1 & Hlog1 & Ht1).
    apply clone_from_inv in H as (_ & Htr2 & Hfs2 & Hr).
    pose proof (github_neq_target uuid). pose proof (computed_neq_target uuid).
    pose proof (status_neq_target uuid).
    rewrite !Hfs2 by assumption.
    split; [exact HG1|]. split; [exact HC1|].
    assert (Htrace : trace w' = (trace w ++ [CCloneFrom (clone_url repo)
                                               (clone_target uuid)])%list)
      by (rewrite Htr2, Htr1; reflexivity).
    destruct r as [[]|e].
    + split; [exact Hr|]. split; [exact Htrace|].
      apply (logged_frame uuid w1); [|exact Hlog1].
      now rewrite Hfs2 by assumption.
    + destruct Hr as [[msg ->] Hleft]. split; [|split; [|reflexivity]].
      * destruct Hleft as [Hsame|Hdir]; [left; congruence|].
        right. split; [|exact Hdir]. now apply hit_false.
      * eexists. split; [exact Htrace | reflexivity].
Qed.

(** Mirroring, analysing and writing the [_computed.json] artifact. *)
Lemma produce_repo_data_inv repo ms w r w' :
  logged uuid w ms -> ms <> [] ->
  fs w !! computed_cache uuid = None ->
  produce_repo_data env uuid repo w = (r, w') ->
  fs w' !! github_cache uuid = fs w !! github_cache uuid /\
  match r with
  | Ok repo_data =>
      fs w' !! computed_cache uuid = Some (File (Parsed repo_data)) /\
      fs w' !! clone_target uuid
      = (if hit w (clone_target uuid) then fs w !! clone_target uuid
         else Some Dir) /\
      trace w' = (trace w
                  ++ mirror_calls uuid repo (hit w (clone_target uuid)))%list /\
      logged uuid w'
        (ms ++ repo_data_log false (hit w (clone_target uuid))) /\
      exists n, git_commits env n (clone_target uuid) = inr repo_data
  | Raise e =>
      fs w' !! computed_cache uuid = None /\
      (exists calls,
         trace w' = (trace w ++ calls)%list /\
         calls `prefix_of`
           mirror_calls uuid repo (hit w (clone_target uuid))) /\
      match e with
      | ProducerError s _ =>
          (s = LocalMirror /\
           (fs w' !! clone_target uuid = fs w !! clone_target uuid \/
            (fs w !! clone_target uuid = None /\
             fs w' !! clone_target uuid = Some Dir))) \/
          (s = DerivedAnalysis /\
           fs w' !! clone_target uuid
           = if hit w (clone_target uuid) then fs w !! clone_target uuid
             else Some Dir)
      | JSONDecodeError => False
      | _ => True
      end
  end.
Proof.
  intros Hlog Hne HC H. unfold produce_repo_data in H. cbn zeta in H.
  step H as mirror w0 H0; [|rewrite path_exists_run in H0; discriminate].
  rewrite path_exists_run in H0. injection H0 as <- <-.
  step H as [] w1 H1.
  2:{ destruct (obtain_mirror_inv _ _ _ _ _ Hlog Hne H1)
        as (HG1 & HC1 & HT1 & (calls & Htr & Hpre) & He).
      split; [exact HG1|]. split; [congruence|]. split.
      - exists calls. split; [exact Htr|].
        unfold mirror_calls. now apply prefix_app_r.
      - destruct e; try exact I; [left; split; [exact He | exact HT1]
                                 | contradiction]. }
  destruct (obtain_mirror_inv _ _ _ _ _ Hlog Hne H1)
    as (HG1 & HC1 & HT1 & Htr1 & Hlog1).
  assert (Hne1 : (ms ++ [if hit w (clone_target uuid)
                         then "Fetching remotes from cached clone"
                         else "Cloning repo"])%list <> [])
    by (intros Hnil; apply app_eq_nil in Hnil as [_ ?]; discriminate).
  step H as [] w2 H2.
  2:{ destruct (log_stage _ _ _ _ _ Hlog1 Hne1 H2)
        as (Htr2 & HG2 & HC2 & HT2 & He).
      split; [congruence|]. split; [congruence|]. split.
      - eexists. split; [rewrite Htr2, Htr1; reflexivity|].
        unfold mirror_calls. now apply prefix_app_r.
      - os_error_case He. }
  destruct (log_stage _ _ _ _ _ Hlog1 Hne1 H2)
    as (Htr2 & HG2 & HC2 & HT2 & Hlog2 & Ht2).
  assert (Hcalls : forall w3,
            trace w3 = (trace w2 ++ [CCommits (clone_target uuid)])%list ->
            trace w3 = (trace w ++ mirror_calls uuid repo
                                     (hit w (clone_target uuid)))%list).
  { intros w3 ->. rewrite Htr2, Htr1, <- app_assoc. reflexivity. }
  step H as repo_data w3 H3.
  2:{ apply collab_run in H3 as (Hfs3 & _ & Htr3 & msg & -> & _).
      rewrite Hfs3. split; [congruence|]. split; [congruence|]. split.
      - eexists. split; [now apply Hcalls | reflexivity].
      - right. split; [reflexivity|]. now rewrite HT2. }
  apply collab_run in H3 as (Hfs3 & _ & Htr3 & Hcommits).
  apply Hcalls in Htr3.
  step H as [] w4 H4.
  2:{ apply json_dump_inv in H4 as [[? _]|(e' & [= <-] & He & ->)];
        [discriminate|].
      rewrite Hfs3. split; [congruence|]. split; [congruence|]. split.
      - eexists. split; [exact Htr3 | reflexivity].
      - os_error_case He. }
  apply json_dump_inv in H4 as [[_ ->]|(e' & ? & _)]; [|discriminate].
  apply ret_inv in H as [-> ->]. simpl.
  pose proof (github_neq_computed uuid). pose proof (computed_neq_target uuid).
  pose proof (status_neq_computed uuid).
  rewrite lookup_insert_eq, !lookup_insert_ne by congruence.
  rewrite Hfs3. split; [congruence|]. split; [reflexivity|].
  split; [now rewrite HT2|]. split; [exact Htr3|].
  split; [|eexists; exact Hcommits].
  apply (logged_frame uuid w2).
  - simpl. rewrite lookup_insert_ne by congruence. congruence.
  - unfold repo_data_log. now rewrite <- app_assoc in Hlog2.
Qed.

(** Every run of [fetch_repo_data] follows the course of the four
    phases. *)
Lemma fetch_repo_data_course token w r w' :
  fetch_repo_data env uuid token w = (r, w') ->
  run_course env uuid token w r w'.
Proof.
  intros H. unfold fetch_repo_data in H. cbn zeta in H.
  unfold run_course, start_fails, finish_ok, finish_fails.
  (* the storage location *)
  step H as dir_exists w0 H0; [|rewrite path_exists_run in H0; discriminate].
  rewrite path_exists_run in H0. injection H0 as <- <-.
  assert (Hdirs : forall rd w1,
    (if negb (hit w (os_path_dirname (github_cache uuid)))
     then makedirs (os_path_dirname (github_cache uuid))
     else ret ()) w = (rd, w1) ->
    ticks w1 = ticks w /\ trace w1 = trace w /\
    fs w1 !! github_cache uuid = fs w !! github_cache uuid /\
    fs w1 !! computed_cache uuid = fs w !! computed_cache uuid /\
    fs w1 !! clone_target uuid = fs w !! clone_target uuid /\
    match rd with Ok _ => True | Raise e => os_error e end).
  { intros rd w1 Hrd.
    destruct (hit w (os_path_dirname (github_cache uuid))) eqn:Hhit;
      simpl in Hrd.
    - apply ret_inv in Hrd as [-> ->]. repeat split.
    - apply makedirs_inv in Hrd as (Htk & Htr & Hfresh & _ & Hrd).
      assert (Hk : forall p,
                (forall q, q ∈ dir_prefixes
                                 (os_path_dirname (github_cache uuid)) ->
                           q <> p) ->
                fs w1 !! p = fs w !! p).
      { intros p Hp. apply Hfresh. intros Hin. now apply (Hp p). }
      split; [exact Htk|]. split; [exact Htr|].
      split; [|split; [|split]].
      + apply Hk. intros q Hq. apply (storage_dirs_fresh uuid q Hq).
      + apply Hk. intros q Hq. apply (storage_dirs_fresh uuid q Hq).
      + apply Hk. intros q Hq. apply (storage_dirs_fresh uuid q Hq).
      + destruct rd; [exact I|]. apply Hrd. now apply hit_false. }
  step H as [] w1 H1.
  2:{ apply Hdirs in H1 as (_ & Htr & HG & HC & HT & He).
      left. exists e. split; [reflexivity|].
      repeat split; try assumption. now left. }
  apply Hdirs in H1 as (Htk1 & Htr1 & HG1 & HC1 & HT1 & _). clear Hdirs.
  (* Initial validation of repo *)
  step H as [] w2 H2.
  2:{ destruct (update_status_frame _ _ _ _ _ _ _ H2) as (Htr & HG & HC & HT).
      apply (update_status_raise _ _ _ _ _ _ _ (or_introl eq_refl)) in H2
        as [He _].
      left. exists e. split; [reflexivity|].
      repeat split; try congruence. left. split; [congruence | exact He]. }
  destruct (update_status_frame _ _ _ _ _ _ _ H2) as (Htr2 & HG2 & HC2 & HT2).
  apply update_status_reset_ok in H2 as [Hlog2 Htk2].
  step H as repo wA HA.
  2:{ apply collab_run in HA as (Hfs & _ & Htr & msg & -> & Hmsg).
      left. eexists. split; [reflexivity|]. rewrite Hfs.
      repeat split; try congruence. right. split; [congruence|].
      exists msg. split; [reflexivity|]. now rewrite <- Htr1, <- Htr2. }
  apply collab_run in HA as (HfsA & HtkA & HtrA & Hrepo).
  assert (Hstart : start_ok env uuid token w wA repo).
  { unfold start_ok. rewrite HfsA. repeat split; try congruence.
    now apply (logged_same_fs w2). }
  right. exists repo, wA. split; [exact Hstart|].
  assert (HlogA : logged uuid wA ["Initial validation of repo"])
    by apply Hstart.
  assert (HtkA' : ticks wA = S (ticks w)) by apply Hstart.
  clear Hstart Htk1 Htr1 HG1 HC1 HT1 Htr2 HG2 HC2 HT2 Hlog2 Htk2 HfsA HtkA
        HtrA Hrepo w1 w2.
  (* the report *)
  step H as cached w0 H0; [|rewrite path_exists_run in H0; discriminate].
  rewrite path_exists_run in H0. injection H0 as <- <-.
  assert (Hreport : forall rr wB,
    (if hit wA (github_cache uuid)
     then do_ update_status env uuid
                (Some "Load GitHub API data from ephemeral cache") false;
          json_load (github_cache uuid)
     else produce_report env uuid repo) wA = (rr, wB) ->
    match rr with
    | Ok report => report_ok env uuid w wA wB repo report
    | Raise e => report_fails env uuid w wA wB repo e
    end).
  { intros rr wB Hrr. unfold report_ok, report_fails.
    destruct (hit wA (github_cache uuid)) eqn:Hhit.
    - step Hrr as [] w1 H1.
      2:{ destruct (log_stage _ _ _ _ _ HlogA ltac:(discriminate) H1)
            as (Htr & HG & HC & HT & He).
          repeat split; try assumption.
          - exists []. rewrite app_nil_r. split; [exact Htr | reflexivity].
          - now right.
          - os_error_case He. }
      destruct (log_stage _ _ _ _ _ HlogA ltac:(discriminate) H1)
        as (Htr & HG & HC & HT & Hlog & _).
      apply json_load_inv in Hrr as [-> Hload].
      destruct rr as [report|e].
      + repeat split; try assumption. congruence.
      + repeat split; try assumption.
        * exists []. rewrite app_nil_r. split; [exact Htr | reflexivity].
        * destruct Hload as [[-> _]|He]; [now left | now right].
        * destruct Hload as [[-> [raw Hraw]]|He].
          -- exists raw. congruence.
          -- os_error_case He.
    - assert (HnoneA : fs wA !! github_cache uuid = None).
      { unfold hit in Hhit. apply bool_decide_eq_false_1 in Hhit.
        destruct (fs wA !! github_cache uuid); [|reflexivity].
        exfalso. apply Hhit. eauto. }
      destruct (produce_report_inv _ _ _ _ _ HlogA HnoneA HtkA' Hrr)
        as (HC & HT & Hrr').
      destruct rr as [report|e].
      + destruct Hrr' as (HG & Hsec & Hprod & Htr & Hlog).
        repeat split; assumption.
      + destruct Hrr' as (HG & Htr & He).
        repeat split; try assumption; try congruence.
        destruct e; try exact I; [now split | contradiction]. }
  step H as report wB HB.
  2:{ apply Hreport in HB. left. exists e. now split. }
  apply Hreport in HB. clear Hreport. right. exists report, wB.
  split; [exact HB|]. cbn zeta.
  assert (HlogB : logged uuid wB (report_log (hit wA (github_cache uuid))))
    by apply HB.
  assert (HneB : report_log (hit wA (github_cache uuid)) <> [])
    by discriminate.
  clear HB HlogA HtkA'.
  (* the repository data *)
  step H as cached w0 H0; [|rewrite path_exists_run in H0; discriminate].
  rewrite path_exists_run in H0. injection H0 as <- <-.
  assert (Hdata : forall rr wC,
    (if negb (hit wB (computed_cache uuid))
     then produce_repo_data env uuid repo
     else do_ update_status env uuid
                (Some "Load commit from ephemeral cache") false;
          json_load (computed_cache uuid)) wB = (rr, wC) ->
    match rr with
    | Ok repo_data =>
        repo_data_ok env uuid wB wC repo
          (report_log (hit wA (github_cache uuid))) repo_data
    | Raise e => repo_data_fails uuid wB wC repo e
    end).
  { intros rr wC Hrr. unfold repo_data_ok, repo_data_fails.
    destruct (hit wB (computed_cache uuid)) eqn:Hhit; simpl in Hrr.
    - step Hrr as [] w1 H1.
      2:{ destruct (log_stage _ _ _ _ _ HlogB HneB H1)
            as (Htr & HG & HC & HT & He).
          repeat split; try assumption.
          - exists []. rewrite app_nil_r. split; [exact Htr | reflexivity].
          - now right.
          - os_error_case He. }
      destruct (log_stage _ _ _ _ _ HlogB HneB H1)
        as (Htr & HG & HC & HT & Hlog & _).
      apply json_load_inv in Hrr as [-> Hload].
      destruct rr as [repo_data|e].
      + repeat split; try assumption. congruence.
      + repeat split; try assumption.
        * exists []. rewrite app_nil_r. split; [exact Htr | reflexivity].
        * destruct Hload as [[-> _]|He]; [now left | now right].
        * destruct Hload as [[-> [raw Hraw]]|He].
          -- exists raw. congruence.
          -- os_error_case He.
    - assert (HnoneB : fs wB !! computed_cache uuid = None).
      { unfold hit in Hhit. apply bool_decide_eq_false_1 in Hhit.
        destruct (fs wB !! computed_cache uuid); [|reflexivity].
        exfalso. apply Hhit. eauto. }
      destruct (produce_repo_data_inv _ _ _ _ _ HlogB HneB HnoneB Hrr)
        as (HG & Hrr').
      destruct rr as [repo_data|e].
      + destruct Hrr' as (HC & HT & Htr & Hlog & Hn).
        repeat split; assumption.
      + destruct Hrr' as (HC & Htr & He).
        repeat split; try assumption; try congruence.
        destruct e; try exact I; [now split | contradiction]. }
  step H as repo_data wC HC.
  2:{ apply Hdata in HC. left. exists e. now split. }
  apply Hdata in HC. clear Hdata. right. exists repo_data, wC.
  split; [exact HC|]. cbn zeta.
  assert (HlogC : logged uuid wC
                    (expected_log (hit wA (github_cache uuid))
                       (hit wB (computed_cache uuid))
                       (hit wB (clone_target uuid))))
    by apply HC.
  clear HC HlogB HneB.
  (* the end *)
  step H as [] wD HD.
  2:{ destruct (update_status_frame _ _ _ _ _ _ _ HD) as (Htr & HG & HC & HT).
      assert (Hpre : false = true \/
                (exists ms, logged uuid wC ms /\ ms <> [])).
      { right. eexists. split; [exact HlogC | discriminate]. }
      apply (update_status_raise _ _ _ _ _ _ _ Hpre) in HD as [He _].
      left. exists e. split; [reflexivity|].
      repeat split; try assumption. now left. }
  destruct (update_status_frame _ _ _ _ _ _ _ HD) as (Htr & HG & HC & HT).
  apply (update_status_close_ok _ _ _ _ _ HlogC) in HD as [HlogD _].
  step H as payload wE HE.
  2:{ apply lift_inv in HE as [HE ->]. left. exists e.
      split; [reflexivity|]. repeat split; try assumption. right.
      destruct repo_data; simpl in HE; congruence. }
  apply lift_inv in HE as [HE ->]. apply ret_inv in H as [-> ->].
  right. exists payload. split; [reflexivity|].
  repeat split; try assumption. now symmetry.
Qed.

End Pipeline.

(* ===================================================================== *)
(** * A job from the worker to the result query *)
(* ===================================================================== *)

Section Jobs.

Context (env : Env) (py : Interp).

(** A run that returns leaves a status log that can be read. *)
Lemma returned_run_status_log uuid token w payload w' :
  fetch_repo_data env uuid token w = (Ok payload, w') ->
  exists l, status_log uuid w' = Some l.
Proof.
  intros H.
  destruct (fetch_repo_data_course _ _ _ _ _ _ H)
    as [(e & [=] & _)
       |(repo & wA & _ &
         [(e & [=] & _)
         |(report & wB & _ &
           [(e & [=] & _)
           |(rd & wC & _ &
             [(e & [=] & _)|(payload' & _ & HD)])])])].
  cbn zeta in HD. destruct HD as (_ & _ & _ & _ & (l & Hl & _) & _).
  now exists l.
Qed.

(** A status update that returns has written into a directory. *)
Lemma update_status_parent_dir uuid msg clear w w' :
  update_status env uuid msg clear w = (Ok tt, w') ->
  fs w' !! os_path_dirname (status_file uuid) = Some Dir
  \/ implicit_dir (os_path_dirname (status_file uuid)) = true.
Proof.
  unfold update_status. intros H.
  step_ok H as ex w0 Hex. step_ok H as st w1 H1. step_ok H as st' w2 H2.
  apply json_dump_ok in H as [[Hdir|Himp] ->]; [left | now right].
  simpl. rewrite lookup_insert_ne; [|apply not_eq_sym, dirname_shorter].
  assert (Hfs : fs w2 = fs w).
  { assert (Hfs0 : fs w0 = fs w).
    { rewrite path_exists_run in Hex. now injection Hex as _ <-. }
    assert (Hfs1 : fs w1 = fs w0).
    { destruct (negb ex || clear).
      - now apply ret_inv in H1 as [_ ->].
      - step_ok H1 as loaded w3 H3. apply json_load_inv in H3 as [-> _].
        step_ok H1 as now w4 H4. rewrite utcnow_run in H4.
        injection H4 as _ <-. now apply lift_inv in H1 as [_ ->]. }
    assert (Hfs2 : fs w2 = fs w1).
    { destruct msg.
      - step_ok H2 as now w3 H3. rewrite utcnow_run in H3.
        injection H3 as _ <-. now apply lift_inv in H2 as [_ ->].
      - now apply ret_inv in H2 as [_ ->]. }
    congruence. }
  exact Hdir.
Qed.

(** After a run that returned, the directory of the files of a relative
    key is a directory. *)
Lemma returned_run_parent_dir uuid token w payload w' :
  starts_with_slash uuid = false ->
  fetch_repo_data env uuid token w = (Ok payload, w') ->
  fs w' !! os_path_dirname (status_file uuid) = Some Dir.
Proof.
  intros Hrel H. unfold fetch_repo_data in H. cbn zeta in H.
  step_ok H as ex w0 H0. step_ok H as u1 w1 H1. step_ok H as u2 w2 H2.
  step_ok H as repo w3 H3. step_ok H as c1 w4 H4.
  step_ok H as report w5 H5. step_ok H as c2 w6 H6.
  step_ok H as rd w7 H7. step_ok H as u3 w8 H8.
  step_ok H as rd' w9 H9. apply lift_inv in H9 as [_ ->].
  apply ret_inv in H as [_ ->]. destruct u3.
  apply update_status_parent_dir in H8 as [Hdir|Himp]; [exact Hdir|].
  destruct (dirname_of_status uuid Hrel) as [d Hd].
  rewrite Hd in Himp. discriminate.
Qed.

(** The worker stores what the run of the submitted call gave, a value or
    an exception, in the future of the key. *)
Lemma worker_stores_outcome k a f r w' :
  datastore a !! k = Some f -> outcome f = None ->
  fetch_repo_data env (fut_uuid f) (fut_token f) (world a) = (r, w') ->
  worker_run env k a
  = mkApp w'
      (<[k := mkFuture (fut_uuid f) (fut_token f) (start_time f) (Some r)]>
         (datastore a))
      (submissions a) (response a).
Proof.
  intros Hf Ho Hrun. unfold worker_run, done. now rewrite Hf, Ho, Hrun.
Qed.

(** The result query that follows a job completed with a payload. *)
Lemma completed_job_query a k f t payload w' :
  datastore a !! k = Some f -> done f = false -> fut_uuid f = k ->
  fetch_repo_data env k (fut_token f) (world a) = (Ok payload, w') ->
  step env py (worker_run env k a) (RequestData k t)
  = mkApp w'
      (<[k := mkFuture k (fut_token f) (start_time f) (Some (Ok payload))]>
         (datastore a))
      (submissions a)
      (mkResponse 200 [("Content-Type", "application/json")]
         (Some (JDict [("status", JNum 200); ("content", payload)]))).
Proof.
  intros Hf Hrunning Hk Hrun.
  destruct (returned_run_status_log _ _ _ _ _ Hrun) as [l Hl].
  apply read_status_log in Hl.
  assert (Ho : outcome f = None).
  { unfold done in Hrunning. now destruct (outcome f). }
  rewrite <- Hk in Hrun at 1.
  rewrite (worker_stores_outcome _ _ _ _ _ Hf Ho Hrun), Hk.
  set (f1 := mkFuture k (fut_token f) (start_time f) (Some (Ok payload))).
  set (a1 := mkApp w' (<[k:=f1]> (datastore a)) (submissions a)
               (response a)).
  assert (Hf1 : datastore (with_json_header (new_request a1)) !! k = Some f1)
    by apply lookup_insert_eq.
  unfold step, serve. rewrite data_post_run.
  rewrite (availablitiy_done env k t _ f1 Hf1 eq_refl).
  change (world (with_json_header (new_request a1))) with w'.
  rewrite Hl. cbn [av_status]. rewrite bool_decide_eq_true_2 by reflexivity.
  rewrite Hf1. reflexivity.
Qed.

End Jobs.

(* ===================================================================== *)
(** * Properties of a pipeline run *)
(* ===================================================================== *)

Section PipelineClaims.

Context (env : Env) (uuid : string) (token : option string).

Lemma report_ok_trace w wA wB repo report :
  report_ok env uuid w wA wB repo report ->
  trace wB = (trace wA ++ if hit wA (github_cache uuid) then []
                          else report_calls repo (issues_since env (ticks w)))%list.
Proof.
  intros (_ & _ & _ & _ & H). destruct (hit wA (github_cache uuid)).
  - rewrite app_nil_r. apply H.
  - apply H.
Qed.

Lemma repo_data_ok_trace wB wC repo ms repo_data :
  repo_data_ok env uuid wB wC repo ms repo_data ->
  trace wC = (trace wB ++ if hit wB (computed_cache uuid) then []
                          else mirror_calls uuid repo
                                 (hit wB (clone_target uuid)))%list.
Proof.
  intros (_ & _ & _ & H). destruct (hit wB (computed_cache uuid)).
  - rewrite app_nil_r. apply H.
  - apply H.
Qed.

(** The collaborator calls of a run, whatever its outcome, are an initial
    part of the calls expected from the artifacts found on disk; a run that
    returns has made them all. *)
Lemma run_calls w r w' :
  fetch_repo_data env uuid token w = (r, w') ->
  exists repo calls,
    trace w' = (trace w ++ calls)%list /\
    calls `prefix_of`
      expected_calls uuid token repo (issues_since env (ticks w))
        (hit w (github_cache uuid)) (hit w (computed_cache uuid))
        (hit w (clone_target uuid)) /\
    (forall payload, r = Ok payload ->
       calls = expected_calls uuid token repo (issues_since env (ticks w))
                 (hit w (github_cache uuid)) (hit w (computed_cache uuid))
                 (hit w (clone_target uuid))).
Proof.
  intros H. unfold expected_calls.
  destruct (fetch_repo_data_course _ _ _ _ _ _ H)
    as [(e & -> & Hs)
       |(repo & wA & HA &
         [(e & -> & HB)
         |(report & wB & HB &
           [(e & -> & HC)
           |(rd & wC & HC &
             [(e & -> & HD)|(payload & -> & HD)])])])].
  - (* the start fails *)
    exists (mkGhRepo "" "").
    destruct Hs as (_ & _ & _ & [[Htr _]|[Htr _]]).
    + exists []. rewrite app_nil_r.
      split; [exact Htr|]. split; [apply prefix_nil | discriminate].
    + exists [CGetRepo token uuid].
      split; [exact Htr|]. split; [|discriminate].
      now apply prefix_app_r.
  - (* the report fails *)
    destruct HA as (HGA & _ & _ & HtrA & _).
    destruct HB as (_ & _ & _ & (calls & Htr & Hpre) & _).
    rewrite (hit_eq _ _ _ HGA) in Hpre.
    exists repo, ([CGetRepo token uuid] ++ calls)%list.
    split; [rewrite Htr, HtrA, <- app_assoc; reflexivity|].
    split; [|discriminate].
    apply prefix_app. now apply prefix_app_r.
  - (* the repository data fails *)
    destruct HA as (HGA & HCA & HTA & HtrA & _).
    pose proof (report_ok_trace _ _ _ _ _ HB) as HtrB.
    destruct HB as (HCB & HTB & _).
    destruct HC as (_ & _ & (calls & Htr & Hpre) & _).
    rewrite (hit_eq _ _ _ HGA) in HtrB.
    rewrite (hit_eq wA wB), (hit_eq w wA) in Hpre by assumption.
    rewrite (hit_eq wA wB), (hit_eq w wA) in Hpre by assumption.
    eexists repo, _.
    split; [rewrite Htr, HtrB, HtrA, <- !app_assoc; reflexivity|].
    split; [|discriminate].
    apply prefix_app. now apply prefix_app.
  - (* the end fails *)
    destruct HA as (HGA & HCA & HTA & HtrA & _).
    pose proof (report_ok_trace _ _ _ _ _ HB) as HtrB.
    destruct HB as (HCB & HTB & _).
    pose proof (repo_data_ok_trace _ _ _ _ _ HC) as HtrC.
    destruct HD as (_ & _ & _ & Htr & _).
    rewrite (hit_eq _ _ _ HGA) in HtrB.
    rewrite (hit_eq wA wB), (hit_eq w wA) in HtrC by assumption.
    rewrite (hit_eq wA wB), (hit_eq w wA) in HtrC by assumption.
    eexists repo, _.
    split; [rewrite Htr, HtrC, HtrB, HtrA, <- !app_assoc; reflexivity|].
    split; [reflexivity | discriminate].
  - (* the run returns *)
    destruct HA as (HGA & HCA & HTA & HtrA & _).
    pose proof (report_ok_trace _ _ _ _ _ HB) as HtrB.
    destruct HB as (HCB & HTB & _).
    pose proof (repo_data_ok_trace _ _ _ _ _ HC) as HtrC.
    destruct HD as (_ & _ & _ & Htr & _).
    rewrite (hit_eq _ _ _ HGA) in HtrB.
    rewrite (hit_eq wA wB), (hit_eq w wA) in HtrC by assumption.
    rewrite (hit_eq wA wB), (hit_eq w wA) in HtrC by assumption.
    eexists repo, _.
    split; [rewrite Htr, HtrC, HtrB, HtrA, <- !app_assoc; reflexivity|].
    split; [reflexivity | reflexivity].
Qed.

(** What a run that returns leaves behind. *)
Lemma run_returns w payload w' :
  fetch_repo_data env uuid token w = (Ok payload, w') ->
  exists report repo_data,
    py_setitem repo_data "github" report = Ok payload /\
    fs w' !! github_cache uuid = Some (File (Parsed report)) /\
    fs w' !! computed_cache uuid = Some (File (Parsed repo_data)) /\
    logged uuid w'
      (expected_log (hit w (github_cache uuid)) (hit w (computed_cache uuid))
         (hit w (clone_target uuid))) /\
    (if hit w (github_cache uuid)
     then fs w !! github_cache uuid = Some (File (Parsed report))
     else report_sections report) /\
    (if hit w (computed_cache uuid)
     then fs w !! computed_cache uuid = Some (File (Parsed repo_data))
     else exists n, git_commits env n (clone_target uuid) = inr repo_data).
Proof.
  intros H.
  destruct (fetch_repo_data_course _ _ _ _ _ _ H)
    as [(e & [=] & _)
       |(repo & wA & HA &
         [(e & [=] & _)
         |(report & wB & HB &
           [(e & [=] & _)
           |(rd & wC & HC &
             [(e & [=] & _)|(payload' & [= <-] & HD)])])])].
  cbn zeta in HC, HD.
  destruct HA as (HGA & HCA & HTA & _).
  destruct HB as (HCB & HTB & HGB & _ & HB).
  destruct HC as (HGC & HCC & HlogC & HC).
  destruct HD as (HGD & HCD & _ & _ & HlogD & Hset).
  rewrite (hit_eq _ _ _ HGA) in HB.
  assert (Hhc : hit wB (computed_cache uuid) = hit w (computed_cache uuid)).
  { rewrite <- (hit_eq _ _ _ HCA). now apply hit_eq. }
  assert (Hhm : hit wB (clone_target uuid) = hit w (clone_target uuid)).
  { rewrite <- (hit_eq _ _ _ HTA). now apply hit_eq. }
  rewrite (hit_eq _ _ _ HGA), Hhc, Hhm in HlogD. rewrite Hhc in HC.
  exists report, rd.
  split; [exact Hset|]. split; [congruence|]. split; [congruence|].
  split; [exact HlogD|]. split.
  - destruct (hit w (github_cache uuid)); [|apply HB].
    destruct HB as [HB _]. congruence.
  - destruct (hit w (computed_cache uuid)); [|apply HC].
    destruct HC as [HC _]. congruence.
Qed.


(** The mirror directory after a run that returned. *)
Lemma run_returns_mirror w payload w' :
  fetch_repo_data env uuid token w = (Ok payload, w') ->
  fs w' !! clone_target uuid
  = if hit w (computed_cache uuid) then fs w !! clone_target uuid
    else if hit w (clone_target uuid) then fs w !! clone_target uuid
         else Some Dir.
Proof.
  intros H.
  destruct (fetch_repo_data_course _ _ _ _ _ _ H)
    as [(e & [=] & _)
       |(repo & wA & HA &
         [(e & [=] & _)
         |(report & wB & HB &
           [(e & [=] & _)
           |(rd & wC & HC &
             [(e & [=] & _)|(payload' & [= <-] & HD)])])])].
  cbn zeta in HC, HD.
  destruct HA as (_ & HCA & HTA & _).
  destruct HB as (HCB & HTB & _).
  destruct HC as (_ & _ & _ & HC).
  destruct HD as (_ & _ & HTD & _).
  assert (Hhc : hit wB (computed_cache uuid) = hit w (computed_cache uuid)).
  { rewrite <- (hit_eq _ _ _ HCA). now apply hit_eq. }
  assert (Hhm : hit wB (clone_target uuid) = hit w (clone_target uuid)).
  { rewrite <- (hit_eq _ _ _ HTA). now apply hit_eq. }
  rewrite Hhc, Hhm in HC. rewrite HTD.
  destruct (hit w (computed_cache uuid)).
  - destruct HC as (_ & HT & _). congruence.
  - destruct HC as (HT & _). rewrite HT.
    destruct (hit w (clone_target uuid)); [congruence | reflexivity].
Qed.

Lemma expected_stages repo since hg hc hm :
  map stage_of_call (expected_calls uuid token repo since hg hc hm)
  = ([ResolveIdentity]
     ++ (if hg then [] else [FetchMetadata; FetchIssues; FetchStargazers])
     ++ (if hc then []
         else (if hm then [LocalMirror; LocalMirror] else [LocalMirror])
              ++ [DerivedAnalysis]))%list.
Proof. now destruct hg, hc, hm. Qed.

(** C7: for a key in normal form, the collaborator calls of a run are an
    initial part of the fixed sequence resolve-identity, fetch-remote-metadata,
    fetch-remote-issues, fetch-remote-social-signal,
    obtain-or-update-local-mirror, compute-derived-analysis, from which the
    stages of the tiers found on disk are left out: the producers of a
    cached tier are not invoked.  A run that returns has made all these
    calls, has logged the stages in this order, each cached tier as a load
    stage of its own, and has built its payload from the loaded
    artifacts. *)
Theorem stages_in_order_and_cached_tiers_loaded w r w' :
  normal_path uuid = true ->
  fetch_repo_data env uuid token w = (r, w') ->
  let hg := hit w (github_cache uuid) in
  let hc := hit w (computed_cache uuid) in
  let hm := hit w (clone_target uuid) in
  (exists repo calls,
     trace w' = (trace w ++ calls)%list /\
     calls `prefix_of`
       expected_calls uuid token repo (issues_since env (ticks w)) hg hc hm /\
     map stage_of_call
       (expected_calls uuid token repo (issues_since env (ticks w)) hg hc hm)
     = ([ResolveIdentity]
        ++ (if hg then [] else [FetchMetadata; FetchIssues; FetchStargazers])
        ++ (if hc then []
            else (if hm then [LocalMirror; LocalMirror] else [LocalMirror])
                 ++ [DerivedAnalysis]))%list /\
     (forall payload, r = Ok payload ->
        calls = expected_calls uuid token repo (issues_since env (ticks w))
                  hg hc hm)) /\
  (forall payload, r = Ok payload ->
     logged uuid w' (expected_log hg hc hm) /\
     exists report repo_data,
       py_setitem repo_data "github" report = Ok payload /\
       (hg = true -> fs w !! github_cache uuid = Some (File (Parsed report))) /\
       (hc = true ->
        fs w !! computed_cache uuid = Some (File (Parsed repo_data)))).
Proof.
  intros _ H hg hc hm. split.
  - destruct (run_calls _ _ _ H) as (repo & calls & Htr & Hpre & Hall).
    exists repo, calls. split; [exact Htr|]. split; [exact Hpre|].
    split; [apply expected_stages | exact Hall].
  - intros payload ->.
    destruct (run_returns _ _ _ H)
      as (report & repo_data & Hset & _ & _ & Hlog & Hg & Hc).
    split; [exact Hlog|]. exists report, repo_data.
    split; [exact Hset|]. fold hg in Hg. fold hc in Hc. split.
    + intros Hhg. now rewrite Hhg in Hg.
    + intros Hhc. now rewrite Hhc in Hc.
Qed.




Lemma mirror_calls_stages repo hm c :
  c ∈ mirror_calls uuid repo hm ->
  stage_of_call c = LocalMirror \/ stage_of_call c = DerivedAnalysis.
Proof.
  unfold mirror_calls. destruct hm; simpl;
    rewrite !elem_of_cons, elem_of_nil; intros H; intuition subst; auto.
Qed.

Lemma prefix_Forall {A} (P : A -> Prop) (l1 l2 : list A) :
  l1 `prefix_of` l2 -> Forall P l2 -> Forall P l1.
Proof. intros [k ->] H. now apply Forall_app in H as [H _]. Qed.

(** C10: when a run finds no [.github.json] artifact and leaves one, the
    artifact holds at most five issues, and the run has made exactly one
    issues query: for the issues of all states, since thirty days before
    the time read from the clock just before the query (the sixth reading
    of the run). *)
Theorem produced_report_has_at_most_five_recent_issues w r w' c :
  fs w !! github_cache uuid = None ->
  fetch_repo_data env uuid token w = (r, w') ->
  fs w' !! github_cache uuid = Some (File c) ->
  exists repo raw issues stargazers rest,
    c = Parsed (JDict [("repo", raw); ("issues", JList issues);
                       ("stargazers", JList stargazers)]) /\
    (length issues <= 5)%nat /\
    trace w'
    = (trace w
       ++ [CGetRepo token uuid; CRawData (full_name repo);
           CGetIssues (full_name repo) "all"
             (clock env (ticks w + 5) - timedelta_days 30);
           CGetStargazers (full_name repo)]
       ++ rest)%list /\
    Forall (fun c => stage_of_call c <> FetchIssues) rest.
Proof.
  intros Hnone H Hfile.
  assert (Hmirror : forall repo hm calls,
            calls `prefix_of` mirror_calls uuid repo hm ->
            Forall (fun c => stage_of_call c <> FetchIssues) calls).
  { intros repo hm calls Hpre. apply (prefix_Forall _ _ _ Hpre).
    apply Forall_forall. intros x Hx.
    apply mirror_calls_stages in Hx as [-> | ->]; discriminate. }
  destruct (fetch_repo_data_course _ _ _ _ _ _ H)
    as [(e & -> & Hs)
       |(repo & wA & HA &
         [(e & -> & HB)
         |(report & wB & HB &
           [(e & -> & HC)
           |(rd & wC & HC & HD)])])].
  - destruct Hs as (HG & _). congruence.
  - destruct HA as (HGA & _). destruct HB as (_ & _ & HG & _). congruence.
  - destruct HA as (HGA & _ & _ & HtrA & _).
    destruct HB as (_ & _ & HGB & _ & HB).
    rewrite (hit_eq _ _ _ HGA) in HB.
    assert (Hhg : hit w (github_cache uuid) = false).
    { unfold hit. rewrite Hnone. apply bool_decide_eq_false_2.
      now intros [? ?]. }
    rewrite Hhg in HB.
    destruct HB as ((raw & issues & stargazers & -> & Hlen) & _ & HtrB).
    destruct HC as (HG & _ & (calls & Htr & Hpre) & _).
    exists repo, raw, issues, stargazers, calls.
    split; [congruence|]. split; [exact Hlen|]. split.
    + rewrite Htr, HtrB, HtrA, <- !app_assoc. reflexivity.
    + destruct (hit wB (computed_cache uuid)).
      * apply prefix_nil_inv in Hpre as ->. constructor.
      * exact (Hmirror _ _ _ Hpre).
  - destruct HA as (HGA & _ & _ & HtrA & _).
    pose proof (repo_data_ok_trace _ _ _ _ _ HC) as HtrC.
    destruct HB as (_ & _ & HGB & _ & HB).
    rewrite (hit_eq _ _ _ HGA) in HB.
    assert (Hhg : hit w (github_cache uuid) = false).
    { unfold hit. rewrite Hnone. apply bool_decide_eq_false_2.
      now intros [? ?]. }
    rewrite Hhg in HB.
    destruct HB as ((raw & issues & stargazers & -> & Hlen) & _ & HtrB).
    destruct HC as (HGC & _).
    assert (Hend : fs w' !! github_cache uuid = fs wC !! github_cache uuid
                   /\ trace w' = trace wC).
    { destruct HD as [(e & _ & HD)|(payload & _ & HD)].
      - destruct HD as (? & _ & _ & ? & _). now split.
      - destruct HD as (? & _ & _ & ? & _). now split. }
    destruct Hend as [HGD HtrD].
    eexists repo, raw, issues, stargazers, _.
    split; [congruence|]. split; [exact Hlen|]. split.
    + rewrite HtrD, HtrC, HtrB, HtrA, <- !app_assoc. reflexivity.
    + destruct (hit wB (computed_cache uuid)); [constructor|].
      exact (Hmirror _ _ _ (reflexivity _)).
Qed.

Lemma report_calls_stages repo since c :
  c ∈ report_calls repo since ->
  stage_of_call c <> LocalMirror /\ stage_of_call c <> DerivedAnalysis.
Proof.
  unfold report_calls. rewrite !elem_of_cons, elem_of_nil.
  intros H; intuition subst; discriminate.
Qed.

(** C2, amended: an artifact that exists but cannot be parsed is not
    produced again.  A run that finds an unparseable [.github.json]
    artifact never returns: unless it fails before the load (the status
    log cannot be written, or the repository does not resolve), it raises
    the parse error; it calls no collaborator but [get_repo] and leaves the
    artifact as it is.  A run that finds an unparseable [_computed.json]
    artifact never returns either, neither mirrors nor analyses, and
    leaves the artifact as it is.  In both cases the job of the key ends
    with the error the run raised: the worker stores it in the future. *)
Theorem corrupt_artifact_fails_the_run w raw r w' :
  fetch_repo_data env uuid token w = (r, w') ->
  (fs w !! github_cache uuid = Some (File (Unparseable raw)) ->
   exists e calls,
     r = Raise e /\
     (e = JSONDecodeError \/ os_error e
      \/ exists msg, e = ProducerError ResolveIdentity msg) /\
     fs w' !! github_cache uuid = Some (File (Unparseable raw)) /\
     trace w' = (trace w ++ calls)%list /\
     calls `prefix_of` [CGetRepo token uuid]) /\
  (fs w !! computed_cache uuid = Some (File (Unparseable raw)) ->
   exists e calls,
     r = Raise e /\
     fs w' !! computed_cache uuid = Some (File (Unparseable raw)) /\
     trace w' = (trace w ++ calls)%list /\
     Forall (fun c => stage_of_call c <> LocalMirror
                      /\ stage_of_call c <> DerivedAnalysis) calls) /\
  (fs w !! github_cache uuid = Some (File (Unparseable raw)) \/
   fs w !! computed_cache uuid = Some (File (Unparseable raw)) ->
   forall a f,
     world a = w -> datastore a !! uuid = Some f ->
     fut_uuid f = uuid -> fut_token f = token -> outcome f = None ->
     exists e,
       r = Raise e /\
       world (worker_run env uuid a) = w' /\
       outcome <$> datastore (worker_run env uuid a) !! uuid
       = Some (Some (Raise e))).
Proof.
  intros H.
  assert (Hgithub :
    fs w !! github_cache uuid = Some (File (Unparseable raw)) ->
    exists e calls,
      r = Raise e /\
      (e = JSONDecodeError \/ os_error e
       \/ exists msg, e = ProducerError ResolveIdentity msg) /\
      fs w' !! github_cache uuid = Some (File (Unparseable raw)) /\
      trace w' = (trace w ++ calls)%list /\
      calls `prefix_of` [CGetRepo token uuid]).
  { intros Hbad. pose proof (hit_some _ _ _ Hbad) as Hhg.
    destruct (fetch_repo_data_course _ _ _ _ _ _ H)
      as [(e & -> & Hs)
         |(repo & wA & HA & [(e & -> & HB)|(report & wB & HB & _)])].
    + destruct Hs as (HG & _ & _ & [[Htr He]|[Htr (msg & -> & _)]]).
      * exists e, []. rewrite app_nil_r.
        split; [reflexivity|]. split; [now right; left|].
        split; [congruence|]. split; [exact Htr | apply prefix_nil].
      * eexists _, [CGetRepo token uuid].
        split; [reflexivity|]. split; [right; right; now exists msg|].
        split; [congruence|]. split; [exact Htr | reflexivity].
    + destruct HA as (HGA & _ & _ & HtrA & _).
      destruct HB as (_ & _ & HG & (calls & Htr & Hpre) & Hkind & _).
      rewrite (hit_eq _ _ _ HGA), Hhg in Hpre, Hkind.
      apply prefix_nil_inv in Hpre as ->. rewrite app_nil_r in Htr.
      exists e, [CGetRepo token uuid].
      split; [reflexivity|]. split.
      { destruct (Hkind eq_refl) as [->|He]; [now left | now right; left]. }
      split; [congruence|]. split; [congruence | reflexivity].
    + destruct HA as (HGA & _). destruct HB as (_ & _ & _ & _ & HB).
      rewrite (hit_eq _ _ _ HGA), Hhg in HB. destruct HB as [HB _].
      congruence. }
  assert (Hcomputed :
    fs w !! computed_cache uuid = Some (File (Unparseable raw)) ->
    exists e calls,
      r = Raise e /\
      fs w' !! computed_cache uuid = Some (File (Unparseable raw)) /\
      trace w' = (trace w ++ calls)%list /\
      Forall (fun c => stage_of_call c <> LocalMirror
                       /\ stage_of_call c <> DerivedAnalysis) calls).
  { intros Hbad. pose proof (hit_some _ _ _ Hbad) as Hhc.
    destruct (run_calls _ _ _ H) as (repo0 & calls & Htr & Hpre & _).
    assert (Hcalls : Forall (fun c => stage_of_call c <> LocalMirror
                                      /\ stage_of_call c <> DerivedAnalysis)
                       calls).
    { apply (prefix_Forall _ _ _ Hpre). unfold expected_calls.
      rewrite Hhc, app_nil_r. apply Forall_app. split.
      - repeat constructor; discriminate.
      - destruct (hit w (github_cache uuid)); [constructor|].
        apply Forall_forall. intros c. apply report_calls_stages. }
    assert (Hend : forall e,
              r = Raise e ->
              fs w' !! computed_cache uuid = fs w !! computed_cache uuid ->
              exists e calls,
                r = Raise e /\
                fs w' !! computed_cache uuid
                = Some (File (Unparseable raw)) /\
                trace w' = (trace w ++ calls)%list /\
                Forall (fun c => stage_of_call c <> LocalMirror
                                 /\ stage_of_call c <> DerivedAnalysis)
                  calls).
    { intros e -> HC. exists e, calls.
      split; [reflexivity|]. split; [congruence|].
      split; [exact Htr | exact Hcalls]. }
    destruct (fetch_repo_data_course _ _ _ _ _ _ H)
      as [(e & Hr & Hs)
         |(repo & wA & HA &
           [(e & Hr & HB)
           |(report & wB & HB &
             [(e & Hr & HC)|(rd & wC & HC & _)])])].
    + destruct Hs as (_ & HC & _). now apply (Hend e).
    + destruct HA as (_ & HCA & _). destruct HB as (HC & _).
      apply (Hend e Hr). congruence.
    + destruct HA as (_ & HCA & _). destruct HB as (HCB & _).
      destruct HC as (_ & HC & _). apply (Hend e Hr). congruence.
    + destruct HA as (_ & HCA & _). destruct HB as (HCB & _).
      assert (Hhit : hit wB (computed_cache uuid) = true).
      { rewrite <- Hhc, <- (hit_eq _ _ _ HCA). now apply hit_eq. }
      destruct HC as (_ & _ & _ & HC). rewrite Hhit in HC.
      destruct HC as [HC _]. congruence. }
  split; [exact Hgithub|]. split; [exact Hcomputed|].
  intros Hbad a f Hw Hf Hu Ht Ho.
  assert (Hraise : exists e, r = Raise e).
  { destruct Hbad as [Hbad|Hbad].
    - destruct (Hgithub Hbad) as (e & _ & -> & _). now exists e.
    - destruct (Hcomputed Hbad) as (e & _ & -> & _). now exists e. }
  destruct Hraise as [e ->]. exists e. split; [reflexivity|].
  rewrite <- Hw, <- Hu, <- Ht in H.
  rewrite (worker_stores_outcome env uuid a f _ _ Hf Ho H). simpl.
  split; [reflexivity|]. now rewrite lookup_insert_eq.
Qed.


End PipelineClaims.

(* ===================================================================== *)
(** * Worked runs *)
(* ===================================================================== *)

Section WorkedRuns.

(** A second run for "acme/widgets", on the disk the first one left: both
    artifacts are loaded and only [get_repo] is called. *)
Lemma stages_in_order_and_cached_tiers_loaded_witness :
  let run2 := fetch_repo_data Demo.env "acme/widgets" (Some "token")
                Demo.cached_world in
  trace run2.2
  = (trace Demo.cached_world ++ [CGetRepo (Some "token") "acme/widgets"])%list
  /\ logged "acme/widgets" run2.2
       ["Initial validation of repo";
        "Load GitHub API data from ephemeral cache";
        "Load commit from ephemeral cache"].
Proof.
  intros run2.
  destruct (stages_in_order_and_cached_tiers_loaded
              Demo.env "acme/widgets" (Some "token") Demo.cached_world
              run2.1 run2.2 eq_refl (surjective_pairing run2))
    as [(repo & calls & Htr & _ & _ & Hall) Hok].
  assert (Hr : exists payload, run2.1 = Ok payload)
    by (eexists; vm_compute; reflexivity).
  destruct Hr as [payload Hr].
  split.
  - rewrite Htr, (Hall payload Hr). reflexivity.
  - exact (proj1 (Hok payload Hr)).
Defined.



Lemma produced_report_has_at_most_five_recent_issues_witness :
  let run1 := fetch_repo_data Demo.env "acme/widgets" (Some "token")
                Demo.empty_world in
  exists issues d,
    fs run1.2 !! github_cache "acme/widgets" = Some (File (Parsed (JDict d)))
    /\ dict_get "issues" d = Some (JList issues)
    /\ (length issues <= 5)%nat
    /\ CGetIssues "acme/widgets" "all"
         ((1000 + 5) * 1000000 - 30 * 86400 * 1000000) ∈ trace run1.2.
Proof.
  intros run1.
  assert (Hc : exists c,
            fs run1.2 !! github_cache "acme/widgets" = Some (File c))
    by (eexists; vm_compute; reflexivity).
  destruct Hc as [c Hc].
  destruct (produced_report_has_at_most_five_recent_issues
              Demo.env "acme/widgets" (Some "token") Demo.empty_world
              run1.1 run1.2 c (lookup_empty _) (surjective_pairing run1) Hc)
    as (repo & raw & issues & stargazers & rest & -> & Hlen & Htr & _).
  eexists issues, _. split; [exact Hc|]. split; [reflexivity|].
  split; [exact Hlen|].
  assert (Hname : full_name repo = "acme/widgets").
  { assert (Hin : CRawData (full_name repo) ∈ trace run1.2).
    { rewrite Htr. simpl. rewrite !elem_of_cons. auto. }
    revert Hin. vm_compute (trace run1.2). rewrite !elem_of_cons, elem_of_nil.
    intros [|[|[|[|[|[|[]]]]]]]; congruence. }
  rewrite Htr, Hname. simpl. rewrite !elem_of_cons. auto.
Defined.

(** C2, as stated, does not hold: the run that finds the damaged
    [.github.json] artifact of "acme/widgets" ends in the parse error and
    writes nothing in its place. *)
Lemma corrupt_artifact_is_not_reproduced :
  ~ corrupt_artifact_is_reproduced Demo.env.
Proof.
  intros Hclaim.
  destruct (Hclaim "acme/widgets" (Some "token") Demo.corrupt_world "{"
              (Raise JSONDecodeError)
              (fetch_repo_data Demo.env "acme/widgets" (Some "token")
                 Demo.corrupt_world).2)
    as [Hr _].
  - vm_compute. reflexivity.
  - vm_compute. reflexivity.
  - now apply Hr.
Qed.

Lemma corrupt_artifact_fails_the_run_witness :
  let run := fetch_repo_data Demo.env "acme/widgets" (Some "token")
               Demo.corrupt_world in
  exists e,
    run.1 = Raise e /\
    fs run.2 !! github_cache "acme/widgets" = Some (File (Unparseable "{")) /\
    (forall c, c ∈ trace run.2 -> c = CGetRepo (Some "token") "acme/widgets").
Proof.
  intros run.
  assert (Hbad : fs Demo.corrupt_world !! github_cache "acme/widgets"
                 = Some (File (Unparseable "{")))
    by (vm_compute; reflexivity).
  destruct (proj1 (corrupt_artifact_fails_the_run
                     Demo.env "acme/widgets" (Some "token")
                     Demo.corrupt_world "{" run.1 run.2
                     (surjective_pairing run)) Hbad)
    as (e & calls & Hr & _ & Hfs & Htr & Hpre).
  exists e. split; [exact Hr|]. split; [exact Hfs|].
  intros c Hc. rewrite Htr in Hc. simpl in Hc.
  destruct Hpre as [k Hk]. destruct calls as [|c0 calls].
  - now apply elem_of_nil in Hc.
  - injection Hk as <- Hk. destruct calls; [|discriminate].
    now apply list_elem_of_singleton in Hc.
Defined.


End WorkedRuns.

(* ===================================================================== *)
(** * Reasoning with triples *)
(* ===================================================================== *)

Section Triples.

Context {S : Type}.

Lemma hoare_ret {A} (P : S -> Prop) (a : A) Q E :
  (forall s, P s -> Q a s) -> hoare P (ret a) Q E.
Proof. intros H s Hs. now apply H. Qed.

Lemma hoare_lift {A} (P : S -> Prop) (x : result A) Q E :
  (forall s, P s -> match x with Ok a => Q a s | Raise e => E e s end) ->
  hoare P (lift x) Q E.
Proof. intros H s Hs. unfold lift. specialize (H s Hs). now destruct x. Qed.

Lemma hoare_bind {A B} (P : S -> Prop) (m : M S A) (f : A -> M S B)
    (R : A -> S -> Prop) Q E :
  hoare P m R E -> (forall a, hoare (R a) (f a) Q E) ->
  hoare P (bind m f) Q E.
Proof.
  intros Hm Hf s Hs. unfold bind. specialize (Hm s Hs).
  destruct (m s) as [[a|e] s']; [now apply Hf | exact Hm].
Qed.

Lemma hoare_conseq {A} (P P' : S -> Prop) (m : M S A) (Q Q' : A -> S -> Prop)
    (E E' : exn -> S -> Prop) :
  hoare P m Q E ->
  (forall s, P' s -> P s) -> (forall a s, Q a s -> Q' a s) ->
  (forall e s, E e s -> E' e s) ->
  hoare P' m Q' E'.
Proof.
  intros H HP HQ HE s Hs. specialize (H s (HP s Hs)).
  destruct (m s) as [[a|e] s']; auto.
Qed.

Lemma hoare_run {A} (P : S -> Prop) (m : M S A) Q E s r s' :
  hoare P m Q E -> P s -> m s = (r, s') ->
  match r with Ok a => Q a s' | Raise e => E e s' end.
Proof. intros H Hs Hm. specialize (H s Hs). now rewrite Hm in H. Qed.

End Triples.

(* ===================================================================== *)
(** * The shape of the status log along a run *)
(* ===================================================================== *)

Section LogShape.

Context (env : Env) (uuid : string).

Lemma hoare_pre {S A} (P P' : S -> Prop) (m : M S A) Q E :
  hoare P m Q E -> (forall s, P' s -> P s) -> hoare P' m Q E.
Proof. intros H HP. apply (hoare_conseq P P' m Q Q E E); auto. Qed.

Lemma set_last_end_snoc v l d :
  set_last_end v (l ++ [JDict d])%list
  = Ok (l ++ [JDict (dict_set "end" v d)])%list.
Proof.
  induction l as [|x l IH]; [reflexivity|].
  destruct l as [|y l].
  - reflexivity.
  - change ((x :: y :: l) ++ [JDict d])%list
      with (x :: y :: (l ++ [JDict d]))%list.
    rewrite set_last_end_cons.
    change (y :: l ++ [JDict d])%list with ((y :: l) ++ [JDict d])%list.
    now rewrite IH.
Qed.

Lemma has_end_set_end v d : has_end (JDict (dict_set "end" v d)) = true.
Proof. simpl. rewrite dict_get_set_eq. now apply bool_decide_eq_true_2. Qed.

Lemma status_log_hit w l :
  status_log uuid w = Some l -> hit w (status_file uuid) = true.
Proof.
  unfold status_log, hit. destruct (fs w !! status_file uuid); [|discriminate].
  intros _. now apply bool_decide_eq_true_2.
Qed.

Lemma status_log_frame w w' :
  fs w' !! status_file uuid = fs w !! status_file uuid ->
  status_log uuid w' = status_log uuid w.
Proof. unfold status_log. now intros ->. Qed.

Lemma open_at_frame m w w' :
  fs w' !! status_file uuid = fs w !! status_file uuid ->
  open_at uuid m w -> open_at uuid m w'.
Proof.
  intros Hfs (l & d & Hlog & H). exists l, d.
  now rewrite (status_log_frame _ _ Hfs).
Qed.

Lemma open_at_log m w : open_at uuid m w -> open_log uuid w.
Proof. intros H. now exists m. Qed.

Lemma os_error_logged e w : os_error e -> failed_stage_logged uuid e w.
Proof. now destruct e. Qed.

(** Closing the open entry of a log. *)
Lemma open_at_closed m w v :
  open_at uuid m w ->
  exists l0 old,
    status_log uuid w = Some l0 /\ set_last_end v l0 = Ok old /\
    Forall (fun e => has_end e = true) old.
Proof.
  intros (l & d & Hlog & Hcl & _). eexists _, _. split; [exact Hlog|].
  split; [apply set_last_end_snoc|].
  apply Forall_app. split; [exact Hcl|].
  constructor; [apply has_end_set_end | constructor].
Qed.

(** Logging the start of a stage closes the open entry and opens one with
    the new message. *)
Lemma log_next m' :
  hoare (open_log uuid) (update_status env uuid (Some m') false)
    (fun _ => open_at uuid m') (failed_stage_logged uuid).
Proof.
  intros w [m Hopen].
  destruct (update_status env uuid (Some m') false w) as [r w'] eqn:H.
  destruct (open_at_closed m w
              (JStr (strftime env iso_format (clock env (ticks w)))) Hopen)
    as (l0 & old & Hl0 & Hset & Hcl).
  pose proof (status_log_hit _ _ Hl0) as Hhit.
  apply update_status_inv in H as (_ & _ & Hr). rewrite Hhit in Hr.
  simpl in Hr. destruct r as [[]|e].
  - destruct Hr as (old' & (l1 & Hl1 & Hset1) & Hlog & _).
    rewrite Hl0 in Hl1. injection Hl1 as <-.
    rewrite Hset in Hset1. injection Hset1 as <-.
    eexists old, _. split; [exact Hlog|]. now split.
  - destruct Hr as [_ He]. apply os_error_logged. apply He. right.
    now exists l0, old.
Qed.

(** The first status update of a run starts the log afresh. *)
Lemma log_reset m' :
  hoare (fun _ => True) (update_status env uuid (Some m') true)
    (fun _ => open_at uuid m') (failed_stage_logged uuid).
Proof.
  intros w _.
  destruct (update_status env uuid (Some m') true w) as [r w'] eqn:H.
  apply update_status_inv in H as (_ & _ & Hr).
  rewrite orb_true_r in Hr. destruct r as [[]|e].
  - destruct Hr as (old & -> & Hlog & _).
    exists [], [("start",
                 JStr (strftime env iso_format (clock env (ticks w + 0))));
                ("status", JStr m')].
    split; [exact Hlog|]. now repeat split.
  - destruct Hr as [_ He]. apply os_error_logged. apply He. now left.
Qed.

(** The last status update of a run closes the open entry. *)
Lemma log_close :
  hoare (open_log uuid) (update_status env uuid None false)
    (fun _ => all_closed uuid) (failed_stage_logged uuid).
Proof.
  intros w [m Hopen].
  destruct (update_status env uuid None false w) as [r w'] eqn:H.
  destruct (open_at_closed m w
              (JStr (strftime env iso_format (clock env (ticks w)))) Hopen)
    as (l0 & old & Hl0 & Hset & Hcl).
  pose proof (status_log_hit _ _ Hl0) as Hhit.
  apply update_status_inv in H as (_ & _ & Hr). rewrite Hhit in Hr.
  simpl in Hr. destruct r as [[]|e].
  - destruct Hr as (old' & (l1 & Hl1 & Hset1) & Hlog & _).
    rewrite Hl0 in Hl1. injection Hl1 as <-.
    rewrite Hset in Hset1. injection Hset1 as <-.
    rewrite app_nil_r in Hlog. now exists old.
  - destruct Hr as [_ He]. apply os_error_logged. apply He. right.
    now exists l0, old.
Qed.

(** A collaborator of stage [s], called while the entry of [s] is open. *)
Lemma log_collab {A} s c (oracle : nat -> string + A) m :
  m ∈ stage_messages s ->
  hoare (open_at uuid m) (collab s c oracle)
    (fun _ => open_at uuid m) (failed_stage_logged uuid).
Proof.
  intros Hm w Hopen. destruct (collab s c oracle w) as [r w'] eqn:H.
  apply collab_inv in H as [-> Hr].
  assert (Hopen' : open_at uuid m
                     (mkWorld (fs w) (ticks w) (trace w ++ [c])%list))
    by (now apply (open_at_frame m w)).
  destruct r as [a|e]; [exact Hopen'|].
  destruct Hr as (msg & -> & _). simpl. now exists m.
Qed.

Lemma log_utcnow m :
  hoare (open_at uuid m) (utcnow env)
    (fun _ => open_at uuid m) (failed_stage_logged uuid).
Proof. intros w Hopen. simpl. now apply (open_at_frame m w). Qed.

Lemma log_exists m p :
  hoare (open_at uuid m) (path_exists p)
    (fun _ => open_at uuid m) (failed_stage_logged uuid).
Proof. intros w Hopen. exact Hopen. Qed.

Lemma log_dump m p j :
  p <> status_file uuid ->
  hoare (open_at uuid m) (json_dump p j)
    (fun _ => open_at uuid m) (failed_stage_logged uuid).
Proof.
  intros Hp w Hopen. destruct (json_dump p j w) as [r w'] eqn:H.
  apply json_dump_inv in H as [[-> ->]|(e & -> & He & ->)].
  - apply (open_at_frame m w); [|exact Hopen].
    simpl. now rewrite lookup_insert_ne.
  - now apply os_error_logged.
Qed.

Lemma log_load m p :
  hoare (open_at uuid m) (json_load p)
    (fun _ => open_at uuid m) (failed_stage_logged uuid).
Proof.
  intros w Hopen. destruct (json_load p w) as [r w'] eqn:H.
  apply json_load_inv in H as [-> Hr]. destruct r as [j|e]; [exact Hopen|].
  destruct Hr as [[-> _]|He]; [exact I | now apply os_error_logged].
Qed.

Lemma log_produce_report repo :
  hoare (open_log uuid) (produce_report env uuid repo)
    (fun _ => open_log uuid) (failed_stage_logged uuid).
Proof.
  unfold produce_report. cbn zeta.
  apply hoare_bind with (R := fun _ => open_at uuid "Fetching GitHub API data");
    [apply log_next | intros _].
  apply hoare_bind with (R := fun _ => open_at uuid "Fetching GitHub API data");
    [apply log_collab, list_elem_of_here | intros raw_data].
  apply hoare_bind
    with (R := fun _ => open_at uuid "Fetching GitHub issues data");
    [apply (hoare_pre _ _ _ _ _ (log_next _)), open_at_log | intros _].
  apply hoare_bind
    with (R := fun _ => open_at uuid "Fetching GitHub issues data");
    [apply log_utcnow | intros now].
  apply hoare_bind
    with (R := fun _ => open_at uuid "Fetching GitHub issues data");
    [apply log_collab, list_elem_of_here | intros issues].
  apply hoare_bind
    with (R := fun _ => open_at uuid "Fetching GitHub stargazer data");
    [apply (hoare_pre _ _ _ _ _ (log_next _)), open_at_log | intros _].
  apply hoare_bind
    with (R := fun _ => open_at uuid "Fetching GitHub stargazer data");
    [apply log_collab, list_elem_of_here | intros stargazers].
  apply hoare_bind
    with (R := fun _ => open_at uuid "Fetching GitHub stargazer data").
  { apply hoare_lift. intros w Hopen.
    destruct (map_result stargazer_entry stargazers) as [l|e] eqn:Hl;
      [exact Hopen|].
    apply map_result_stargazers_raise in Hl as [->|[k ->]]; exact I. }
  intros stargazer_data.
  apply hoare_bind
    with (R := fun _ => open_at uuid "Fetching GitHub stargazer data").
  { apply log_dump. intros Heq. now apply (status_neq_github uuid). }
  intros _. apply hoare_ret. intros w. apply open_at_log.
Qed.

(** A call of git on the mirror of the key, made while an entry of the
    mirror stage is open. *)
Lemma log_fetch_remotes m :
  m ∈ stage_messages LocalMirror ->
  hoare (open_at uuid m) (fetch_remotes env (clone_target uuid))
    (fun _ => open_at uuid m) (failed_stage_logged uuid).
Proof.
  intros Hm w Hopen.
  destruct (fetch_remotes env (clone_target uuid) w) as [r w'] eqn:H.
  apply fetch_remotes_inv in H as (_ & _ & Hfs & Hr).
  assert (Hopen' : open_at uuid m w').
  { apply (open_at_frame m w); [|exact Hopen].
    apply Hfs, status_not_inside. }
  destruct r as [a|e]; [exact Hopen'|].
  destruct Hr as [msg ->]. simpl. now exists m.
Qed.

Lemma log_clone_from m url :
  m ∈ stage_messages LocalMirror ->
  hoare (open_at uuid m) (clone_from env url (clone_target uuid))
    (fun _ => open_at uuid m) (failed_stage_logged uuid).
Proof.
  intros Hm w Hopen.
  destruct (clone_from env url (clone_target uuid) w) as [r w'] eqn:H.
  apply clone_from_inv in H as (_ & _ & Hfs & Hr).
  assert (Hopen' : open_at uuid m w').
  { apply (open_at_frame m w); [|exact Hopen].
    apply Hfs; [apply status_not_inside | apply status_neq_target]. }
  destruct r as [a|e]; [exact Hopen'|].
  destruct Hr as [[msg ->] _]. simpl. now exists m.
Qed.

Lemma log_obtain_mirror repo mirror :
  hoare (open_log uuid) (obtain_mirror env uuid repo mirror)
    (fun _ => open_log uuid) (failed_stage_logged uuid).
Proof.
  unfold obtain_mirror. cbn zeta. destruct mirror.
  - apply hoare_bind
      with (R := fun _ => open_at uuid "Fetching remotes from cached clone");
      [apply log_next | intros _].
    apply hoare_bind
      with (R := fun _ => open_at uuid "Fetching remotes from cached clone");
      [apply log_collab, list_elem_of_here | intros _].
    apply (hoare_conseq _ _ _ _ _ _ _
             (log_fetch_remotes _ (list_elem_of_here _ _))); auto.
    intros _ w. apply open_at_log.
  - apply hoare_bind with (R := fun _ => open_at uuid "Cloning repo");
      [apply log_next | intros _].
    assert (Hm : "Cloning repo" ∈ stage_messages LocalMirror)
      by apply list_elem_of_further, list_elem_of_here.
    apply (hoare_conseq _ _ _ _ _ _ _ (log_clone_from _ _ Hm)); auto.
    intros _ w. apply open_at_log.
Qed.

Lemma log_produce_repo_data repo :
  hoare (open_log uuid) (produce_repo_data env uuid repo)
    (fun _ => open_log uuid) (failed_stage_logged uuid).
Proof.
  unfold produce_repo_data. cbn zeta.
  apply hoare_bind with (R := fun _ => open_log uuid).
  { intros w Hopen. exact Hopen. }
  intros mirror.
  apply hoare_bind with (R := fun _ => open_log uuid);
    [apply log_obtain_mirror | intros _].
  apply hoare_bind with (R := fun _ => open_at uuid "Analysing commits");
    [apply log_next | intros _].
  apply hoare_bind with (R := fun _ => open_at uuid "Analysing commits");
    [apply log_collab, list_elem_of_here | intros repo_data].
  apply hoare_bind with (R := fun _ => open_at uuid "Analysing commits").
  { apply log_dump. intros Heq. now apply (status_neq_computed uuid). }
  intros _. apply hoare_ret. intros w. apply open_at_log.
Qed.

(** The log along a whole run: closed when the run returns, ending with
    the open entry of the failing stage when a producer raises. *)
Lemma fetch_repo_data_log token :
  hoare (fun _ => True) (fetch_repo_data env uuid token)
    (fun _ => all_closed uuid) (failed_stage_logged uuid).
Proof.
  unfold fetch_repo_data. cbn zeta.
  apply hoare_bind with (R := fun _ _ => True).
  { intros w _. exact I. }
  intros dir_exists.
  apply hoare_bind with (R := fun _ _ => True).
  { intros w _. destruct (negb dir_exists); [|exact I].
    destruct (makedirs (os_path_dirname (github_cache uuid)) w)
      as [r w'] eqn:H.
    destruct r as [[]|e]; [exact I|].
    apply makedirs_raise in H as [->|He]; [exact I|].
    now apply os_error_logged. }
  intros _.
  apply hoare_bind
    with (R := fun _ => open_at uuid "Initial validation of repo");
    [apply log_reset | intros _].
  apply hoare_bind
    with (R := fun _ => open_at uuid "Initial validation of repo");
    [apply log_collab, list_elem_of_here | intros repo].
  apply hoare_bind
    with (R := fun _ => open_at uuid "Initial validation of repo");
    [apply log_exists | intros cached].
  apply hoare_bind with (R := fun _ => open_log uuid).
  { destruct cached.
    - apply hoare_bind
        with (R := fun _ => open_at uuid
                              "Load GitHub API data from ephemeral cache");
        [apply (hoare_pre _ _ _ _ _ (log_next _)), open_at_log | intros _].
      apply (hoare_conseq _ _ _ _ _ _ _
               (log_load "Load GitHub API data from ephemeral cache" _));
        auto.
      intros _ w. apply open_at_log.
    - apply (hoare_pre _ _ _ _ _ (log_produce_report repo)), open_at_log. }
  intros report.
  apply hoare_bind with (R := fun _ => open_log uuid).
  { intros w Hopen. exact Hopen. }
  intros cached2.
  apply hoare_bind with (R := fun _ => open_log uuid).
  { destruct (negb cached2).
    - apply log_produce_repo_data.
    - apply hoare_bind
        with (R := fun _ => open_at uuid "Load commit from ephemeral cache");
        [apply log_next | intros _].
      apply (hoare_conseq _ _ _ _ _ _ _
               (log_load "Load commit from ephemeral cache" _)); auto.
      intros _ w. apply open_at_log. }
  intros repo_data.
  apply hoare_bind with (R := fun _ => all_closed uuid);
    [apply log_close | intros _].
  apply hoare_bind with (R := fun _ => all_closed uuid).
  { apply hoare_lift. intros w Hclosed.
    destruct repo_data; simpl; first [exact Hclosed | exact I]. }
  intros payload. now apply hoare_ret.
Qed.

End LogShape.

(* ===================================================================== *)
(** * What a run leaves alone *)
(* ===================================================================== *)

Section Frame.

Context (env : Env) (uuid : string) (p : string) (v : option node).

(** The path [p] is not the status file of the key and does not lie below
    its mirror directory; it either exists already, or it is neither a path of the key nor a directory on the way
    to its storage location. *)
Context (Hstatus : p <> status_file uuid).
Context (Hinside : inside (clone_target uuid) p = false).
Context (Hside :
  is_Some v \/
  (p <> github_cache uuid /\ p <> computed_cache uuid /\
   p <> clone_target uuid /\
   p ∉ dir_prefixes (os_path_dirname (github_cache uuid)))).

Lemma keeps_absent w q :
  keeps p v w -> fs w !! q = None ->
  q ∈ [github_cache uuid; computed_cache uuid; clone_target uuid] ->
  p <> q.
Proof.
  unfold keeps. intros Hk Hq Hin ->. destruct Hside as [[n ->]|Hother].
  - congruence.
  - rewrite !elem_of_cons, elem_of_nil in Hin. intuition congruence.
Qed.

Lemma keeps_same_fs {A} (m : M World A) :
  (forall w r w', m w = (r, w') -> fs w' = fs w) -> preserves (keeps p v) m.
Proof. intros H w r w' Hm Hk. unfold keeps. now rewrite (H w r w' Hm). Qed.

Lemma keeps_update_status msg clear :
  preserves (keeps p v) (update_status env uuid msg clear).
Proof.
  intros w r w' H Hk. apply update_status_inv in H as (_ & Hfs & _).
  unfold keeps. now rewrite Hfs.
Qed.

Lemma keeps_collab {A} s c (oracle : nat -> string + A) :
  preserves (keeps p v) (collab s c oracle).
Proof.
  apply keeps_same_fs. intros w r w' H. now apply collab_inv in H as [-> _].
Qed.

Lemma keeps_utcnow : preserves (keeps p v) (utcnow env).
Proof. apply keeps_same_fs. intros w r w' [= _ <-]. reflexivity. Qed.

Lemma keeps_load q : preserves (keeps p v) (json_load q).
Proof.
  apply keeps_same_fs. intros w r w' H. now apply json_load_inv in H as [-> _].
Qed.

Lemma keeps_lift {A} (x : result A) : preserves (keeps p v) (lift x).
Proof. apply keeps_same_fs. intros w r w' [= _ <-]. reflexivity. Qed.

Lemma keeps_dump q j : p <> q -> preserves (keeps p v) (json_dump q j).
Proof.
  intros Hq w r w' H Hk.
  apply json_dump_inv in H as [[_ ->]|(e & _ & _ & ->)]; [|exact Hk].
  unfold keeps. simpl. now rewrite lookup_insert_ne.
Qed.

Lemma keeps_makedirs :
  preserves (keeps p v) (makedirs (os_path_dirname (github_cache uuid))).
Proof.
  intros w r w' H Hk. apply makedirs_inv in H as (_ & _ & Hfresh & Hmono & _).
  unfold keeps in *. destruct Hside as [[n ->]|(_ & _ & _ & Hnot)].
  - now apply Hmono.
  - now rewrite Hfresh.
Qed.

(** A step guarded by [os.path.exists]. *)
Lemma preserves_exists {A} (I : World -> Prop) q (k : bool -> M World A) :
  (forall w r w', I w -> k (hit w q) w = (r, w') -> I w') ->
  preserves I (bind (path_exists q) k).
Proof.
  intros H w r w' Hrun Hw. unfold bind in Hrun.
  rewrite path_exists_run in Hrun. now apply (H w r w').
Qed.

Ltac keeps_step :=
  apply preserves_bind;
  [first [apply keeps_update_status | apply keeps_collab | apply keeps_utcnow
         | apply keeps_load | apply keeps_lift]
  | intros ?].

Lemma keeps_produce_report repo :
  p <> github_cache uuid -> preserves (keeps p v) (produce_report env uuid repo).
Proof.
  intros Hq. unfold produce_report. cbn zeta. do 8 keeps_step.
  apply preserves_bind; [now apply keeps_dump | intros _].
  apply preserves_ret.
Qed.

Lemma keeps_obtain_mirror repo mirror :
  (mirror = false -> p <> clone_target uuid) ->
  preserves (keeps p v) (obtain_mirror env uuid repo mirror).
Proof.
  intros Hq. unfold obtain_mirror. cbn zeta. destruct mirror.
  - do 2 keeps_step. intros w r w' H Hk.
    apply fetch_remotes_inv in H as (_ & _ & Hfs & _).
    unfold keeps. now rewrite Hfs.
  - keeps_step. intros w r w' H Hk.
    apply clone_from_inv in H as (_ & _ & Hfs & _).
    unfold keeps. rewrite Hfs; [exact Hk | exact Hinside | now apply Hq].
Qed.

Lemma keeps_produce_repo_data repo :
  p <> computed_cache uuid ->
  preserves (keeps p v) (produce_repo_data env uuid repo).
Proof.
  intros Hq. unfold produce_repo_data. cbn zeta.
  apply preserves_exists. intros w r w' Hk Hrun.
  assert (Hm : hit w (clone_target uuid) = false -> p <> clone_target uuid).
  { intros Hh. apply (keeps_absent w); [exact Hk | now apply hit_false|].
    rewrite !elem_of_cons. auto. }
  refine ((_ : preserves (keeps p v) _) w r w' Hrun Hk).
  apply preserves_bind; [now apply keeps_obtain_mirror | intros _].
  do 2 keeps_step.
  apply preserves_bind; [now apply keeps_dump | intros _].
  apply preserves_ret.
Qed.

(** Along a whole run the node at [p] stays what it was. *)
Lemma keeps_fetch_repo_data token :
  preserves (keeps p v) (fetch_repo_data env uuid token).
Proof.
  unfold fetch_repo_data. cbn zeta.
  apply preserves_exists. intros w0 r0 w0' Hk0 Hrun0.
  refine ((_ : preserves (keeps p v) _) w0 r0 w0' Hrun0 Hk0).
  apply preserves_bind.
  { destruct (negb _); [apply keeps_makedirs | apply preserves_ret]. }
  intros _. do 2 keeps_step.
  apply preserves_exists. intros w1 r1 w1' Hk1 Hrun1.
  assert (Hg : hit w1 (github_cache uuid) = false -> p <> github_cache uuid).
  { intros Hh. apply (keeps_absent w1); [exact Hk1 | now apply hit_false|].
    rewrite !elem_of_cons. auto. }
  refine ((_ : preserves (keeps p v) _) w1 r1 w1' Hrun1 Hk1).
  apply preserves_bind.
  { destruct (hit w1 (github_cache uuid)).
    - keeps_step. apply keeps_load.
    - now apply keeps_produce_report, Hg. }
  intros report.
  apply preserves_exists. intros w2 r2 w2' Hk2 Hrun2.
  assert (Hc : hit w2 (computed_cache uuid) = false
               -> p <> computed_cache uuid).
  { intros Hh. apply (keeps_absent w2); [exact Hk2 | now apply hit_false|].
    rewrite !elem_of_cons. auto. }
  refine ((_ : preserves (keeps p v) _) w2 r2 w2' Hrun2 Hk2).
  apply preserves_bind.
  { destruct (hit w2 (computed_cache uuid)); simpl.
    - keeps_step. apply keeps_load.
    - now apply keeps_produce_repo_data, Hc. }
  intros repo_data. do 2 keeps_step. apply preserves_ret.
Qed.

End Frame.

(* ===================================================================== *)
(** * The storage layout of a key *)
(* ===================================================================== *)

Section LayoutClaims.

(** C8, as stated, does not hold: no assignment of storage roots to keys
    contains the persisted paths of every key while keeping the roots of
    different keys apart. *)
Lemma no_per_key_storage_root : ~ exists root, per_key_roots root.
Proof. intros [root Hroot]. exact (per_key_roots_impossible root Hroot). Qed.

(** C8, amended: the persisted state of a key lives at paths built from
    the raw key.  The mirror directory is [os.path.join] of the storage
    directory and the key (the key itself when it is absolute); the two
    artifact files and the status file are that path followed by a fixed
    suffix; the four paths are pairwise distinct.  The three files have
    the parent directory of the mirror directory and do not lie below it:
    they are its siblings, and no assignment of a storage root to every
    key holds the paths of each key and keeps the keys apart.  The
    separators of a relative key are directory levels below the storage
    directory.  A run for a key in normal form that returns leaves the
    status log and the two artifacts as files at these paths, the mirror
    as a directory when it cloned, their parent as a directory, and
    changes no path in normal form other than the four, the directories
    above them and what lies below the mirror. *)
Theorem storage_layout_uses_raw_key (uuid : string) :
  clone_target uuid
    = (if starts_with_slash uuid then uuid
       else "ephemeral_storage/" +:+ uuid)
  /\ github_cache uuid = clone_target uuid +:+ ".github.json"
  /\ computed_cache uuid = clone_target uuid +:+ "_computed.json"
  /\ status_file uuid = clone_target uuid +:+ ".status.json"
  /\ NoDup (persisted_paths uuid)
  /\ (forall p,
        p ∈ [github_cache uuid; computed_cache uuid; status_file uuid] ->
        os_path_dirname p = os_path_dirname (clone_target uuid) /\
        inside (clone_target uuid) p = false)
  /\ (~ exists root, per_key_roots root)
  /\ (starts_with_slash uuid = false ->
      path_components (clone_target uuid)
      = "ephemeral_storage" :: path_components uuid)
  /\ (normal_path uuid = true ->
      forall env token w payload w',
        fetch_repo_data env uuid token w = (Ok payload, w') ->
        (exists log,
           fs w' !! status_file uuid = Some (File (Parsed (JList log)))) /\
        (exists report,
           fs w' !! github_cache uuid = Some (File (Parsed report))) /\
        (exists repo_data,
           fs w' !! computed_cache uuid = Some (File (Parsed repo_data))) /\
        (hit w (computed_cache uuid) = false ->
         hit w (clone_target uuid) = false ->
         fs w' !! clone_target uuid = Some Dir) /\
        fs w' !! os_path_dirname (clone_target uuid) = Some Dir /\
        (forall p,
           normal_path p = true ->
           p ∉ persisted_paths uuid ->
           p ∉ dir_prefixes (os_path_dirname (github_cache uuid)) ->
           inside (clone_target uuid) p = false ->
           fs w' !! p = fs w !! p)).
Proof.
  split; [|split; [|split; [|split; [|split; [|split; [|split; [|split]]]]]]].
  - unfold clone_target, os_path_join.
    destruct (starts_with_slash uuid); reflexivity.
  - apply github_cache_eq.
  - apply computed_cache_eq.
  - apply status_file_eq.
  - apply persisted_paths_NoDup.
  - intros p Hp. rewrite !elem_of_cons, elem_of_nil in Hp.
    destruct Hp as [->|[->|[->|[]]]].
    + split; [|apply github_not_inside].
      rewrite github_cache_eq. now apply dirname_sibling.
    + split; [|apply computed_not_inside].
      rewrite computed_cache_eq. now apply dirname_sibling.
    + split; [|apply status_not_inside].
      rewrite status_file_eq. now apply dirname_sibling.
  - intros [root Hroot]. exact (per_key_roots_impossible root Hroot).
  - apply components_of_target.
  - intros Hnormal env token w payload w' H.
    pose proof (normal_path_relative _ Hnormal) as Hrel.
    destruct (run_returns env uuid token _ _ _ H)
      as (report & repo_data & _ & HG & HC & _).
    split; [|split; [now exists report|split; [now exists repo_data|]]].
    { destruct (returned_run_status_log env _ _ _ _ _ H) as [l Hl].
      exists l. unfold status_log in Hl.
      destruct (fs w' !! status_file uuid) as [[|[[| | | |l'|]|]]|];
        try discriminate.
      now injection Hl as ->. }
    split; [|split].
    + intros Hc Hm. rewrite (run_returns_mirror env uuid token _ _ _ H).
      now rewrite Hc, Hm.
    + rewrite <- (dirname_sibling uuid ".status.json") by reflexivity.
      rewrite <- status_file_eq.
      exact (returned_run_parent_dir env uuid token w payload w' Hrel H).
    + intros p _ Hp Hdirs Hin.
      unfold persisted_paths in Hp. rewrite !not_elem_of_cons in Hp.
      destruct Hp as (Hg & Hc & Hs & Ht & _).
      exact (keeps_fetch_repo_data env uuid p (fs w !! p) Hs Hin
               (or_intror (conj Hg (conj Hc (conj Ht Hdirs))))
               token w (Ok payload) w' H eq_refl).
Qed.

(** The first run for "acme/widgets" on an empty disk. *)
Lemma storage_layout_uses_raw_key_witness :
  path_components (clone_target "acme/widgets")
  = ["ephemeral_storage"; "acme"; "widgets"] /\
  fs Demo.cached_world !! "ephemeral_storage/acme" = Some Dir /\
  fs Demo.cached_world !! "ephemeral_storage/acme/widgets" = Some Dir /\
  exists log,
    fs Demo.cached_world !! "ephemeral_storage/acme/widgets.status.json"
    = Some (File (Parsed (JList log))).
Proof.
  destruct (storage_layout_uses_raw_key "acme/widgets")
    as (_ & _ & _ & _ & _ & _ & _ & Hcomp & Hrun).
  assert (Hr : exists payload,
            fetch_repo_data Demo.env "acme/widgets" (Some "token")
              Demo.empty_world = (Ok payload, Demo.cached_world))
    by (eexists; vm_compute; reflexivity).
  destruct Hr as [payload Hr].
  destruct (Hrun eq_refl Demo.env (Some "token") Demo.empty_world payload
              Demo.cached_world Hr)
    as (Hlog & _ & _ & Hmirror & Hdir & _).
  split; [exact (Hcomp eq_refl)|]. split; [exact Hdir|].
  split; [|exact Hlog].
  apply Hmirror; reflexivity.
Defined.

End LayoutClaims.

(* ===================================================================== *)
(** * Further properties of a pipeline run *)
(* ===================================================================== *)

Section MorePipeline.

(** X1: the log of a run that returns is rounded off.  For a key in
    normal form it holds one entry per stage the run went through, in
    order, and every entry, the last one included, has an end timestamp. *)
Theorem returned_run_closes_its_log env uuid token w payload w' :
  normal_path uuid = true ->
  fetch_repo_data env uuid token w = (Ok payload, w') ->
  exists l,
    status_log uuid w' = Some l /\
    Forall (fun e => has_end e = true) l /\
    open_entries l = [] /\
    Forall2 (fun e m => entry_message e = Some m) l
      (expected_log (hit w (github_cache uuid)) (hit w (computed_cache uuid))
         (hit w (clone_target uuid))).
Proof.
  intros _ H.
  pose proof (hoare_run _ _ _ _ _ _ _ (fetch_repo_data_log env uuid token)
                I H) as (l & Hl & Hclosed).
  destruct (run_returns _ _ _ _ _ _ H)
    as (_ & _ & _ & _ & _ & (l' & Hl' & Hmsgs) & _).
  rewrite Hl in Hl'. injection Hl' as <-.
  exists l. split; [exact Hl|]. split; [exact Hclosed|]. split; [|exact Hmsgs].
  unfold open_entries. clear -Hclosed.
  induction Hclosed as [|e l He _ IH]; [reflexivity|].
  simpl. now rewrite He.
Qed.

Lemma returned_run_closes_its_log_witness :
  exists l,
    status_log "acme/widgets" Demo.cached_world = Some l /\
    Forall (fun e => has_end e = true) l /\ length l = 6%nat.
Proof.
  assert (Hr : exists payload,
            fetch_repo_data Demo.env "acme/widgets" (Some "token")
              Demo.empty_world = (Ok payload, Demo.cached_world))
    by (eexists; vm_compute; reflexivity).
  destruct Hr as [payload Hr].
  destruct (returned_run_closes_its_log Demo.env "acme/widgets"
              (Some "token") Demo.empty_world payload Demo.cached_world
              eq_refl Hr)
    as (l & Hl & Hclosed & _ & Hmsgs).
  exists l. split; [exact Hl|]. split; [exact Hclosed|].
  apply Forall2_length in Hmsgs. rewrite Hmsgs. reflexivity.
Defined.

(** X2: when the producer of a stage raises, the persisted log ends with
    the entry of that stage, still open; the entries before it are closed.
    A client that polls the status sees in which stage the run stopped. *)
Theorem failed_producer_leaves_its_stage_open env uuid token w s msg w' :
  fetch_repo_data env uuid token w = (Raise (ProducerError s msg), w') ->
  exists l d m,
    status_log uuid w' = Some (l ++ [JDict d])%list /\
    Forall (fun e => has_end e = true) l /\
    dict_get "end" d = None /\
    dict_get "status" d = Some (JStr m) /\
    m ∈ stage_messages s.
Proof.
  intros H.
  pose proof (hoare_run _ _ _ _ _ _ _ (fetch_repo_data_log env uuid token)
                I H) as (m & (l & d & Hl & Hcl & Hend & Hst) & Hm).
  now exists l, d, m.
Qed.

Lemma failed_producer_leaves_its_stage_open_witness :
  exists l d,
    status_log "acme/widgets"
      (fetch_repo_data Demo.env_analysis_fails "acme/widgets" (Some "token")
         Demo.empty_world).2 = Some (l ++ [JDict d])%list /\
    Forall (fun e => has_end e = true) l /\
    dict_get "end" d = None /\
    dict_get "status" d = Some (JStr "Analysing commits").
Proof.
  destruct (fetch_repo_data Demo.env_analysis_fails "acme/widgets"
              (Some "token") Demo.empty_world) as [r w'] eqn:Hrun.
  assert (Hr : r = Raise (ProducerError DerivedAnalysis "no commits")).
  { apply (f_equal fst) in Hrun. simpl in Hrun. rewrite <- Hrun.
    vm_compute. reflexivity. }
  subst r.
  destruct (failed_producer_leaves_its_stage_open
              Demo.env_analysis_fails "acme/widgets" (Some "token")
              Demo.empty_world DerivedAnalysis "no commits" w' Hrun)
    as (l & d & m & Hl & Hcl & Hend & Hst & Hm).
  apply list_elem_of_singleton in Hm. subst m.
  exists l, d. simpl. auto.
Defined.

(** X3: a run for a key in normal form changes nothing on disk but its
    own status file, the paths of its key that are missing, missing
    directories on the way to its storage location, and what lies below
    its mirror directory.  Any other path in normal form that exists (an
    artifact, the mirror directory itself, a file of another key) is left
    as it is, whatever the outcome of the run. *)
Theorem run_leaves_other_paths_alone env uuid token w r w' p :
  normal_path uuid = true ->
  normal_path p = true ->
  p <> status_file uuid ->
  inside (clone_target uuid) p = false ->
  is_Some (fs w !! p) \/
  ((p ∉ persisted_paths uuid) /\
   (p ∉ dir_prefixes (os_path_dirname (github_cache uuid)))) ->
  fetch_repo_data env uuid token w = (r, w') ->
  fs w' !! p = fs w !! p.
Proof.
  intros _ _ Hstatus Hin Hside H.
  assert (Hside' :
    is_Some (fs w !! p) \/
    (p <> github_cache uuid /\ p <> computed_cache uuid /\
     p <> clone_target uuid /\
     (p ∉ dir_prefixes (os_path_dirname (github_cache uuid))))).
  { destruct Hside as [Hsome|[Hnot Hdirs]]; [now left | right].
    unfold persisted_paths in Hnot. rewrite !not_elem_of_cons in Hnot.
    tauto. }
  exact (keeps_fetch_repo_data env uuid p (fs w !! p) Hstatus Hin Hside'
           token w r w' H eq_refl).
Qed.

Lemma run_leaves_other_paths_alone_witness :
  fs (fetch_repo_data Demo.env_analysis_fails "acme/widgets" (Some "token")
        Demo.corrupt_world).2 !! computed_cache "acme/widgets"
  = fs Demo.corrupt_world !! computed_cache "acme/widgets".
Proof.
  destruct (fetch_repo_data Demo.env_analysis_fails "acme/widgets"
              (Some "token") Demo.corrupt_world) as [r w'] eqn:Hrun.
  apply (run_leaves_other_paths_alone Demo.env_analysis_fails "acme/widgets"
           (Some "token") Demo.corrupt_world r w');
    [reflexivity | reflexivity | discriminate | reflexivity
    | left; eexists; vm_compute; reflexivity | exact Hrun].
Defined.

(** X4: the disk a run that returns leaves behind holds everything its
    payload was built from.  A later run for the key that returns, with
    whatever token and whatever the collaborators answer then, calls only
    [get_repo], rebuilds the same payload from the two artifacts and leaves
    them as they are. *)
Theorem later_run_rebuilds_the_payload_from_disk
    env env' uuid token token' w payload w1 payload' w2 :
  fetch_repo_data env uuid token w = (Ok payload, w1) ->
  fetch_repo_data env' uuid token' w1 = (Ok payload', w2) ->
  payload' = payload /\
  trace w2 = (trace w1 ++ [CGetRepo token' uuid])%list /\
  fs w2 !! github_cache uuid = fs w1 !! github_cache uuid /\
  fs w2 !! computed_cache uuid = fs w1 !! computed_cache uuid.
Proof.
  intros H1 H2.
  destruct (run_returns _ _ _ _ _ _ H1)
    as (report & rd & Hset & HG & HC & _).
  destruct (run_returns _ _ _ _ _ _ H2)
    as (report' & rd' & Hset' & HG' & HC' & _ & Hg & Hc).
  pose proof (hit_some _ _ _ HG) as Hhg. pose proof (hit_some _ _ _ HC) as Hhc.
  rewrite Hhg in Hg. rewrite Hhc in Hc.
  rewrite HG in Hg. injection Hg as <-.
  rewrite HC in Hc. injection Hc as <-.
  split; [congruence|]. split; [|split; congruence].
  destruct (run_calls _ _ _ _ _ _ H2) as (repo & calls & Htr & _ & Hall).
  rewrite Htr, (Hall payload' eq_refl). unfold expected_calls.
  now rewrite Hhg, Hhc.
Qed.

Lemma later_run_rebuilds_the_payload_from_disk_witness :
  (fetch_repo_data Demo.env_analysis_fails "acme/widgets" None
     Demo.cached_world).1
  = (fetch_repo_data Demo.env "acme/widgets" (Some "token")
       Demo.empty_world).1.
Proof.
  assert (Hr1 : exists payload,
            fetch_repo_data Demo.env "acme/widgets" (Some "token")
              Demo.empty_world = (Ok payload, Demo.cached_world))
    by (eexists; vm_compute; reflexivity).
  destruct Hr1 as [payload Hr1].
  destruct (fetch_repo_data Demo.env_analysis_fails "acme/widgets" None
              Demo.cached_world) as [r w2] eqn:Hr2.
  assert (Hok : exists payload', r = Ok payload').
  { apply (f_equal fst) in Hr2. simpl in Hr2. rewrite <- Hr2.
    eexists. vm_compute. reflexivity. }
  destruct Hok as [payload' ->].
  destruct (later_run_rebuilds_the_payload_from_disk
              Demo.env Demo.env_analysis_fails "acme/widgets" (Some "token")
              None Demo.empty_world payload Demo.cached_world payload' w2
              Hr1 Hr2) as [-> _].
  now rewrite Hr1.
Defined.

End MorePipeline.

(* ===================================================================== *)
(** * Further properties of the status log *)
(* ===================================================================== *)

Section MoreStatus.

Lemma set_last_end_inv v l l' :
  set_last_end v l = Ok l' ->
  exists old d, l = (old ++ [JDict d])%list /\
                l' = (old ++ [JDict (dict_set "end" v d)])%list.
Proof.
  revert l'. induction l as [|x [|y l] IH]; intros l' H.
  - discriminate.
  - simpl in H. destruct x as [| | | | |d]; try discriminate.
    simpl in H. injection H as <-. now exists [], d.
  - rewrite set_last_end_cons in H.
    destruct (set_last_end v (y :: l)) as [l0|] eqn:Hl0; [|discriminate].
    injection H as <-. destruct (IH l0 eq_refl) as (old & d & Hl & ->).
    exists (x :: old), d. split; [|reflexivity]. simpl. now rewrite Hl.
Qed.

(** X5: a status update that does not reset the log only appends.  The
    entries before the last stay as they are, the last entry receives the
    end timestamp, read from the clock first, and the new entry, when a
    message is given, follows with a start timestamp read after it. *)
Theorem status_update_only_appends env uuid msg w w' l :
  status_log uuid w = Some l ->
  update_status env uuid msg false w = (Ok tt, w') ->
  exists old d,
    l = (old ++ [JDict d])%list /\
    status_log uuid w'
    = Some (old
            ++ [JDict (dict_set "end"
                         (JStr (strftime env iso_format
                                  (clock env (ticks w)))) d)]
            ++ match msg with
               | Some m => [status_entry
                              (strftime env iso_format
                                 (clock env (S (ticks w)))) m]
               | None => []
               end)%list.
Proof.
  intros Hl H. pose proof (status_log_hit uuid _ _ Hl) as Hhit.
  apply update_status_inv in H as (_ & _ & old' & Hold & Hlog & _).
  rewrite Hhit in Hold, Hlog. simpl in Hold, Hlog.
  destruct Hold as (l0 & Hl0 & Hset). rewrite Hl in Hl0. injection Hl0 as <-.
  apply set_last_end_inv in Hset as (old & d & -> & ->).
  exists old, d. split; [reflexivity|].
  rewrite Hlog, <- app_assoc. destruct msg; [|reflexivity].
  now rewrite Nat.add_1_r.
Qed.

Lemma status_update_only_appends_witness :
  status_log "acme/widgets"
    (update_status Demo.env "acme/widgets" (Some "Cloning repo") false
       logged_world).2
  = Some [JDict [("start", JStr "2020-01-01T00:00:00Z");
                 ("status", JStr "Initial validation of repo");
                 ("end", JStr "%Y-%m-%dT%H:%M:%SZ@1001")];
          JDict [("start", JStr "%Y-%m-%dT%H:%M:%SZ@1002");
                 ("status", JStr "Cloning repo")]].
Proof.
  destruct (update_status Demo.env "acme/widgets" (Some "Cloning repo") false
              logged_world) as [r w'] eqn:Hrun.
  assert (Hr : r = Ok tt).
  { apply (f_equal fst) in Hrun. simpl in Hrun. rewrite <- Hrun.
    vm_compute. reflexivity. }
  subst r.
  assert (Hlog : status_log "acme/widgets" logged_world
                 = Some [status_entry "2020-01-01T00:00:00Z"
                           "Initial validation of repo"])
    by (vm_compute; reflexivity).
  destruct (status_update_only_appends Demo.env "acme/widgets"
              (Some "Cloning repo") logged_world w' _ Hlog Hrun)
    as (old & d & Hl & Hlog').
  simpl. rewrite Hlog'. clear Hlog' Hrun Hlog.
  destruct old as [|x old]; simpl in Hl.
  - unfold status_entry in Hl. injection Hl as <-. vm_compute. reflexivity.
  - exfalso. injection Hl as _ Hl. destruct old; discriminate.
Defined.

Lemma json_load_file p w c :
  fs w !! p = Some (File c) ->
  json_load p w
  = (match c with Parsed j => Ok j | Unparseable _ => Raise JSONDecodeError end,
     w).
Proof. intros H. unfold json_load. rewrite H. now destruct c. Qed.

(** X6: a status update that does not reset the log fails on a damaged
    status file and leaves it as it is: with the parse error on a file that
    is no JSON document, with [IndexError] on an empty list.  Only the
    reset at the start of the next run replaces such a file. *)
Theorem status_update_fails_on_damaged_log env uuid msg w r w' c :
  fs w !! status_file uuid = Some (File c) ->
  (exists raw, c = Unparseable raw) \/ c = Parsed (JList []) ->
  update_status env uuid msg false w = (r, w') ->
  fs w' = fs w /\
  r = Raise (match c with
             | Unparseable _ => JSONDecodeError
             | Parsed _ => IndexError
             end).
Proof.
  intros Hfile Hc H. unfold update_status in H.
  step H as ex w0 Hex; [|rewrite path_exists_run in Hex; discriminate].
  rewrite path_exists_run in Hex. injection Hex as <- <-.
  rewrite (hit_some _ _ _ Hfile) in H. simpl in H.
  step H as closed w1 Hclosed.
  - exfalso. step_ok Hclosed as loaded w2 Hload.
    rewrite (json_load_file _ _ _ Hfile) in Hload.
    destruct Hc as [[raw ->]| ->]; [discriminate|].
    injection Hload as <- <-.
    step_ok Hclosed as now w3 Hnow.
    apply lift_inv in Hclosed as [Hclosed _]. discriminate.
  - step Hclosed as loaded w2 Hload.
    + rewrite (json_load_file _ _ _ Hfile) in Hload.
      destruct Hc as [[raw ->]| ->]; [discriminate|].
      injection Hload as <- <-.
      step Hclosed as now w3 Hnow; [|rewrite utcnow_run in Hnow; discriminate].
      rewrite utcnow_run in Hnow. injection Hnow as <- <-.
      apply lift_inv in Hclosed as [[= <-] ->]. now split.
    + rewrite (json_load_file _ _ _ Hfile) in Hload.
      destruct Hc as [[raw ->]| ->]; [|discriminate].
      injection Hload as <- <-. now split.
Qed.

Lemma status_update_fails_on_damaged_log_witness :
  (update_status Demo.env "acme/widgets" (Some "Cloning repo") false
     damaged_world).1 = Raise JSONDecodeError /\
  fs (update_status Demo.env "acme/widgets" (Some "Cloning repo") false
        damaged_world).2 = fs damaged_world.
Proof.
  destruct (update_status Demo.env "acme/widgets" (Some "Cloning repo") false
              damaged_world) as [r w'] eqn:Hrun.
  assert (Hfile : fs damaged_world !! status_file "acme/widgets"
                  = Some (File (Unparseable "[{")))
    by (vm_compute; reflexivity).
  destruct (status_update_fails_on_damaged_log Demo.env "acme/widgets"
              (Some "Cloning repo") damaged_world r w' (Unparseable "[{")
              Hfile (or_introl (ex_intro _ "[{" eq_refl)) Hrun)
    as [Hfs ->].
  split; [reflexivity | exact Hfs].
Defined.

End MoreStatus.

(* ===================================================================== *)
(** * Further properties of the registry and the API handlers *)
(* ===================================================================== *)

Section MoreRegistry.

Context (env : Env) (py : Interp).

Lemma step_keeps_finished ev a k f :
  datastore a !! k = Some f -> done f = true ->
  datastore (step env py a ev) !! k = Some f.
Proof.
  intros Hf Hdone.
  destruct ev as [uuid token|uuid token|uuid].
  1: pose proof (request_registry env py _ uuid token a (or_introl eq_refl))
         as Hreg.
  2: pose proof (request_registry env py _ uuid token a (or_intror eq_refl))
         as Hreg.
  1,2: destruct (datastore a !! uuid) as [g|] eqn:Hg;
       destruct Hreg as [-> _]; [exact Hf|];
       rewrite lookup_insert_ne; [exact Hf | congruence].
  simpl. unfold worker_run.
  destruct (datastore a !! uuid) as [g|] eqn:Hg; [|exact Hf].
  destruct (done g) eqn:Hdg; [exact Hf|].
  destruct (fetch_repo_data env (fut_uuid g) (fut_token g) (world a))
    as [r w'].
  simpl. rewrite lookup_insert_ne; [exact Hf | congruence].
Qed.

(** X7: the registry never evicts, replaces or re-runs a finished job.
    Whatever requests arrive and whatever workers do afterwards, the future
    of the key stays the one that was stored, with the same result. *)
Theorem finished_job_is_kept a evs k f :
  datastore a !! k = Some f -> done f = true ->
  datastore (run env py a evs) !! k = Some f.
Proof.
  revert a. induction evs as [|ev evs IH]; intros a Hf Hdone.
  - exact Hf.
  - simpl. apply IH; [|exact Hdone]. now apply step_keeps_finished.
Qed.

Lemma step_token ev a k :
  (fun f => (fut_uuid f, fut_token f)) <$> datastore (step env py a ev) !! k
  = match datastore a !! k with
    | Some f => Some (fut_uuid f, fut_token f)
    | None => (fun t => (k, t)) <$> first_request k [ev]
    end.
Proof.
  destruct ev as [uuid token|uuid token|uuid].
  1: pose proof (request_registry env py _ uuid token a (or_introl eq_refl))
         as Hreg.
  2: pose proof (request_registry env py _ uuid token a (or_intror eq_refl))
         as Hreg.
  1,2: simpl first_request;
       destruct (decide (uuid = k)) as [->|Hne];
       [ destruct (datastore a !! k) as [g|] eqn:Hg;
         destruct Hreg as [-> _];
         [now rewrite Hg | now rewrite lookup_insert_eq]
       | destruct (datastore a !! uuid) as [g|] eqn:Hg;
         destruct Hreg as [-> _]; rewrite ?lookup_insert_ne by exact Hne;
         now destruct (datastore a !! k) ].
  simpl. unfold worker_run.
  destruct (datastore a !! uuid) as [g|] eqn:Hg;
    [|now destruct (datastore a !! k)].
  destruct (done g) eqn:Hdg; [now destruct (datastore a !! k)|].
  destruct (fetch_repo_data env (fut_uuid g) (fut_token g) (world a))
    as [r w'].
  simpl. destruct (decide (uuid = k)) as [->|Hne].
  - now rewrite lookup_insert_eq, Hg.
  - rewrite lookup_insert_ne by exact Hne. now destruct (datastore a !! k).
Qed.

Lemma run_token a evs k :
  (fun f => (fut_uuid f, fut_token f)) <$> datastore (run env py a evs) !! k
  = match datastore a !! k with
    | Some f => Some (fut_uuid f, fut_token f)
    | None => (fun t => (k, t)) <$> first_request k evs
    end.
Proof.
  revert a. induction evs as [|ev evs IH]; intros a.
  - simpl. now destruct (datastore a !! k).
  - change (run env py a (ev :: evs)) with (run env py (step env py a ev) evs).
    rewrite IH. pose proof (step_token ev a k) as Hstep.
    destruct (datastore (step env py a ev) !! k) as [g|] eqn:Hg;
      destruct (datastore a !! k) as [f|] eqn:Hf; simpl in Hstep.
    + congruence.
    + rewrite Hstep.
      destruct ev as [uuid token|uuid token|uuid]; simpl in *;
        try discriminate; destruct (decide (uuid = k)); simpl in *;
        congruence.
    + discriminate.
    + destruct ev as [uuid token|uuid token|uuid]; simpl in *;
        try reflexivity; destruct (decide (uuid = k)); simpl in *;
        congruence.
Qed.

(** X8: the job of a key is the one its first request created.  It runs
    for that key with the token of that request; the tokens of all later
    requests for the key are dropped. *)
Theorem job_has_token_of_first_request w evs k :
  (fun f => (fut_uuid f, fut_token f))
    <$> datastore (run env py (initial_app w) evs) !! k
  = (fun t => (k, t)) <$> first_request k evs.
Proof. rewrite run_token. simpl. now rewrite lookup_empty. Qed.

(** X9: once a worker has completed the job of a key with a payload, the
    next result query answers 200 with exactly that payload as JSON
    document, whatever token the query carries.  The status file the run
    wrote is read on the way, the registry and the disk stay as the worker
    left them. *)
Theorem completed_job_result_is_delivered a k f t payload w' :
  datastore a !! k = Some f -> done f = false -> fut_uuid f = k ->
  fetch_repo_data env k (fut_token f) (world a) = (Ok payload, w') ->
  step env py (worker_run env k a) (RequestData k t)
  = mkApp w'
      (<[k := mkFuture k (fut_token f) (start_time f) (Some (Ok payload))]>
         (datastore a))
      (submissions a)
      (mkResponse 200 [("Content-Type", "application/json")]
         (Some (JDict [("status", JNum 200); ("content", payload)]))).
Proof. apply completed_job_query. Qed.

(** X10: as long as a key has no finished job, the data endpoint acts as
    the request endpoint: it submits the job when the key is new and sends
    the same 202 answer, and the two leave the application in the same
    state. *)
Theorem data_endpoint_acts_as_request_endpoint a k t :
  (forall f, datastore a !! k = Some f -> done f = false) ->
  step env py a (RequestData k t) = step env py a (RequestAvailable k t).
Proof.
  intros Hrunning. unfold step, serve.
  rewrite data_post_run, available_post_run.
  destruct (availablitiy env k t (with_json_header (new_request a)))
    as [[av|e] a1] eqn:H; [|reflexivity].
  assert (Hav : av_status av = 202).
  { destruct (datastore a !! k) as [f|] eqn:Hf.
    - assert (Hf' : datastore (with_json_header (new_request a)) !! k
                    = Some f) by exact Hf.
      destruct (availablitiy_known _ _ _ _ _ _ _ Hf' H)
        as (_ & _ & _ & _ & _ & Hst & _).
      now rewrite (Hrunning f eq_refl) in Hst.
    - assert (Hf' : datastore (with_json_header (new_request a)) !! k
                    = None) by exact Hf.
      rewrite (availablitiy_unknown _ _ _ _ Hf') in H.
      now injection H as <- _. }
  rewrite Hav. reflexivity.
Qed.

(** X11: a status query for a finished job is a pure read that answers
    200 "ready" with the persisted status, whether the job returned a
    payload or raised: the answer tells a failed job from a succeeded one
    only through the log. *)
Theorem status_query_of_finished_job a k f t status :
  datastore a !! k = Some f -> done f = true ->
  read_status k (world a) = Ok status ->
  step env py a (RequestAvailable k t)
  = mkApp (world a) (datastore a) (submissions a)
      (mkResponse 200 [("Content-Type", "application/json")]
         (Some (encode_availability (mkAvailability 200 "ready" status)))).
Proof.
  intros Hf Hdone Hstatus. unfold step, serve. rewrite available_post_run.
  assert (Hf' : datastore (with_json_header (new_request a)) !! k = Some f)
    by exact Hf.
  rewrite (availablitiy_done env k t _ f Hf' Hdone).
  change (world (with_json_header (new_request a))) with (world a).
  rewrite Hstatus. reflexivity.
Qed.

(** X12: both endpoints read the status file before they look at the
    job.  When the file of a known key cannot be read, the handler raises
    the error of the read, even if the result of the job is there: the
    client gets the server error, status 500 with the traceback, and
    neither the status nor the result; registry and disk stay as they
    are. *)
Theorem unreadable_status_file_fails_the_query a k f t e :
  datastore a !! k = Some f -> done f = true ->
  read_status k (world a) = Raise e ->
  (APIDataAvailableHandler_post env k t (new_request a)).1 = Raise e /\
  (APIDataHandler_post env py k t (new_request a)).1 = Raise e /\
  step env py a (RequestAvailable k t)
  = mkApp (world a) (datastore a) (submissions a) (server_error py e) /\
  step env py a (RequestData k t)
  = mkApp (world a) (datastore a) (submissions a) (server_error py e).
Proof.
  intros Hf Hdone Hstatus.
  assert (Hf' : datastore (with_json_header (new_request a)) !! k = Some f)
    by exact Hf.
  pose proof (availablitiy_done env k t _ f Hf' Hdone) as Hav.
  change (world (with_json_header (new_request a))) with (world a) in Hav.
  rewrite Hstatus in Hav. unfold step, serve.
  rewrite available_post_run, data_post_run, Hav. now repeat split.
Qed.

End MoreRegistry.

Lemma finished_job_is_kept_witness :
  exists f,
    datastore finished_app !! "acme/widgets" = Some f /\
    datastore (run Demo.env_not_found Demo.py finished_app
                 [RequestData "acme/widgets" None;
                  WorkerFinishes "acme/widgets";
                  RequestAvailable "acme/widgets" (Some "other")])
      !! "acme/widgets" = Some f.
Proof.
  assert (H : exists f, datastore finished_app !! "acme/widgets" = Some f /\
                        done f = true)
    by (eexists; split; vm_compute; reflexivity).
  destruct H as (f & Hf & Hdone). exists f. split; [exact Hf|].
  exact (finished_job_is_kept Demo.env_not_found Demo.py finished_app _
           "acme/widgets" f Hf Hdone).
Defined.

Lemma completed_job_result_is_delivered_witness :
  exists payload,
    body (response (step Demo.env Demo.py
                      (worker_run Demo.env "acme/widgets" submitted_app)
                      (RequestData "acme/widgets" None)))
    = Some (JDict [("status", JNum 200); ("content", payload)]).
Proof.
  assert (H : exists f payload w',
            datastore submitted_app !! "acme/widgets" = Some f /\
            done f = false /\ fut_uuid f = "acme/widgets" /\
            fetch_repo_data Demo.env "acme/widgets" (fut_token f)
              (world submitted_app) = (Ok payload, w')).
  { do 3 eexists. split; [vm_compute; reflexivity|].
    split; [reflexivity|]. split; [reflexivity|]. vm_compute. reflexivity. }
  destruct H as (f & payload & w' & Hf & Hrunning & Hk & Hrun).
  exists payload.
  now rewrite (completed_job_result_is_delivered Demo.env Demo.py
                 submitted_app "acme/widgets" f None payload w'
                 Hf Hrunning Hk Hrun).
Defined.

Lemma data_endpoint_acts_as_request_endpoint_witness :
  step Demo.env Demo.py submitted_app (RequestData "acme/widgets" None)
  = step Demo.env Demo.py submitted_app
      (RequestAvailable "acme/widgets" None).
Proof.
  apply data_endpoint_acts_as_request_endpoint.
  intros f Hf.
  assert (H : exists g, datastore submitted_app !! "acme/widgets" = Some g
                        /\ done g = false)
    by (eexists; split; [vm_compute; reflexivity | reflexivity]).
  destruct H as (g & Hg & Hrunning). congruence.
Defined.

Lemma status_query_of_finished_job_witness :
  exists status,
    body (response (step Demo.env Demo.py failed_app
                      (RequestAvailable "acme/widgets" None)))
    = Some (encode_availability (mkAvailability 200 "ready" status)).
Proof.
  assert (H : exists f e status,
            datastore failed_app !! "acme/widgets" = Some f /\
            outcome f = Some (Raise e) /\
            read_status "acme/widgets" (world failed_app) = Ok status).
  { do 3 eexists. split; [vm_compute; reflexivity|].
    split; [reflexivity|]. vm_compute. reflexivity. }
  destruct H as (f & e & status & Hf & Hout & Hstatus).
  exists status.
  assert (Hdone : done f = true) by (unfold done; now rewrite Hout).
  now rewrite (status_query_of_finished_job Demo.env Demo.py failed_app
                 "acme/widgets" f None status Hf Hdone Hstatus).
Defined.

Lemma unreadable_status_file_fails_the_query_witness :
  response (step Demo.env Demo.py unreadable_app
              (RequestData "acme/widgets" None))
  = mkResponse 500 [("Content-Type", "text/plain")]
      (Some (JStr "Traceback (most recent call last): ...")).
Proof.
  assert (H : exists f, datastore unreadable_app !! "acme/widgets" = Some f
                        /\ done f = true)
    by (eexists; split; vm_compute; reflexivity).
  destruct H as (f & Hf & Hdone).
  assert (Hstatus : read_status "acme/widgets" (world unreadable_app)
                    = Raise JSONDecodeError) by (vm_compute; reflexivity).
  destruct (unreadable_status_file_fails_the_query Demo.env Demo.py
              unreadable_app "acme/widgets" f None JSONDecodeError
              Hf Hdone Hstatus) as (_ & _ & _ & ->).
  reflexivity.
Defined.

(* ===================================================================== *)
(** * Elapsed time in words: [pretty_timedelta] *)
(* ===================================================================== *)

Section MoreTime.

Ltac split_condition :=
  match goal with
  | |- context [bool_decide ?P] =>
      destruct (bool_decide_reflect P); cbn [orb negb]
  | |- context [decide ?P] => destruct (decide P)
  end.

(** X13: [pretty_timedelta] depends on the elapsed time alone, although
    it is written with the [days] and [seconds] fields of the difference.
    A timestamp in the future or eight days and more back is shown as a
    date; below that the phrase is "just now" under two seconds, whole
    seconds under two minutes, whole minutes under an hour, "1 hour ago"
    under two hours, whole hours under a day, "1 day ago" under two days
    and whole days from there.  Fractions are dropped, never rounded up. *)
Theorem pretty_timedelta_by_elapsed_time env datetime from_date :
  pretty_timedelta env datetime from_date
  = elapsed_phrase env datetime (from_date - datetime).
Proof.
  unfold pretty_timedelta, elapsed_phrase, timedelta_days_field,
    timedelta_seconds_field, microseconds_per_day, microseconds_per_second.
  generalize (from_date - datetime). intros diff.
  repeat split_condition;
    first [ reflexivity
          | exfalso; Z.to_euclidean_division_equations; lia
          | do 2 f_equal; Z.to_euclidean_division_equations; lia ].
Qed.

End MoreTime.

(* ===================================================================== *)
(** * The files of different keys *)
(* ===================================================================== *)

Section MorePaths.

Lemma app_inv_same_length a b s t :
  String.length s = String.length t -> a +:+ s = b +:+ t -> a = b /\ s = t.
Proof.
  intros Hlen. revert b. induction a as [|c a IH]; intros [|d b] H.
  - now split.
  - exfalso. rewrite app_nil_string in H.
    apply (f_equal String.length) in H.
    rewrite string_length_app in H. simpl in H. lia.
  - exfalso. rewrite app_nil_string in H.
    apply (f_equal String.length) in H.
    rewrite string_length_app in H. simpl in H. lia.
  - rewrite !app_cons_string in H. injection H as -> H.
    destruct (IH b H) as [-> ->]. now split.
Qed.

Lemma clone_target_inj u1 u2 : clone_target u1 = clone_target u2 -> u1 = u2.
Proof.
  unfold clone_target, os_path_join, storage.
  destruct (starts_with_slash u1) eqn:H1, (starts_with_slash u2) eqn:H2;
    simpl; intros H.
  - exact H.
  - subst u1. discriminate.
  - subst u2. discriminate.
  - now apply (app_inv_head_string "ephemeral_storage/").
Qed.

(** The files of a key other than [uuid] are not the status file of
    [uuid]. *)
Lemma other_key_file_neq_status uuid uuid' p :
  uuid' <> uuid ->
  p ∈ [status_file uuid'; github_cache uuid'; computed_cache uuid'] ->
  p <> status_file uuid.
Proof.
  intros Hne Hp Heq. rewrite !elem_of_cons, elem_of_nil in Hp.
  rewrite status_file_eq in Heq.
  destruct Hp as [->|[->|[->|[]]]].
  - rewrite status_file_eq in Heq.
    apply app_inv_same_length in Heq as [Heq _]; [|reflexivity].
    now apply clone_target_inj in Heq.
  - rewrite github_cache_eq in Heq.
    apply app_inv_same_length in Heq as [_ Heq]; [|reflexivity].
    discriminate.
  - rewrite computed_cache_eq in Heq.
    change "_computed.json" with ("_c" +:+ "omputed.json") in Heq.
    rewrite <- app_assoc_string in Heq.
    apply app_inv_same_length in Heq as [_ Heq]; [|reflexivity].
    discriminate.
Qed.

(** X14: runs of different keys in normal form do not interfere on their
    files.  A run for one key leaves the status file and the two artifacts
    of another key that exist on disk as they are, however the run ends,
    unless the file lies below the mirror directory of the running key
    (the other key continues the running key by further components: what
    git does below its working copy is not under the control of the
    run). *)
Theorem run_keeps_files_of_other_keys env uuid uuid' token w r w' p :
  normal_path uuid = true -> normal_path uuid' = true ->
  uuid' <> uuid ->
  p ∈ [status_file uuid'; github_cache uuid'; computed_cache uuid'] ->
  inside (clone_target uuid) p = false ->
  is_Some (fs w !! p) ->
  fetch_repo_data env uuid token w = (r, w') ->
  fs w' !! p = fs w !! p.
Proof.
  intros _ _ Hne Hp Hin Hsome H.
  exact (keeps_fetch_repo_data env uuid p (fs w !! p)
           (other_key_file_neq_status uuid uuid' p Hne Hp) Hin
           (or_introl Hsome) token w r w' H eq_refl).
Qed.

Lemma run_keeps_files_of_other_keys_witness :
  fs (fetch_repo_data Demo.env "acme/widgets" (Some "token")
        shared_world).2 !! status_file "acme/gadgets"
  = Some (File (Parsed (JList []))).
Proof.
  destruct (fetch_repo_data Demo.env "acme/widgets" (Some "token")
              shared_world) as [r w'] eqn:Hrun.
  assert (Hfile : fs shared_world !! status_file "acme/gadgets"
                  = Some (File (Parsed (JList []))))
    by (vm_compute; reflexivity).
  simpl. rewrite <- Hfile.
  apply (run_keeps_files_of_other_keys Demo.env "acme/widgets"
           "acme/gadgets" (Some "token") shared_world r w');
    [reflexivity | reflexivity | discriminate
    | rewrite elem_of_cons; now left | reflexivity | | exact Hrun].
  rewrite Hfile. now eexists.
Defined.

End MorePaths.
